(** * gourmAgent: the tool-use orchestration loop and its tools

    A shallow embedding of the Python package [gourmAgent] (the agent loop
    of [agent.py], the HTTP endpoint of [server.py], the preference tools
    of [tools/prefs.py] over the tables of [memory/store.py], and the
    places tools of [tools/places.py]), followed by the properties the
    specification states about them and by further properties of the
    code: the clients of the two modules, the shape of search results, the
    invariants of the preference store, the binding of tool arguments and
    the tool schemas, and what a run keeps.

    Conventions of the embedding:
    - a Python [str] is a [string]; every character stands for the code
      point of the same number (code points below 256);
    - a Python exception is an [exn], an instance of [Exception] given by
      its class name and its [str(exc)]; a call that may raise returns a
      [result];
    - the values that tools receive and return are [value]s: [None],
      [bool], [int], [float], [str], [list], [dict] with [str] keys in
      insertion order, and [VOpaque] for any object [json.dumps] rejects.
      The package does no floating point arithmetic: a finite float is
      kept as the decimal literal that [repr] prints for it;
    - module globals and the database are threaded explicitly as state;
      what the two providers answer (model inference, places search) is a
      parameter;
    - [while True] is run with a fuel counter: one unit per inference
      call. *)

From Stdlib Require Import ZArith Ascii String List Bool Lia Decimal DecimalString DecimalN DecimalFacts.
From stdpp Require Import base decidable option list strings gmap sets.

Import ListNotations.
Local Open Scope string_scope.
Local Open Scope list_scope.

(* ===================================================================== *)
(** * Python values, exceptions and results *)
(* ===================================================================== *)

Module py.

(** An instance of (a subclass of) [Exception]: its class and [str(exc)]. *)
Record exn : Type := Exc { exc_type : string; exc_msg : string }.

Definition str_exc (e : exn) : string := exc_msg e.

Inductive result (A : Type) : Type :=
| Ok (a : A)
| Raise (e : exn).
Arguments Ok {A} a.
Arguments Raise {A} e.

Definition bind {A B : Type} (m : result A) (k : A -> result B) : result B :=
  match m with
  | Ok a => k a
  | Raise e => Raise e
  end.

(** A finite [float], as its decimal literal: sign, integer part, the
    digits after the point if any, and the signed exponent if any. *)
Record decimal : Type := {
  d_neg : bool;
  d_int : N;
  d_frac : option uint;
  d_exp : option (bool * uint);
}.

Unset Elimination Schemes.
Inductive value : Type :=
| VNone
| VBool (b : bool)
| VInt (z : Z)
| VFloat (x : decimal)
| VStr (s : string)
| VList (l : list value)
| VDict (d : list (string * value))
| VOpaque (type_name : string).
Set Elimination Schemes.

(** Induction on values, with the hypothesis for every element of a list
    and every entry of a dict. *)
Definition value_ind (P : value -> Prop)
    (HNone : P VNone)
    (HBool : forall b, P (VBool b))
    (HInt : forall z, P (VInt z))
    (HFloat : forall x, P (VFloat x))
    (HStr : forall s, P (VStr s))
    (HList : forall l, Forall P l -> P (VList l))
    (HDict : forall d, Forall (fun kv => P (snd kv)) d -> P (VDict d))
    (HOpaque : forall t, P (VOpaque t)) : forall v, P v :=
  fix go (v : value) : P v :=
    match v with
    | VNone => HNone
    | VBool b => HBool b
    | VInt z => HInt z
    | VFloat x => HFloat x
    | VStr s => HStr s
    | VList l =>
        HList l ((fix all (l : list value) : Forall P l :=
                    match l with
                    | [] => ListDef.Forall_nil P
                    | x :: l' => ListDef.Forall_cons P x l' (go x) (all l')
                    end) l)
    | VDict d =>
        HDict d ((fix all (d : list (string * value)) : Forall (fun kv => P (snd kv)) d :=
                    match d with
                    | [] => ListDef.Forall_nil _
                    | kv :: d' => ListDef.Forall_cons (fun kv => P (snd kv)) kv d' (go (snd kv)) (all d')
                    end) d)
    | VOpaque t => HOpaque t
    end.

Definition dict : Type := list (string * value).

(** [d.get(k)] on a dict kept as an association list. *)
Fixpoint dict_get {A : Type} (d : list (string * A)) (k : string) : option A :=
  match d with
  | [] => None
  | (k', v) :: d' => if String.eqb k' k then Some v else dict_get d' k
  end.

(** [d.get(k, default)] *)
Definition dict_get_default (d : dict) (k : string) (default : value) : value :=
  match dict_get d k with
  | Some v => v
  | None => default
  end.

(** [d[k] = v]: an existing key keeps its position, a new key goes last. *)
Fixpoint dict_set {A : Type} (d : list (string * A)) (k : string) (v : A)
  : list (string * A) :=
  match d with
  | [] => [(k, v)]
  | (k', v') :: d' =>
      if String.eqb k' k then (k', v) :: d' else (k', v') :: dict_set d' k v
  end.

(** [dict(pairs)] *)
Definition dict_of_pairs {A : Type} (pairs : list (string * A)) : list (string * A) :=
  fold_left (fun d kv => dict_set d (fst kv) (snd kv)) pairs [].

Definition nl : string := String (ascii_of_nat 10) EmptyString.

(** [sep.join(parts)] *)
Definition join (sep : string) (parts : list string) : string :=
  String.concat sep parts.

End py.

Export py.

Declare Scope py_scope.
Delimit Scope py_scope with py.
Notation "'do' x <~ m ; k" := (py.bind m (fun x => k))
  (at level 10, x name, m at level 100, k at level 200) : py_scope.
Local Open Scope py_scope.

(* ===================================================================== *)
(** * [json.dumps] and [json.loads] on the modelled values *)
(* ===================================================================== *)

Module json.

Definition dquote : ascii := "034"%char.
Definition backslash : ascii := "\"%char.

Definition hex_digit (n : N) : ascii :=
  match n with
  | 0 => "0" | 1 => "1" | 2 => "2" | 3 => "3" | 4 => "4" | 5 => "5"
  | 6 => "6" | 7 => "7" | 8 => "8" | 9 => "9" | 10 => "a" | 11 => "b"
  | 12 => "c" | 13 => "d" | 14 => "e" | _ => "f"
  end%N%char.

(** One character of [py_encode_basestring_ascii] ([ensure_ascii=True]):
    the short escapes of [ESCAPE_DCT], printable ASCII as it is, anything
    else as a four-digit lower-case hexadecimal escape. *)
Definition escape_char (c : ascii) : string :=
  if Ascii.eqb c dquote then String backslash (String dquote "")
  else if Ascii.eqb c backslash then String backslash (String backslash "")
  else if Ascii.eqb c "010" then String backslash "n"
  else if Ascii.eqb c "013" then String backslash "r"
  else if Ascii.eqb c "009" then String backslash "t"
  else if Ascii.eqb c "008" then String backslash "b"
  else if Ascii.eqb c "012" then String backslash "f"
  else if (32 <=? N_of_ascii c)%N && (N_of_ascii c <=? 126)%N then String c ""
  else String backslash
         (String "u" (String "0" (String "0"
            (String (hex_digit (N_of_ascii c / 16))
               (String (hex_digit (N_of_ascii c mod 16)) ""))))).

Fixpoint escape_string (s : string) : string :=
  match s with
  | EmptyString => ""
  | String c s' => escape_char c +:+ escape_string s'
  end.

Definition encode_string (s : string) : string :=
  String dquote (escape_string s +:+ String dquote "").

(** [int.__repr__] *)
Definition string_of_Z (z : Z) : string := NilZero.string_of_int (Z.to_int z).

Definition string_of_N (n : N) : string := NilZero.string_of_uint (N.to_uint n).

Definition sign_str (neg : bool) (plus : string) : string :=
  if neg then "-" else plus.

Definition frac_str (frac : option uint) : string :=
  match frac with
  | Some u => "." +:+ NilEmpty.string_of_uint u
  | None => ""
  end.

Definition exp_str (exp : option (bool * uint)) : string :=
  match exp with
  | Some (neg, u) => "e" +:+ sign_str neg "+" +:+ NilEmpty.string_of_uint u
  | None => ""
  end.

(** [float.__repr__] of a finite float. *)
Definition string_of_decimal (x : decimal) : string :=
  sign_str (d_neg x) "" +:+ string_of_N (d_int x) +:+ frac_str (d_frac x)
  +:+ exp_str (d_exp x).

Definition not_serializable (type_name : string) : exn :=
  Exc "TypeError" ("Object of type " +:+ type_name +:+ " is not JSON serializable").

(** [json.dumps(v)] with the default separators [", "] and [": "]. *)
Fixpoint dumps (v : value) : result string :=
  match v with
  | VNone => Ok "null"
  | VBool true => Ok "true"
  | VBool false => Ok "false"
  | VInt z => Ok (string_of_Z z)
  | VFloat x => Ok (string_of_decimal x)
  | VStr s => Ok (encode_string s)
  | VList l =>
      do items <~ (fix dumps_items (l : list value) : result (list string) :=
                  match l with
                  | [] => Ok []
                  | x :: l' =>
                      do s <~ dumps x; do ss <~ dumps_items l'; Ok (s :: ss)
                  end) l;
      Ok ("[" +:+ join ", " items +:+ "]")
  | VDict d =>
      do members <~ (fix dumps_members (d : list (string * value)) : result (list string) :=
                    match d with
                    | [] => Ok []
                    | (k, x) :: d' =>
                        do s <~ dumps x; do ss <~ dumps_members d';
                        Ok ((encode_string k +:+ ": " +:+ s) :: ss)
                    end) d;
      Ok ("{" +:+ join ", " members +:+ "}")
  | VOpaque t => Raise (not_serializable t)
  end.

(** The two loops inside [dumps], by name. *)
Fixpoint dumps_items (l : list value) : result (list string) :=
  match l with
  | [] => Ok []
  | x :: l' => do s <~ dumps x; do ss <~ dumps_items l'; Ok (s :: ss)
  end.

Fixpoint dumps_members (d : list (string * value)) : result (list string) :=
  match d with
  | [] => Ok []
  | (k, x) :: d' =>
      do s <~ dumps x; do ss <~ dumps_members d';
      Ok ((encode_string k +:+ ": " +:+ s) :: ss)
  end.

(** ** Decoding *)

Definition is_ws (c : ascii) : bool :=
  Ascii.eqb c " " || Ascii.eqb c "009" || Ascii.eqb c "010" || Ascii.eqb c "013".

Fixpoint skip_ws (s : string) : string :=
  match s with
  | String c s' => if is_ws c then skip_ws s' else s
  | EmptyString => s
  end.

Definition hex_value (c : ascii) : option N :=
  let n := N_of_ascii c in
  if (48 <=? n)%N && (n <=? 57)%N then Some (n - 48)%N
  else if (97 <=? n)%N && (n <=? 102)%N then Some (n - 87)%N
  else if (65 <=? n)%N && (n <=? 70)%N then Some (n - 55)%N
  else None.

(** The table [BACKSLASH] of the decoder. *)
Definition unescape (e : ascii) : option ascii :=
  if Ascii.eqb e dquote then Some dquote
  else if Ascii.eqb e backslash then Some backslash
  else if Ascii.eqb e "/" then Some "/"%char
  else if Ascii.eqb e "b" then Some "008"%char
  else if Ascii.eqb e "f" then Some "012"%char
  else if Ascii.eqb e "n" then Some "010"%char
  else if Ascii.eqb e "r" then Some "013"%char
  else if Ascii.eqb e "t" then Some "009"%char
  else None.

(** [scanstring] (strict), entered after the opening quote: the decoded
    string and the text after the closing quote.  An escape that denotes a
    code point of 256 or more has no image among the modelled strings and
    yields [None]. *)
Fixpoint scanstring (s : string) : option (string * string) :=
  match s with
  | EmptyString => None
  | String c s' =>
      if Ascii.eqb c dquote then Some ("", s')
      else if Ascii.eqb c backslash then
        match s' with
        | EmptyString => None
        | String e s'' =>
            if Ascii.eqb e "u" then
              match s'' with
              | String h1 (String h2 (String h3 (String h4 r))) =>
                  match hex_value h1, hex_value h2, hex_value h3, hex_value h4 with
                  | Some a, Some b, Some c', Some d =>
                      let n := (((a * 16 + b) * 16 + c') * 16 + d)%N in
                      if (n <? 256)%N then
                        match scanstring r with
                        | Some (str, r') => Some (String (ascii_of_N n) str, r')
                        | None => None
                        end
                      else None
                  | _, _, _, _ => None
                  end
              | _ => None
              end
            else
              match unescape e with
              | Some ch =>
                  match scanstring s'' with
                  | Some (str, r') => Some (String ch str, r')
                  | None => None
                  end
              | None => None
              end
        end
      else if (N_of_ascii c <? 32)%N then None
      else
        match scanstring s' with
        | Some (str, r') => Some (String c str, r')
        | None => None
        end
  end.

Definition digit_cons (c : ascii) : option (uint -> uint) :=
  match N_of_ascii c with
  | 48 => Some D0 | 49 => Some D1 | 50 => Some D2 | 51 => Some D3
  | 52 => Some D4 | 53 => Some D5 | 54 => Some D6 | 55 => Some D7
  | 56 => Some D8 | 57 => Some D9 | _ => None
  end%N.

Fixpoint scan_digits (s : string) : uint * string :=
  match s with
  | EmptyString => (Nil, "")
  | String c s' =>
      match digit_cons c with
      | Some D => let '(u, r) := scan_digits s' in (D u, r)
      | None => (Nil, s)
      end
  end.

(** The integer part of [NUMBER_RE]: a lone zero, or a non-zero digit and
    the digits after it. *)
Definition scan_nat (s : string) : option (N * string) :=
  match s with
  | EmptyString => None
  | String c s' =>
      if Ascii.eqb c "0" then Some (0%N, s')
      else
        match digit_cons c with
        | Some _ => let '(u, r) := scan_digits s in Some (N.of_uint u, r)
        | None => None
        end
  end.

(** The optional groups of [NUMBER_RE]: a point and digits; [e] or [E],
    an optional sign and digits.  A group that does not match consumes
    nothing. *)
Definition scan_frac (s : string) : option uint * string :=
  match s with
  | EmptyString => (None, s)
  | String c s' =>
      if Ascii.eqb c "." then
        match scan_digits s' with
        | (Nil, _) => (None, s)
        | (u, r) => (Some u, r)
        end
      else (None, s)
  end.

Definition scan_sign (s : string) : bool * string :=
  match s with
  | EmptyString => (false, s)
  | String c s' =>
      if Ascii.eqb c "-" then (true, s')
      else if Ascii.eqb c "+" then (false, s')
      else (false, s)
  end.

Definition scan_exp (s : string) : option (bool * uint) * string :=
  match s with
  | EmptyString => (None, s)
  | String c s' =>
      if Ascii.eqb c "e" || Ascii.eqb c "E" then
        let '(neg, s'') := scan_sign s' in
        match scan_digits s'' with
        | (Nil, _) => (None, s)
        | (u, r) => (Some (neg, u), r)
        end
      else (None, s)
  end.

(** A match of [NUMBER_RE]: an [int] when neither group matched, a
    [float] otherwise.  [NaN] and the infinities are not modelled. *)
Definition number_value (neg : bool) (n : N) (frac : option uint)
    (exp : option (bool * uint)) : value :=
  match frac, exp with
  | None, None => VInt (if neg then - Z.of_N n else Z.of_N n)%Z
  | _, _ => VFloat {| d_neg := neg; d_int := n; d_frac := frac; d_exp := exp |}
  end.

Definition scan_groups (neg : bool) (n : N) (r : string) : value * string :=
  let '(frac, r1) := scan_frac r in
  let '(exp, r2) := scan_exp r1 in
  (number_value neg n frac exp, r2).

Definition scan_number (s : string) : option (value * string) :=
  let '(neg, s1) :=
    match s with
    | EmptyString => (false, s)
    | String c s' => if Ascii.eqb c "-" then (true, s') else (false, s)
    end in
  match scan_nat s1 with
  | None => None
  | Some (n, r) => Some (scan_groups neg n r)
  end.

(** [s.startswith(p)], returning what follows [p]. *)
Fixpoint strip_prefix (p s : string) : option string :=
  match p with
  | EmptyString => Some s
  | String a p' =>
      match s with
      | String b s' => if Ascii.eqb a b then strip_prefix p' s' else None
      | EmptyString => None
      end
  end.

(** [scan_once], [JSONArray] and [JSONObject] of the decoder.  [fuel]
    bounds the depth of the calls; [loads] gives as much as the text is
    long. *)
Fixpoint scan_once (fuel : nat) (s : string) : option (value * string) :=
  match fuel with
  | O => None
  | S fuel' =>
      match s with
      | EmptyString => None
      | String c s' =>
          if Ascii.eqb c dquote then
            match scanstring s' with
            | Some (str, r) => Some (VStr str, r)
            | None => None
            end
          else if Ascii.eqb c "{" then
            match skip_ws s' with
            | EmptyString => None
            | String c1 s2 as s1 =>
                if Ascii.eqb c1 "}" then Some (VDict [], s2)
                else
                  match parse_members fuel' s1 with
                  | Some (pairs, r) => Some (VDict (dict_of_pairs pairs), r)
                  | None => None
                  end
            end
          else if Ascii.eqb c "[" then
            match skip_ws s' with
            | EmptyString => None
            | String c1 s2 as s1 =>
                if Ascii.eqb c1 "]" then Some (VList [], s2)
                else
                  match parse_items fuel' s1 with
                  | Some (vs, r) => Some (VList vs, r)
                  | None => None
                  end
            end
          else if Ascii.eqb c "n" then
            match strip_prefix "ull" s' with
            | Some r => Some (VNone, r)
            | None => None
            end
          else if Ascii.eqb c "t" then
            match strip_prefix "rue" s' with
            | Some r => Some (VBool true, r)
            | None => None
            end
          else if Ascii.eqb c "f" then
            match strip_prefix "alse" s' with
            | Some r => Some (VBool false, r)
            | None => None
            end
          else scan_number s
      end
  end
with parse_items (fuel : nat) (s : string) : option (list value * string) :=
  match fuel with
  | O => None
  | S fuel' =>
      match scan_once fuel' s with
      | None => None
      | Some (v, r) =>
          match skip_ws r with
          | EmptyString => None
          | String c r1 =>
              if Ascii.eqb c "]" then Some ([v], r1)
              else if Ascii.eqb c "," then
                match parse_items fuel' (skip_ws r1) with
                | Some (vs, r2) => Some (v :: vs, r2)
                | None => None
                end
              else None
          end
      end
  end
with parse_members (fuel : nat) (s : string) : option (list (string * value) * string) :=
  match fuel with
  | O => None
  | S fuel' =>
      match s with
      | EmptyString => None
      | String q s' =>
          if Ascii.eqb q dquote then
            match scanstring s' with
            | None => None
            | Some (key, r) =>
                match skip_ws r with
                | EmptyString => None
                | String c r1 =>
                    if Ascii.eqb c ":" then
                      match scan_once fuel' (skip_ws r1) with
                      | None => None
                      | Some (v, r2) =>
                          match skip_ws r2 with
                          | EmptyString => None
                          | String c' r3 =>
                              if Ascii.eqb c' "}" then Some ([(key, v)], r3)
                              else if Ascii.eqb c' "," then
                                match parse_members fuel' (skip_ws r3) with
                                | Some (ps, r4) => Some ((key, v) :: ps, r4)
                                | None => None
                                end
                              else None
                          end
                      end
                    else None
                end
            end
          else None
      end
  end.

(** [json.loads(s)]: [None] where Python raises [JSONDecodeError] or the
    document holds a character or a constant ([NaN], [Infinity]) outside
    the modelled values. *)
Definition loads (s : string) : option value :=
  match scan_once (String.length s) (skip_ws s) with
  | Some (v, r) =>
      match skip_ws r with
      | EmptyString => Some v
      | String _ _ => None
      end
  | None => None
  end.

(** The literal of a float has digits after its point and in its
    exponent, and has a point or an exponent. *)
Definition wf_decimal (x : decimal) : bool :=
  match d_frac x, d_exp x with
  | None, None => false
  | frac, exp =>
      match frac with
      | Some Nil => false
      | _ => true
      end
      && match exp with
         | Some (_, Nil) => false
         | _ => true
         end
  end.

(** Python dicts hold each key once; floats are literals of floats. *)
Fixpoint wf_value (v : value) : bool :=
  match v with
  | VFloat x => wf_decimal x
  | VList l => forallb wf_value l
  | VDict d =>
      bool_decide (NoDup (map fst d))
      && (fix wf_members (d : list (string * value)) : bool :=
            match d with
            | [] => true
            | (_, x) :: d' => wf_value x && wf_members d'
            end) d
  | _ => true
  end.

Fixpoint wf_members (d : list (string * value)) : bool :=
  match d with
  | [] => true
  | (_, x) :: d' => wf_value x && wf_members d'
  end.

(** Calls that the decoder nests to read back [v]. *)
Fixpoint need (v : value) : nat :=
  match v with
  | VList l => S (list_sum (map (fun x => S (need x)) l))
  | VDict d => S (list_sum (map (fun kv => S (need (snd kv))) d))
  | _ => 1
  end.

Definition need_items (l : list value) : nat :=
  list_sum (map (fun x => S (need x)) l).

Definition need_members (d : list (string * value)) : nat :=
  list_sum (map (fun kv => S (need (snd kv))) d).

(** What may follow a run of digits: anything but a digit. *)
Definition no_digit_head (s : string) : Prop :=
  match s with
  | EmptyString => True
  | String c _ => digit_cons c = None
  end.

(** What may follow a number: anything that cannot continue it. *)
Definition number_char (c : ascii) : bool :=
  match digit_cons c with
  | Some _ => true
  | None => Ascii.eqb c "." || Ascii.eqb c "e" || Ascii.eqb c "E"
  end.

Definition ends_number (s : string) : Prop :=
  match s with
  | EmptyString => True
  | String c _ => number_char c = false
  end.

Definition leading_nonzero (u : uint) : Prop :=
  match u with
  | Nil | D0 _ => False
  | _ => True
  end.

Definition digit_or_minus (c : ascii) : Prop :=
  c = "-"%char \/ exists D, digit_cons c = Some D.

(** The first character of an encoded value. *)
Definition starts_value (c : ascii) : Prop :=
  is_ws c = false /\ Ascii.eqb c "]" = false /\ Ascii.eqb c "}" = false.

(** [v] is read back from its encoding, whatever follows it, by a decoder
    with fuel for it. *)
Definition reads_back (v : value) : Prop :=
  forall s, wf_value v = true -> dumps v = Ok s ->
  forall fuel rest, need v <= fuel -> ends_number rest ->
    scan_once fuel (s +:+ rest) = Some (v, rest).

(** The encoding of [v] is long enough to pay for its decoding. *)
Definition fits (v : value) : Prop :=
  forall s, dumps v = Ok s -> need v <= String.length s.

End json.

(* ===================================================================== *)
(** * Tool schemas *)
(* ===================================================================== *)

(** The part of a tool's [input_schema] that constrains a request: the
    declared properties with their types, and the required ones. *)
Module schema.

Inductive type : Type :=
| TString
| TInteger
| TArray (items : type)
| TEnum (values : list string).

Record Tool : Type := {
  name : string;
  properties : list (string * type);
  required : list string;
}.

Fixpoint conforms (t : type) (v : value) : bool :=
  match t with
  | TString => match v with VStr _ => true | _ => false end
  | TInteger => match v with VInt _ => true | _ => false end
  | TArray items => match v with VList l => forallb (conforms items) l | _ => false end
  | TEnum values => match v with VStr s => existsb (String.eqb s) values | _ => false end
  end.

(** A request that the schema accepts and that carries declared properties
    only. *)
Definition valid (t : Tool) (inputs : dict) : bool :=
  forallb (fun kv => match dict_get (properties t) (fst kv) with
                     | Some ty => conforms ty (snd kv)
                     | None => false
                     end) inputs
  && forallb (fun k => existsb (String.eqb k) (map fst inputs)) (required t).

End schema.

(* ===================================================================== *)
(** * [memory/store.py]: the tables *)
(* ===================================================================== *)

Module store.

(** Row of [users].  The timestamp columns of both tables are left out. *)
Record User : Type := { id : string }.

(** Row of [preferences].  The JSON columns are nullable
    ([Mapped[list | None]]) and default to [list] on insert. *)
Record Preference : Type := {
  pk : option Z;
  user_id : string;
  cuisines_liked : option (list string);
  cuisines_disliked : option (list string);
  dietary_restrictions : option (list string);
  price_range : option string;
  liked_place_ids : option (list string);
  disliked_place_ids : option (list string);
}.

Record DB : Type := {
  users : list User;
  preferences : list Preference;
}.

(** [init_db()] on a fresh file. *)
Definition empty_db : DB := {| users := []; preferences := [] |}.

(** [Preference(user_id=user_id)]: a pending object, no attribute set. *)
Definition new_Preference (uid : string) : Preference :=
  {| pk := None; user_id := uid;
     cuisines_liked := None; cuisines_disliked := None;
     dietary_restrictions := None; price_range := None;
     liked_place_ids := None; disliked_place_ids := None |}.

(** [session.get(User, user_id)] *)
Definition get_User (db : DB) (uid : string) : option User :=
  find (fun u => String.eqb (id u) uid) (users db).

(** [session.query(Preference).filter_by(user_id=user_id).first()] *)
Definition first_Preference (db : DB) (uid : string) : option Preference :=
  find (fun p => String.eqb (user_id p) uid) (preferences db).

Definition column_default (c : option (list string)) : option (list string) :=
  match c with
  | Some l => Some l
  | None => Some []
  end.

Definition next_pk (rows : list Preference) : Z :=
  (fold_right Z.max 0 (map (fun p => default 0 (pk p)) rows) + 1)%Z.

(** INSERT of a pending row: the key is assigned and [default=list] fills
    the JSON columns that were never set. *)
Definition insert_Preference (rows : list Preference) (p : Preference) : list Preference :=
  rows ++ [ {| pk := Some (next_pk rows); user_id := user_id p;
               cuisines_liked := column_default (cuisines_liked p);
               cuisines_disliked := column_default (cuisines_disliked p);
               dietary_restrictions := column_default (dietary_restrictions p);
               price_range := price_range p;
               liked_place_ids := column_default (liked_place_ids p);
               disliked_place_ids := column_default (disliked_place_ids p) |} ].

(** UPDATE of the row that [first_Preference] returned. *)
Fixpoint update_Preference (rows : list Preference) (p : Preference) : list Preference :=
  match rows with
  | [] => []
  | q :: rows' =>
      if String.eqb (user_id q) (user_id p) then p :: rows'
      else q :: update_Preference rows' p
  end.

(** The primary key of [users], and the same for the user of a row of
    [preferences]: no two rows for one user. *)
Definition one_row_per_user (db : DB) : Prop :=
  NoDup (map id (users db)) /\ NoDup (map user_id (preferences db)).

End store.

(* ===================================================================== *)
(** * [tools/prefs.py] *)
(* ===================================================================== *)

Module prefs.
Import store.

(** [x or []]: [None] and the empty list both give the empty list. *)
Definition or_empty (x : option (list string)) : list string :=
  match x with
  | Some l => l
  | None => []
  end.

(** [list(set(existing) | set(new))]: the elements of the union, each
    once, in the order the set yields them. *)
Definition union_list (existing new : list string) : list string :=
  elements ((list_to_set existing : gset string) ∪ list_to_set new).

Definition merge (stored arg : option (list string)) : option (list string) :=
  match arg with
  | Some new => Some (union_list (or_empty stored) new)
  | None => stored
  end.

(** [save_preference] (prefs.py, lines 14-57): the value returned and the
    database after [session.commit()]. *)
Definition save_preference (db : DB) (user_id : string)
    (cuisines_liked cuisines_disliked dietary_restrictions : option (list string))
    (price_range : option string)
    (liked_place_ids disliked_place_ids : option (list string)) : value * DB :=
  let users' :=
    match get_User db user_id with
    | Some _ => users db
    | None => users db ++ [ {| id := user_id |} ]
    end in
  let found := first_Preference db user_id in
  let pref :=
    match found with
    | Some p => p
    | None => new_Preference user_id
    end in
  let pref' :=
    {| pk := pk pref; store.user_id := store.user_id pref;
       store.cuisines_liked := merge (store.cuisines_liked pref) cuisines_liked;
       store.cuisines_disliked := merge (store.cuisines_disliked pref) cuisines_disliked;
       store.dietary_restrictions := merge (store.dietary_restrictions pref) dietary_restrictions;
       store.price_range :=
         match price_range with
         | Some r => Some r
         | None => store.price_range pref
         end;
       store.liked_place_ids := merge (store.liked_place_ids pref) liked_place_ids;
       store.disliked_place_ids := merge (store.disliked_place_ids pref) disliked_place_ids |} in
  let rows' :=
    match found with
    | Some _ => update_Preference (preferences db) pref'
    | None => insert_Preference (preferences db) pref'
    end in
  (VDict [("status", VStr "ok"); ("user_id", VStr user_id)],
   {| users := users'; preferences := rows' |}).

Definition str_list (l : list string) : value := VList (map VStr l).

Definition opt_str (x : option string) : value :=
  match x with
  | Some s => VStr s
  | None => VNone
  end.

(** [get_preferences] (prefs.py, lines 60-85). *)
Definition get_preferences (db : DB) (user_id : string) : value :=
  match first_Preference db user_id with
  | None =>
      VDict [("user_id", VStr user_id);
             ("cuisines_liked", VList []);
             ("cuisines_disliked", VList []);
             ("dietary_restrictions", VList []);
             ("price_range", VNone);
             ("liked_place_ids", VList []);
             ("disliked_place_ids", VList [])]
  | Some pref =>
      VDict [("user_id", VStr user_id);
             ("cuisines_liked", str_list (or_empty (store.cuisines_liked pref)));
             ("cuisines_disliked", str_list (or_empty (store.cuisines_disliked pref)));
             ("dietary_restrictions", str_list (or_empty (store.dietary_restrictions pref)));
             ("price_range", opt_str (store.price_range pref));
             ("liked_place_ids", str_list (or_empty (store.liked_place_ids pref)));
             ("disliked_place_ids", str_list (or_empty (store.disliked_place_ids pref)))]
  end.

(** What [get_preferences] reports for a user, field by field. *)
Definition fetched (db : DB) (user_id : string)
    (field : Preference -> option (list string)) : list string :=
  match first_Preference db user_id with
  | Some pref => or_empty (field pref)
  | None => []
  end.

Definition fetched_price (db : DB) (user_id : string) : option string :=
  match first_Preference db user_id with
  | Some pref => store.price_range pref
  | None => None
  end.

Definition report (user_id : string) (cl cd dr : list string) (pr : option string)
    (lp dp : list string) : value :=
  VDict [("user_id", VStr user_id);
         ("cuisines_liked", str_list cl);
         ("cuisines_disliked", str_list cd);
         ("dietary_restrictions", str_list dr);
         ("price_range", opt_str pr);
         ("liked_place_ids", str_list lp);
         ("disliked_place_ids", str_list dp)].

(** The list reported after an upsert, from the list reported before. *)
Definition upsert_list (old : list string) (arg : option (list string)) : list string :=
  match arg with
  | Some new => union_list old new
  | None => old
  end.

(** [new] is what an upsert with [arg] may leave of [old]: the union
    without repetition, in whatever order, or [old] itself when the field
    was not passed. *)
Definition merged (old : list string) (arg : option (list string)) (new : list string) : Prop :=
  match arg with
  | Some l => NoDup new /\ forall x, x ∈ new <-> x ∈ old \/ x ∈ l
  | None => new = old
  end.

Definition overwritten (old arg new : option string) : Prop :=
  match arg with
  | Some r => new = Some r
  | None => new = old
  end.

(** [TOOLS] (prefs.py, lines 91-148). *)
Definition save_preference_schema : schema.Tool :=
  {| schema.name := "save_preference";
     schema.properties :=
       [("user_id", schema.TString);
        ("cuisines_liked", schema.TArray schema.TString);
        ("cuisines_disliked", schema.TArray schema.TString);
        ("dietary_restrictions", schema.TArray schema.TString);
        ("price_range", schema.TEnum ["$"; "$$"; "$$$"; "$$$$"]);
        ("liked_place_ids", schema.TArray schema.TString);
        ("disliked_place_ids", schema.TArray schema.TString)];
     schema.required := ["user_id"] |}.

Definition get_preferences_schema : schema.Tool :=
  {| schema.name := "get_preferences";
     schema.properties := [("user_id", schema.TString)];
     schema.required := ["user_id"] |}.

Definition TOOLS : list schema.Tool := [save_preference_schema; get_preferences_schema].

(** The optional arguments of one call of [save_preference], and a
    history of such calls for one user. *)
Record Args : Type := {
  arg_cuisines_liked : option (list string);
  arg_cuisines_disliked : option (list string);
  arg_dietary_restrictions : option (list string);
  arg_price_range : option string;
  arg_liked_place_ids : option (list string);
  arg_disliked_place_ids : option (list string);
}.

(** The list columns of the table, each with the argument that feeds it. *)
Inductive fed_by : (Preference -> option (list string)) ->
                   (Args -> option (list string)) -> Prop :=
| fed_cuisines_liked : fed_by store.cuisines_liked arg_cuisines_liked
| fed_cuisines_disliked : fed_by store.cuisines_disliked arg_cuisines_disliked
| fed_dietary_restrictions : fed_by store.dietary_restrictions arg_dietary_restrictions
| fed_liked_place_ids : fed_by store.liked_place_ids arg_liked_place_ids
| fed_disliked_place_ids : fed_by store.disliked_place_ids arg_disliked_place_ids.

Definition save (db : DB) (user_id : string) (a : Args) : DB :=
  snd (save_preference db user_id (arg_cuisines_liked a) (arg_cuisines_disliked a)
         (arg_dietary_restrictions a) (arg_price_range a) (arg_liked_place_ids a)
         (arg_disliked_place_ids a)).

Definition save_all (db : DB) (user_id : string) (history : list Args) : DB :=
  fold_left (fun d a => save d user_id a) history db.

(** The price range that a history of calls leaves: that of the last call
    that passed one. *)
Definition last_price (old : option string) (history : list Args) : option string :=
  fold_left (fun p a => match arg_price_range a with
                        | Some r => Some r
                        | None => p
                        end) history old.

End prefs.

(* ===================================================================== *)
(** * [tools/places.py] *)
(* ===================================================================== *)

Module places.

(** The three methods of [googlemaps.Client] that the tools call.  What
    the provider answers is a parameter of the model. *)
Record Client : Type := {
  geocode : string -> result (list value);
  places_search : string -> value -> Z -> string -> result dict;
  place : string -> list string -> result dict;
}.

(** [os.getenv("GOOGLE_PLACES_API_KEY")] and the constructor
    [googlemaps.Client(key=...)]. *)
Record Env : Type := {
  GOOGLE_PLACES_API_KEY : option string;
  googlemaps_Client : string -> result Client;
}.

(** [_get_client()], threading the module global [_client]. *)
Definition _get_client (env : Env) (_client : option Client)
  : result Client * option Client :=
  match _client with
  | Some c => (Ok c, _client)
  | None =>
      match GOOGLE_PLACES_API_KEY env with
      | None | Some "" =>
          (Raise (Exc "RuntimeError" "GOOGLE_PLACES_API_KEY environment variable is not set"),
           None)
      | Some api_key =>
          match googlemaps_Client env api_key with
          | Ok c => (Ok c, Some c)
          | Raise e => (Raise e, None)
          end
      end
  end.

(** [v[k]] *)
Definition getitem (v : value) (k : string) : result value :=
  match v with
  | VDict d =>
      match dict_get d k with
      | Some x => Ok x
      | None => Raise (Exc "KeyError" ("'" +:+ k +:+ "'"))
      end
  | _ => Raise (Exc "TypeError" "object is not subscriptable")
  end.

Definition no_get : exn := Exc "AttributeError" "object has no attribute 'get'".

(** The dict literal built for one [place] of the provider's answer. *)
Definition place_record (place : value) : result value :=
  match place with
  | VDict p =>
      match dict_get_default p "geometry" (VDict []) with
      | VDict g =>
          Ok (VDict [("place_id", dict_get_default p "place_id" VNone);
                     ("name", dict_get_default p "name" VNone);
                     ("address", dict_get_default p "formatted_address" VNone);
                     ("rating", dict_get_default p "rating" VNone);
                     ("price_level", dict_get_default p "price_level" VNone);
                     ("types", dict_get_default p "types" (VList []));
                     ("location", dict_get_default g "location" VNone)])
      | _ => Raise no_get
      end
  | _ => Raise no_get
  end.

(** [for place in ...: places.append({...})] *)
Fixpoint for_places (todo : list value) (places : list value) : result (list value) :=
  match todo with
  | [] => Ok places
  | place :: todo' =>
      do r <~ place_record place;
      for_places todo' (places ++ [r])
  end.

(** [search_restaurants] (places.py, lines 27-67), after [_get_client()]. *)
Definition search_restaurants_with (client : Client)
    (query location : string) (radius : Z) : result value :=
  do geocode_result <~ geocode client location;
  match geocode_result with
  | [] => Ok (VList [])
  | first :: _ =>
      do geometry <~ getitem first "geometry";
      do latlng <~ getitem geometry "location";
      do results <~ places_search client ("restaurant " +:+ query) latlng radius "restaurant";
      match dict_get_default results "results" (VList []) with
      | VList found =>
          do places <~ for_places (firstn 10 found) [];
          Ok (VList places)
      | _ => Raise (Exc "TypeError" "object is not subscriptable")
      end
  end.

Definition search_restaurants (env : Env) (_client : option Client)
    (query location : string) (radius : Z) : result value * option Client :=
  match _get_client env _client with
  | (Ok client, g) => (search_restaurants_with client query location radius, g)
  | (Raise e, g) => (Raise e, g)
  end.

Definition fields : list string :=
  ["name"; "formatted_address"; "formatted_phone_number"; "website"; "rating";
   "price_level"; "opening_hours"; "reviews"; "url"].

(** [get_details] (places.py, lines 70-93). *)
Definition get_details (env : Env) (_client : option Client) (place_id : string)
  : result value * option Client :=
  match _get_client env _client with
  | (Ok client, g) =>
      (do r <~ place client place_id fields;
       Ok (dict_get_default r "result" (VDict [])), g)
  | (Raise e, g) => (Raise e, g)
  end.

(** [TOOLS] (places.py, lines 100-141). *)
Definition search_restaurants_schema : schema.Tool :=
  {| schema.name := "search_restaurants";
     schema.properties :=
       [("query", schema.TString); ("location", schema.TString);
        ("radius", schema.TInteger)];
     schema.required := ["query"; "location"] |}.

Definition get_details_schema : schema.Tool :=
  {| schema.name := "get_details";
     schema.properties := [("place_id", schema.TString)];
     schema.required := ["place_id"] |}.

Definition TOOLS : list schema.Tool := [search_restaurants_schema; get_details_schema].

(** The keys of the dict literal of [place_record]. *)
Definition record_keys : list string :=
  ["place_id"; "name"; "address"; "rating"; "price_level"; "types"; "location"].

End places.

(* ===================================================================== *)
(** * [agent.py] *)
(* ===================================================================== *)

Module agent.

(** A content block of a model response, told apart by its [type]. *)
Inductive Block : Type :=
| TextBlock (text : string)
| ToolUseBlock (id name : string) (input : dict)
| ThinkingBlock (thinking : string).

Definition block_type (b : Block) : string :=
  match b with
  | TextBlock _ => "text"
  | ToolUseBlock _ _ _ => "tool_use"
  | ThinkingBlock _ => "thinking"
  end.

Record ToolUse : Type := { tu_id : string; tu_name : string; tu_input : dict }.

Record ToolResult : Type := {
  type : string;
  tool_use_id : string;
  content : string;
  is_error : bool;
}.

Record LogEntry : Type := {
  tool : string;
  input : dict;
  output : string;
  error : bool;
}.

Inductive Content : Type :=
| Str (s : string)
| Blocks (l : list Block)
| ToolResults (l : list ToolResult).

Record Message : Type := { role : string; message_content : Content }.

Record Response : Type := { stop_reason : string; response_content : list Block }.

(** [client.messages.create(...)]: the model, the token limit, the system
    prompt and the tool schemas are the same at every call, and within one
    run every call sends a longer transcript than the call before, so any
    course of answers is a function of the transcript; a provider failure
    is a [Raise]. *)
Record Client : Type := { messages_create : list Message -> result Response }.

Record RunResult : Type := { response : string; tool_calls : list LogEntry }.

Definition block_of (tu : ToolUse) : Block :=
  ToolUseBlock (tu_id tu) (tu_name tu) (tu_input tu).

(** [[block for block in content if block.type == "tool_use"]], each block
    with its [id], [name] and [input]. *)
Fixpoint tool_use_blocks (content : list Block) : list ToolUse :=
  match content with
  | [] => []
  | ToolUseBlock i n inp :: rest =>
      {| tu_id := i; tu_name := n; tu_input := inp |} :: tool_use_blocks rest
  | _ :: rest => tool_use_blocks rest
  end.

(** [[block.text for block in content if block.type == "text"]] *)
Fixpoint text_blocks (content : list Block) : list string :=
  match content with
  | [] => []
  | TextBlock t :: rest => t :: text_blocks rest
  | _ :: rest => text_blocks rest
  end.

Definition is_empty {A : Type} (l : list A) : bool :=
  match l with
  | [] => true
  | _ :: _ => false
  end.

Definition seed (user_id message location : string) : Message :=
  {| role := "user";
     message_content :=
       Str ("[user_id=" +:+ user_id +:+ "] [location=" +:+ location +:+ "]"
            +:+ nl +:+ nl +:+ message) |}.

Inductive Outcome : Type :=
| Returned (r : RunResult)
| Raised (e : exn)
| OutOfFuel.

Section Loop.

(** The state behind the tools and the table of callables, each called
    with the request's arguments as keywords. *)
Context {W : Type}.
Variable registry : list (string * (dict -> W -> result value * W)).
Variable client : Client.

(** [_dispatch_tool] (agent.py, lines 64-68). *)
Definition _dispatch_tool (name : string) (inputs : dict) (w : W) : result value * W :=
  match dict_get registry name with
  | None => (Raise (Exc "ValueError" ("Unknown tool: " +:+ name)), w)
  | Some fn => fn inputs w
  end.

(** [{"error": str(exc)}] *)
Definition error_dict (exc : exn) : value := VDict [("error", VStr (str_exc exc))].

Definition error_content (exc : exn) : result string := json.dumps (error_dict exc).

(** The [try] / [except Exception] of the loop body (agent.py, lines
    118-124): the serialized output and the error flag. *)
Definition execute (tu : ToolUse) (w : W) : result (string * bool) * W :=
  match _dispatch_tool (tu_name tu) (tu_input tu) w with
  | (Ok result, w') =>
      match json.dumps result with
      | Ok result_content => (Ok (result_content, false), w')
      | Raise exc => (do c <~ error_content exc; Ok (c, true), w')
      end
  | (Raise exc, w') => (do c <~ error_content exc; Ok (c, true), w')
  end.

(** [for tu in tool_uses: ...] with its two [append]s (agent.py, lines
    117-136). *)
Fixpoint for_tool_uses (tool_uses : list ToolUse)
    (tool_calls_log : list LogEntry) (tool_results : list ToolResult) (w : W)
  : result (list LogEntry * list ToolResult) * W :=
  match tool_uses with
  | [] => (Ok (tool_calls_log, tool_results), w)
  | tu :: rest =>
      match execute tu w with
      | (Ok (result_content, flag), w') =>
          for_tool_uses rest
            (tool_calls_log ++
               [ {| tool := tu_name tu; input := tu_input tu;
                    output := result_content; error := flag |} ])
            (tool_results ++
               [ {| type := "tool_result"; tool_use_id := tu_id tu;
                    content := result_content; is_error := flag |} ])
            w'
      | (Raise e, w') => (Raise e, w')
      end
  end.

Record State : Type := {
  messages : list Message;
  tool_calls_log : list LogEntry;
  world : W;
}.

Inductive Step : Type :=
| Return (r : RunResult)
| Next (st : State)
| Abort (e : exn) (w : W).

(** One pass through the body of [while True] (agent.py, lines 95-138). *)
Definition cycle (st : State) : Step :=
  match messages_create client (messages st) with
  | Raise e => Abort e (world st)
  | Ok resp =>
      let tool_uses := tool_use_blocks (response_content resp) in
      if String.eqb (stop_reason resp) "end_turn" || is_empty tool_uses then
        Return {| response := join nl (text_blocks (response_content resp));
                  tool_calls := tool_calls_log st |}
      else
        let messages1 :=
          messages st ++
            [ {| role := "assistant"; message_content := Blocks (response_content resp) |} ] in
        match for_tool_uses tool_uses (tool_calls_log st) [] (world st) with
        | (Ok (log, tool_results), w') =>
            Next {| messages :=
                      messages1 ++
                        [ {| role := "user"; message_content := ToolResults tool_results |} ];
                    tool_calls_log := log;
                    world := w' |}
        | (Raise e, w') => Abort e w'
        end
  end.

Fixpoint loop (fuel : nat) (st : State) : Outcome * W :=
  match fuel with
  | O => (OutOfFuel, world st)
  | S fuel' =>
      match cycle st with
      | Return r => (Returned r, world st)
      | Next st' => loop fuel' st'
      | Abort e w => (Raised e, w)
      end
  end.

Definition initial (w : W) (user_id message location : string) : State :=
  {| messages := [seed user_id message location];
     tool_calls_log := [];
     world := w |}.

(** [run] (agent.py, lines 71-138); [client] is what [_get_client()]
    returns. *)
Definition run (fuel : nat) (w : W) (user_id message location : string) : Outcome * W :=
  loop fuel (initial w user_id message location).

(** [cycles n st tus st']: from [st] the loop goes [n] times through the
    tool branch, serving the tool requests [tus], and stands at [st']
    before its next inference call. *)
Inductive cycles : nat -> State -> list ToolUse -> State -> Prop :=
| cycles_here st : cycles 0 st [] st
| cycles_more n st resp st1 tus st2 :
    messages_create client (messages st) = Ok resp ->
    cycle st = Next st1 ->
    cycles n st1 tus st2 ->
    cycles (S n) st (tool_use_blocks (response_content resp) ++ tus) st2.

(** What one tool request leaves behind: its log entry, its tool-result
    block and the next state of the tools. *)
Inductive served : W -> list ToolUse -> list LogEntry -> list ToolResult -> W -> Prop :=
| served_nil w : served w [] [] [] w
| served_cons w tu out flag w1 tus entries results w2 :
    execute tu w = (Ok (out, flag), w1) ->
    served w1 tus entries results w2 ->
    served w (tu :: tus)
      ({| tool := tu_name tu; input := tu_input tu; output := out; error := flag |} :: entries)
      ({| type := "tool_result"; tool_use_id := tu_id tu; content := out; is_error := flag |}
         :: results)
      w2.

(** [answers w tu out flag]: [out] and [flag] are what the tool called for
    [tu] in state [w] has to leave behind, namely its returned value in
    serialized form with the flag down, or the error payload with the flag
    up when the call or the serialization raised. *)
Definition answers (w : W) (tu : ToolUse) (out : string) (flag : bool) : Prop :=
  match fst (_dispatch_tool (tu_name tu) (tu_input tu) w) with
  | Ok v =>
      match json.dumps v with
      | Ok s =>
          out = s /\ flag = false
          /\ (json.wf_value v = true -> json.loads out = Some v)
      | Raise exc => flag = true /\ json.loads out = Some (error_dict exc)
      end
  | Raise exc => flag = true /\ json.loads out = Some (error_dict exc)
  end.

(** One log entry and one tool-result block per request, in the order of
    the requests, each pair with the same output and flag, which answer the
    request in the state the earlier requests left. *)
Fixpoint audited (w : W) (tus : list ToolUse) (entries : list LogEntry)
    (results : list ToolResult) : Prop :=
  match tus, entries, results with
  | [], [], [] => True
  | tu :: tus', e :: entries', r :: results' =>
      tool e = tu_name tu /\ input e = tu_input tu /\ tool_use_id r = tu_id tu
      /\ output e = content r /\ error e = is_error r
      /\ answers w tu (output e) (error e)
      /\ audited (snd (_dispatch_tool (tu_name tu) (tu_input tu) w)) tus' entries' results'
  | _, _, _ => False
  end.

End Loop.

(** The tool-result blocks and the tool requests that a transcript holds,
    in order. *)
Definition results_of (m : Message) : list ToolResult :=
  match message_content m with
  | ToolResults l => l
  | _ => []
  end.

Definition requests_of (m : Message) : list ToolUse :=
  match message_content m with
  | Blocks l => tool_use_blocks l
  | _ => []
  end.

(** The two messages a tool cycle appends and the result of a returning
    pass, by name. *)
Definition assistant_turn (resp : Response) : Message :=
  {| role := "assistant"; message_content := Blocks (response_content resp) |}.

Definition tool_result_turn (results : list ToolResult) : Message :=
  {| role := "user"; message_content := ToolResults results |}.

Definition final_result (resp : Response) (log : list LogEntry) : RunResult :=
  {| response := join nl (text_blocks (response_content resp)); tool_calls := log |}.

(** ** The registered tools

    Calling [fn] with [inputs] spread as keywords binds the request's
    arguments to the parameters of the callable: a keyword that is no
    parameter, or a required parameter that is missing, raises [TypeError]
    before the body runs.  The bodies are modelled on arguments of the
    declared schema, which the provider enforces.  Python does not check
    the types itself, and what a body would do with a value outside the
    schema is not modelled: the model answers such a call with
    [outside_schema]. *)

Definition quote (s : string) : string := "'" +:+ s +:+ "'".

Definition unexpected_keyword (params : list string) (inputs : dict) : option string :=
  find (fun k => negb (existsb (String.eqb k) params)) (map fst inputs).

Definition missing_arguments (required : list string) (inputs : dict) : list string :=
  List.filter (fun k => negb (existsb (String.eqb k) (map fst inputs))) required.

Fixpoint and_last (names : list string) : string :=
  match names with
  | [] => ""
  | [a] => "and " +:+ quote a
  | a :: rest => quote a +:+ ", " +:+ and_last rest
  end.

Definition and_list (names : list string) : string :=
  match names with
  | [] => ""
  | [a] => quote a
  | [a; b] => quote a +:+ " and " +:+ quote b
  | a :: rest => quote a +:+ ", " +:+ and_last rest
  end.

Definition check_keywords (fname : string) (params required : list string)
    (inputs : dict) : result unit :=
  match unexpected_keyword params inputs with
  | Some k =>
      Raise (Exc "TypeError"
               (fname +:+ "() got an unexpected keyword argument " +:+ quote k))
  | None =>
      match missing_arguments required inputs with
      | [] => Ok tt
      | [a] =>
          Raise (Exc "TypeError"
                   (fname +:+ "() missing 1 required positional argument: " +:+ quote a))
      | names =>
          Raise (Exc "TypeError"
                   (fname +:+ "() missing " +:+ json.string_of_Z (Z.of_nat (length names))
                    +:+ " required positional arguments: " +:+ and_list names))
      end
  end.

Definition outside_schema (param : string) : exn :=
  Exc "TypeError" ("argument " +:+ quote param +:+ " is outside the declared schema").

Definition as_str (v : value) : option string :=
  match v with
  | VStr s => Some s
  | _ => None
  end.

Definition as_int (v : value) : option Z :=
  match v with
  | VInt z => Some z
  | _ => None
  end.

Fixpoint as_str_list_items (l : list value) : option (list string) :=
  match l with
  | [] => Some []
  | VStr s :: l' =>
      match as_str_list_items l' with
      | Some ss => Some (s :: ss)
      | None => None
      end
  | _ :: _ => None
  end.

Definition as_str_list (v : value) : option (list string) :=
  match v with
  | VList l => as_str_list_items l
  | _ => None
  end.

Definition required_arg {A : Type} (decode : value -> option A) (inputs : dict)
    (param : string) : result A :=
  match dict_get inputs param with
  | Some v =>
      match decode v with
      | Some a => Ok a
      | None => Raise (outside_schema param)
      end
  | None => Raise (outside_schema param)
  end.

(** A parameter whose default is [None]. *)
Definition optional_arg {A : Type} (decode : value -> option A) (inputs : dict)
    (param : string) : result (option A) :=
  match dict_get inputs param with
  | None | Some VNone => Ok None
  | Some v =>
      match decode v with
      | Some a => Ok (Some a)
      | None => Raise (outside_schema param)
      end
  end.

(** The state behind the four tools: the database, the environment of the
    places module and its global [_client]. *)
Record World : Type := {
  db : store.DB;
  env : places.Env;
  places_client : option places.Client;
}.

Definition with_client (w : World) (g : option places.Client) : World :=
  {| db := db w; env := env w; places_client := g |}.

Definition with_db (w : World) (d : store.DB) : World :=
  {| db := d; env := env w; places_client := places_client w |}.

Definition call_search_restaurants (inputs : dict) (w : World) : result value * World :=
  let args :=
    do _ <~ check_keywords "search_restaurants" ["query"; "location"; "radius"]
              ["query"; "location"] inputs;
    do query <~ required_arg as_str inputs "query";
    do location <~ required_arg as_str inputs "location";
    do radius <~ match dict_get inputs "radius" with
                 | None => Ok 5000%Z
                 | Some _ => required_arg as_int inputs "radius"
                 end;
    Ok (query, location, radius) in
  match args with
  | Ok (query, location, radius) =>
      let '(r, g) := places.search_restaurants (env w) (places_client w) query location radius in
      (r, with_client w g)
  | Raise e => (Raise e, w)
  end.

Definition call_get_details (inputs : dict) (w : World) : result value * World :=
  let args :=
    do _ <~ check_keywords "get_details" ["place_id"] ["place_id"] inputs;
    required_arg as_str inputs "place_id" in
  match args with
  | Ok place_id =>
      let '(r, g) := places.get_details (env w) (places_client w) place_id in
      (r, with_client w g)
  | Raise e => (Raise e, w)
  end.

Definition save_preference_params : list string :=
  ["user_id"; "cuisines_liked"; "cuisines_disliked"; "dietary_restrictions";
   "price_range"; "liked_place_ids"; "disliked_place_ids"].

Definition call_save_preference (inputs : dict) (w : World) : result value * World :=
  let args :=
    do _ <~ check_keywords "save_preference" save_preference_params ["user_id"] inputs;
    do user_id <~ required_arg as_str inputs "user_id";
    do cuisines_liked <~ optional_arg as_str_list inputs "cuisines_liked";
    do cuisines_disliked <~ optional_arg as_str_list inputs "cuisines_disliked";
    do dietary_restrictions <~ optional_arg as_str_list inputs "dietary_restrictions";
    do price_range <~ optional_arg as_str inputs "price_range";
    do liked_place_ids <~ optional_arg as_str_list inputs "liked_place_ids";
    do disliked_place_ids <~ optional_arg as_str_list inputs "disliked_place_ids";
    Ok (user_id, cuisines_liked, cuisines_disliked, dietary_restrictions,
        price_range, liked_place_ids, disliked_place_ids) in
  match args with
  | Ok (user_id, cl, cd, dr, pr, lp, dp) =>
      let '(r, d) := prefs.save_preference (db w) user_id cl cd dr pr lp dp in
      (Ok r, with_db w d)
  | Raise e => (Raise e, w)
  end.

Definition call_get_preferences (inputs : dict) (w : World) : result value * World :=
  let args :=
    do _ <~ check_keywords "get_preferences" ["user_id"] ["user_id"] inputs;
    required_arg as_str inputs "user_id" in
  match args with
  | Ok user_id => (Ok (prefs.get_preferences (db w) user_id), w)
  | Raise e => (Raise e, w)
  end.

Definition _TOOL_DISPATCH : list (string * (dict -> World -> result value * World)) :=
  [("search_restaurants", call_search_restaurants);
   ("get_details", call_get_details);
   ("save_preference", call_save_preference);
   ("get_preferences", call_get_preferences)].

(** [ALL_TOOLS] (agent.py, line 54). *)
Definition ALL_TOOLS : list schema.Tool := places.TOOLS ++ prefs.TOOLS.

(** The argument that a request carries for a parameter, if any. *)
Definition argument {A : Type} (decode : value -> option A) (inputs : dict)
    (param : string) : option A :=
  match dict_get inputs param with
  | Some v => decode v
  | None => None
  end.

(** What no call of a registered tool undoes: the environment, a places
    client once it is cached, the rows of [users], the one-row-per-user
    shape of the tables and every element of a recorded list. *)
Definition keeps (a b : World) : Prop :=
  env b = env a
  /\ (forall c, places_client a = Some c -> places_client b = Some c)
  /\ (forall uid, store.get_User (db a) uid <> None -> store.get_User (db b) uid <> None)
  /\ (store.one_row_per_user (db a) -> store.one_row_per_user (db b))
  /\ (forall uid field x,
        In field [store.cuisines_liked; store.cuisines_disliked; store.dietary_restrictions;
                  store.liked_place_ids; store.disliked_place_ids] ->
        x ∈ prefs.fetched (db a) uid field -> x ∈ prefs.fetched (db b) uid field).

(** The turns that tool cycles append to the transcript: an assistant turn
    with at least one tool request, then a user turn whose result blocks
    answer the requests one for one, by id and in order. *)
Fixpoint paired (turns : list Message) : Prop :=
  match turns with
  | [] => True
  | a :: u :: rest =>
      role a = "assistant" /\ role u = "user"
      /\ requests_of a <> []
      /\ map tool_use_id (results_of u) = map tu_id (requests_of a)
      /\ paired rest
  | _ => False
  end.

(** ** The client of the module

    [os.getenv("ANTHROPIC_API_KEY")] and the constructor
    [anthropic.Anthropic(api_key=...)]; [_get_client()] (agent.py, lines
    47-51) threads the module global [_client]. *)
Record Env : Type := {
  ANTHROPIC_API_KEY : option string;
  anthropic_Anthropic : option string -> result Client;
}.

Definition _get_client (e : Env) (_client : option Client) : result Client * option Client :=
  match _client with
  | Some c => (Ok c, _client)
  | None =>
      match anthropic_Anthropic e (ANTHROPIC_API_KEY e) with
      | Ok c => (Ok c, Some c)
      | Raise exc => (Raise exc, None)
      end
  end.

(** [run] as the module exposes it (agent.py, lines 71-138), from its first
    statement [client = _get_client()]: the outcome, the state of the tools
    and the module global afterwards. *)
Definition run_global {W : Type} (registry : list (string * (dict -> W -> result value * W)))
    (e : Env) (_client : option Client) (fuel : nat) (w : W)
    (user_id message location : string) : (Outcome * W) * option Client :=
  match _get_client e _client with
  | (Ok client, g) => (run registry client fuel w user_id message location, g)
  | (Raise exc, g) => ((Raised exc, w), g)
  end.

(** The parameters of the four registered callables and, among them, the
    required ones (places.py, lines 39 and 70; prefs.py, lines 14-22 and
    60). *)
Definition signatures : list (string * (list string * list string)) :=
  [("search_restaurants", (["query"; "location"; "radius"], ["query"; "location"]));
   ("get_details", (["place_id"], ["place_id"]));
   ("save_preference", (save_preference_params, ["user_id"]));
   ("get_preferences", (["user_id"], ["user_id"]))].

End agent.

(* ===================================================================== *)
(** * [server.py]: the [/run] endpoint *)
(* ===================================================================== *)

Module server.

Record RunRequest : Type := { user_id : string; message : string; location : string }.

(** What the caller of the endpoint receives: the body of a [RunResponse],
    or the [HTTPException] raised in its place. *)
Inductive Reply : Type :=
| RunResponse (response : string) (tool_calls : list agent.LogEntry)
| HTTPException (status_code : Z) (detail : string).

(** [run] (server.py, lines 37-47); no reply while the loop is still
    running. *)
Definition run {W : Type} (registry : list (string * (dict -> W -> result value * W)))
    (client : agent.Client) (fuel : nat) (w : W) (req : RunRequest) : option Reply * W :=
  match agent.run registry client fuel w (user_id req) (message req) (location req) with
  | (agent.Returned result, w') =>
      (Some (RunResponse (agent.response result) (agent.tool_calls result)), w')
  | (agent.Raised exc, w') => (Some (HTTPException 500 (str_exc exc)), w')
  | (agent.OutOfFuel, w') => (None, w')
  end.

End server.

(* ===================================================================== *)
(** * Scenarios used below *)
(* ===================================================================== *)

Module scenario.
Import agent.

Definition no_key : places.Env :=
  {| places.GOOGLE_PLACES_API_KEY := None;
     places.googlemaps_Client := fun _ => Raise (Exc "ValueError" "Invalid API key provided.") |}.

(** A fresh database, no API key, no places client yet. *)
Definition w0 : World :=
  {| db := store.empty_db; env := no_key; places_client := None |}.

Definition float (neg : bool) (int : N) (frac : uint) : value :=
  VFloat {| d_neg := neg; d_int := int; d_frac := Some frac; d_exp := None |}.

(** The mocks of the package's tests. *)
Definition MOCK_GEOCODE : list value :=
  [VDict [("geometry",
           VDict [("location",
                   VDict [("lat", float false 37 (D7 (D7 (D4 (D9 Nil)))));
                          ("lng", float true 122 (D4 (D1 (D9 (D4 Nil)))))])])]].

Definition MOCK_PLACES_RESULT : dict :=
  [("results",
    VList
      [VDict [("place_id", VStr "ChIJtest1");
              ("name", VStr "Ramen House");
              ("formatted_address", VStr "123 Main St, San Francisco, CA");
              ("rating", float false 4 (D5 Nil));
              ("price_level", VInt 2);
              ("types", VList [VStr "restaurant"; VStr "food"]);
              ("geometry",
               VDict [("location",
                       VDict [("lat", float false 37 (D7 (D7 Nil)));
                              ("lng", float true 122 (D4 (D1 Nil)))])])];
       VDict [("place_id", VStr "ChIJtest2");
              ("name", VStr "Spicy Noodles");
              ("formatted_address", VStr "456 Market St, San Francisco, CA");
              ("rating", float false 4 (D2 Nil));
              ("price_level", VInt 1);
              ("types", VList [VStr "restaurant"; VStr "food"]);
              ("geometry",
               VDict [("location",
                       VDict [("lat", float false 37 (D7 (D8 Nil)));
                              ("lng", float true 122 (D4 (D2 Nil)))])])]])].

Definition mock_places : places.Client :=
  {| places.geocode := fun _ => Ok MOCK_GEOCODE;
     places.places_search := fun _ _ _ _ => Ok MOCK_PLACES_RESULT;
     places.place := fun _ _ =>
       Ok [("result",
            VDict [("name", VStr "Ramen House");
                   ("formatted_address", VStr "123 Main St");
                   ("rating", float false 4 (D5 Nil))])] |}.

(** A provider that knows no place at all, and one that finds twelve. *)
Definition nowhere : places.Client :=
  {| places.geocode := fun _ => Ok [];
     places.places_search := fun _ _ _ _ => Ok MOCK_PLACES_RESULT;
     places.place := fun _ _ => Ok [] |}.

Definition numbered (n : nat) : value :=
  VDict [("place_id", VStr "ChIJ"); ("price_level", VInt (Z.of_nat n))].

Definition crowded : places.Client :=
  {| places.geocode := fun _ => Ok MOCK_GEOCODE;
     places.places_search := fun _ _ _ _ => Ok [("results", VList (map numbered (seq 0 12)))];
     places.place := fun _ _ => Ok [] |}.

(** The tests install the mocked client in the module global. *)
Definition w_mock : World :=
  {| db := store.empty_db; env := no_key; places_client := Some mock_places |}.

(** A client that plays a fixed script: the n-th call (counted by the
    length of the transcript, which grows by two per cycle) gets the n-th
    answer, and a call past the script fails. *)
Definition scripted (script : list (result Response)) : Client :=
  {| messages_create := fun msgs =>
       nth (Nat.div2 (length msgs)) script
         (Raise (Exc "APIConnectionError" "Connection error.")) |}.

Definition final (text : string) : Response :=
  {| stop_reason := "end_turn"; response_content := [TextBlock text] |}.

Definition asks (content : list Block) : Response :=
  {| stop_reason := "tool_use"; response_content := content |}.

Definition prefs_request : ToolUse :=
  {| tu_id := "toolu_1"; tu_name := "get_preferences";
     tu_input := [("user_id", VStr "u1")] |}.

Definition save_request : ToolUse :=
  {| tu_id := "toolu_2"; tu_name := "save_preference";
     tu_input := [("user_id", VStr "u1"); ("cuisines_liked", VList [VStr "Thai"])] |}.

Definition search_request : ToolUse :=
  {| tu_id := "toolu_3"; tu_name := "search_restaurants";
     tu_input := [("query", VStr "ramen"); ("location", VStr "San Francisco, CA")] |}.

Definition booking_request : ToolUse :=
  {| tu_id := "toolu_4"; tu_name := "book_table";
     tu_input := [("place_id", VStr "ChIJtest1")] |}.

Definition ask_prefs : Block := block_of prefs_request.
Definition ask_save : Block := block_of save_request.
Definition ask_search : Block := block_of search_request.
Definition ask_booking : Block := block_of booking_request.

Definition no_api_key : exn :=
  Exc "RuntimeError" "GOOGLE_PLACES_API_KEY environment variable is not set".

(** An environment with an API key, whose constructor hands out the
    mocked client. *)
Definition with_key : places.Env :=
  {| places.GOOGLE_PLACES_API_KEY := Some "AIzaTestKey";
     places.googlemaps_Client := fun _ => Ok mock_places |}.

Definition empty_key : places.Env :=
  {| places.GOOGLE_PLACES_API_KEY := Some "";
     places.googlemaps_Client := fun _ => Ok mock_places |}.

Definition anthropic_env (c : Client) : Env :=
  {| ANTHROPIC_API_KEY := Some "sk-ant-test";
     anthropic_Anthropic := fun _ => Ok c |}.

Definition anthropic_down : Env :=
  {| ANTHROPIC_API_KEY := None;
     anthropic_Anthropic := fun _ => Raise (Exc "AnthropicError" "no API key") |}.

Definition request : server.RunRequest :=
  {| server.user_id := "u1"; server.message := "Find me ramen";
     server.location := "San Francisco, CA" |}.

Definition start (w : World) : State :=
  initial w "u1" "Find me ramen" "San Francisco, CA".

End scenario.
(* ===================================================================== *)
(** * Strings *)
(* ===================================================================== *)

Lemma app_cons (c : ascii) (s t : string) : String c s +:+ t = String c (s +:+ t).
Proof. reflexivity. Qed.

Lemma app_empty_l (t : string) : "" +:+ t = t.
Proof. reflexivity. Qed.

Lemma app_empty_r (s : string) : s +:+ "" = s.
Proof. induction s as [|c s IH]; [reflexivity|]. rewrite app_cons, IH. reflexivity. Qed.

Lemma app_assoc_str (s t u : string) : (s +:+ t) +:+ u = s +:+ (t +:+ u).
Proof.
  induction s as [|c s IH]; [reflexivity|].
  rewrite !app_cons, IH. reflexivity.
Qed.

Lemma length_app_str (s t : string) :
  String.length (s +:+ t) = String.length s + String.length t.
Proof.
  induction s as [|c s IH]; [reflexivity|].
  rewrite app_cons. simpl. rewrite IH. reflexivity.
Qed.

(* ===================================================================== *)
(** * [json.loads] undoes [json.dumps] *)
(* ===================================================================== *)

Module json_facts.
Import json.

(** ** Strings *)

Lemma scanstring_escape_char (c : ascii) (tail : string) :
  scanstring (escape_char c +:+ tail) =
  match scanstring tail with
  | Some (str, r) => Some (String c str, r)
  | None => None
  end.
Proof.
  destruct c as [[] [] [] [] [] [] [] []]; reflexivity.
Qed.

Lemma scanstring_escape_string (s rest : string) :
  scanstring (escape_string s +:+ String dquote rest) = Some (s, rest).
Proof.
  induction s as [|c s IH].
  - reflexivity.
  - simpl escape_string. rewrite app_assoc_str, scanstring_escape_char, IH.
    reflexivity.
Qed.

Lemma scanstring_encode_string (s rest : string) :
  exists body, encode_string s +:+ rest = String dquote body
               /\ scanstring body = Some (s, rest).
Proof.
  exists (escape_string s +:+ String dquote rest). split.
  - unfold encode_string. rewrite app_cons, app_assoc_str. reflexivity.
  - apply scanstring_escape_string.
Qed.

(** ** Numbers *)

Lemma number_char_false (c : ascii) :
  number_char c = false ->
  digit_cons c = None /\ Ascii.eqb c "." = false
  /\ Ascii.eqb c "e" = false /\ Ascii.eqb c "E" = false.
Proof.
  unfold number_char. destruct (digit_cons c); [discriminate|].
  intros H. apply orb_false_iff in H as [H HE]. apply orb_false_iff in H as [Hp He].
  auto.
Qed.

Lemma ends_number_no_digit (rest : string) : ends_number rest -> no_digit_head rest.
Proof.
  destruct rest as [|c r]; [trivial|]. simpl. intros H.
  apply number_char_false in H. tauto.
Qed.

Lemma digit_not_minus (c : ascii) (D : uint -> uint) :
  digit_cons c = Some D -> Ascii.eqb c "-" = false.
Proof.
  destruct c as [[] [] [] [] [] [] [] []]; intros H; try discriminate H; reflexivity.
Qed.

Lemma scan_digits_string_of_uint (u : uint) (rest : string) :
  no_digit_head rest ->
  scan_digits (NilEmpty.string_of_uint u +:+ rest) = (u, rest).
Proof.
  intros Hrest. induction u as [|u IH|u IH|u IH|u IH|u IH|u IH|u IH|u IH|u IH|u IH];
    simpl NilEmpty.string_of_uint; rewrite ?app_cons; simpl scan_digits;
    rewrite ?IH; try reflexivity.
  rewrite app_empty_l. destruct rest as [|c r]; [reflexivity|].
  simpl in Hrest. simpl. rewrite Hrest. reflexivity.
Qed.

Lemma unorm_fixed_leading (u : uint) :
  unorm u = u -> u <> zero -> leading_nonzero u.
Proof.
  intros Hn Hz. destruct u as [|u| | | | | | | | |]; simpl; try exact I.
  - discriminate Hn.
  - rewrite unorm_D0 in Hn.
    destruct (uint_eq_dec u Nil) as [->|Hu]; [apply Hz; reflexivity|].
    pose proof (nb_digits_unorm u Hu) as Hle.
    rewrite Hn in Hle. simpl in Hle. lia.
Qed.

Lemma to_uint_leading (p : positive) : leading_nonzero (Pos.to_uint p).
Proof.
  apply unorm_fixed_leading.
  - rewrite <- (DecimalPos.Unsigned.to_of (Pos.to_uint p)).
    rewrite DecimalPos.Unsigned.of_to. reflexivity.
  - apply DecimalPos.Unsigned.to_uint_nonzero.
Qed.

Lemma scan_nat_to_uint (p : positive) (rest : string) :
  no_digit_head rest ->
  scan_nat (NilEmpty.string_of_uint (Pos.to_uint p) +:+ rest) = Some (Npos p, rest).
Proof.
  intros Hrest.
  pose proof (to_uint_leading p) as Hlead.
  pose proof (scan_digits_string_of_uint (Pos.to_uint p) rest Hrest) as Hscan.
  pose proof (DecimalPos.Unsigned.of_to p) as Hof.
  destruct (Pos.to_uint p) as [|u|u|u|u|u|u|u|u|u|u]; try contradiction;
    simpl NilEmpty.string_of_uint in *; rewrite app_cons in *;
    unfold scan_nat; simpl Ascii.eqb; cbv iota; simpl digit_cons; cbv iota;
    rewrite Hscan; unfold N.of_uint; rewrite Hof; reflexivity.
Qed.

(** The digits of a positive number, as [repr] prints them. *)
Lemma string_of_pos (p : positive) :
  NilZero.string_of_uint (Pos.to_uint p) = NilEmpty.string_of_uint (Pos.to_uint p)
  /\ exists c s D, NilEmpty.string_of_uint (Pos.to_uint p) = String c s
                   /\ digit_cons c = Some D.
Proof.
  pose proof (to_uint_leading p) as Hlead. unfold NilZero.string_of_uint.
  destruct (Pos.to_uint p) as [|u|u|u|u|u|u|u|u|u|u]; try contradiction;
    (split; [reflexivity|]); simpl; eexists _, _, _; split; reflexivity.
Qed.

Lemma scan_nat_string_of_N (n : N) (rest : string) :
  no_digit_head rest -> scan_nat (string_of_N n +:+ rest) = Some (n, rest).
Proof.
  intros Hrest. unfold string_of_N. destruct n as [|p]; [reflexivity|].
  simpl N.to_uint. destruct (string_of_pos p) as [-> _].
  apply scan_nat_to_uint, Hrest.
Qed.

Lemma string_of_N_head (n : N) :
  exists c s D, string_of_N n = String c s /\ digit_cons c = Some D.
Proof.
  unfold string_of_N. destruct n as [|p].
  - eexists _, _, _. split; reflexivity.
  - simpl N.to_uint. destruct (string_of_pos p) as [-> H]. exact H.
Qed.

Lemma string_of_Z_head (z : Z) :
  exists c s, string_of_Z z = String c s /\ digit_or_minus c.
Proof.
  unfold string_of_Z. destruct z as [|p|p]; simpl.
  - exists "0"%char, "". split; [reflexivity|]. right. eexists. reflexivity.
  - destruct (string_of_pos p) as [-> (c & s & D & -> & HD)].
    exists c, s. split; [reflexivity|]. right. eauto.
  - eexists _, _. split; [reflexivity|]. left. reflexivity.
Qed.

Lemma string_of_decimal_head (x : decimal) :
  exists c s, string_of_decimal x = String c s /\ digit_or_minus c.
Proof.
  unfold string_of_decimal. destruct (d_neg x); simpl sign_str.
  - eexists _, _. split; [reflexivity|]. left. reflexivity.
  - rewrite app_empty_l. destruct (string_of_N_head (d_int x)) as (c & s & D & -> & HD).
    eexists _, _. split; [apply app_cons|]. right. eauto.
Qed.

Lemma scan_frac_none (rest : string) : ends_number rest -> scan_frac rest = (None, rest).
Proof.
  destruct rest as [|c r]; [reflexivity|]. simpl. intros H.
  apply number_char_false in H as (_ & -> & _). reflexivity.
Qed.

Lemma scan_exp_none (rest : string) : ends_number rest -> scan_exp rest = (None, rest).
Proof.
  destruct rest as [|c r]; [reflexivity|]. simpl. intros H.
  apply number_char_false in H as (_ & _ & -> & ->). reflexivity.
Qed.

Lemma scan_groups_plain (neg : bool) (n : N) (rest : string) :
  ends_number rest ->
  scan_groups neg n rest = (number_value neg n None None, rest).
Proof.
  intros H. unfold scan_groups. rewrite (scan_frac_none rest H), (scan_exp_none rest H).
  reflexivity.
Qed.

Lemma scan_exp_str (exp : option (bool * uint)) (rest : string) :
  match exp with
  | Some (_, Nil) => False
  | _ => True
  end ->
  ends_number rest ->
  scan_exp (exp_str exp +:+ rest) = (exp, rest).
Proof.
  intros Hwf Hrest. destruct exp as [[neg u]|]; [|apply scan_exp_none, Hrest].
  pose proof (scan_digits_string_of_uint u rest (ends_number_no_digit rest Hrest)) as Hd.
  unfold exp_str. rewrite !app_assoc_str.
  change ("e" +:+ ?t) with (String "e" t).
  unfold scan_exp. change (Ascii.eqb "e" "e" || Ascii.eqb "e" "E") with true. cbv iota.
  destruct neg; simpl sign_str;
    [change ("-" +:+ ?t) with (String "-" t)|change ("+" +:+ ?t) with (String "+" t)];
    simpl scan_sign; cbv beta iota zeta; rewrite Hd; destruct u; try contradiction;
    reflexivity.
Qed.

Lemma exp_str_no_digit (exp : option (bool * uint)) (rest : string) :
  ends_number rest -> no_digit_head (exp_str exp +:+ rest).
Proof.
  intros Hrest. destruct exp as [[neg u]|].
  - reflexivity.
  - apply ends_number_no_digit, Hrest.
Qed.

Lemma scan_frac_str (frac : option uint) (exp : option (bool * uint)) (rest : string) :
  match frac with
  | Some Nil => False
  | _ => True
  end ->
  ends_number rest ->
  scan_frac (frac_str frac +:+ exp_str exp +:+ rest) = (frac, exp_str exp +:+ rest).
Proof.
  intros Hwf Hrest. destruct frac as [u|].
  - pose proof (scan_digits_string_of_uint u _ (exp_str_no_digit exp rest Hrest)) as Hd.
    unfold frac_str. rewrite !app_assoc_str.
    change ("." +:+ ?t) with (String "." t).
    unfold scan_frac. change (Ascii.eqb "." ".") with true. cbv iota.
    rewrite Hd. destruct u; try contradiction; reflexivity.
  - simpl frac_str. rewrite app_empty_l. destruct exp as [[neg u]|].
    + reflexivity.
    + apply scan_frac_none, Hrest.
Qed.

Lemma scan_groups_str (neg : bool) (n : N) (frac : option uint)
    (exp : option (bool * uint)) (rest : string) :
  match frac with
  | Some Nil => False
  | _ => True
  end ->
  match exp with
  | Some (_, Nil) => False
  | _ => True
  end ->
  ends_number rest ->
  scan_groups neg n (frac_str frac +:+ exp_str exp +:+ rest)
  = (number_value neg n frac exp, rest).
Proof.
  intros Hf He Hrest. unfold scan_groups.
  rewrite (scan_frac_str frac exp rest Hf Hrest), (scan_exp_str exp rest He Hrest).
  reflexivity.
Qed.

Lemma groups_no_digit (frac : option uint) (exp : option (bool * uint)) (rest : string) :
  ends_number rest -> no_digit_head (frac_str frac +:+ exp_str exp +:+ rest).
Proof.
  intros Hrest. destruct frac as [u|].
  - reflexivity.
  - simpl frac_str. rewrite app_empty_l. apply exp_str_no_digit, Hrest.
Qed.

Lemma scan_number_unsigned (n : N) (tail : string) :
  no_digit_head tail ->
  scan_number (string_of_N n +:+ tail) = Some (scan_groups false n tail).
Proof.
  intros Htail. pose proof (scan_nat_string_of_N n tail Htail) as Hn.
  destruct (string_of_N_head n) as (c & s & D & Hs & HD).
  unfold scan_number. rewrite Hs, app_cons, (digit_not_minus c D HD), <- app_cons, <- Hs, Hn.
  reflexivity.
Qed.

Lemma scan_number_negative (n : N) (tail : string) :
  no_digit_head tail ->
  scan_number (String "-" (string_of_N n +:+ tail)) = Some (scan_groups true n tail).
Proof.
  intros Htail. pose proof (scan_nat_string_of_N n tail Htail) as Hn.
  unfold scan_number. change (Ascii.eqb "-" "-") with true. cbv iota. rewrite Hn.
  reflexivity.
Qed.

Lemma string_of_Z_N (z : Z) :
  string_of_Z z = sign_str (z <? 0)%Z "" +:+ string_of_N (Z.abs_N z).
Proof. destruct z; reflexivity. Qed.

Lemma scan_number_string_of_Z (z : Z) (rest : string) :
  ends_number rest ->
  scan_number (string_of_Z z +:+ rest) = Some (VInt z, rest).
Proof.
  intros Hrest. pose proof (ends_number_no_digit rest Hrest) as Hnd.
  rewrite string_of_Z_N. destruct z as [|p|p]; simpl sign_str; simpl Z.abs_N.
  - rewrite app_empty_l, scan_number_unsigned, scan_groups_plain by assumption. reflexivity.
  - rewrite app_empty_l, scan_number_unsigned, scan_groups_plain by assumption. reflexivity.
  - rewrite app_assoc_str. change ("-" +:+ ?t) with (String "-" t).
    rewrite scan_number_negative, scan_groups_plain by assumption. reflexivity.
Qed.

Lemma scan_number_string_of_decimal (x : decimal) (rest : string) :
  wf_decimal x = true ->
  ends_number rest ->
  scan_number (string_of_decimal x +:+ rest) = Some (VFloat x, rest).
Proof.
  intros Hwf Hrest. destruct x as [neg n frac exp].
  unfold wf_decimal in Hwf. simpl in Hwf.
  assert (Hf : match frac with Some Nil => False | _ => True end).
  { destruct frac as [[]|]; try exact I. destruct exp as [[? []]|]; discriminate Hwf. }
  assert (He : match exp with Some (_, Nil) => False | _ => True end).
  { destruct exp as [[? []]|]; try exact I. destruct frac as [[]|]; discriminate Hwf. }
  assert (Hv : number_value neg n frac exp
               = VFloat {| d_neg := neg; d_int := n; d_frac := frac; d_exp := exp |}).
  { destruct frac, exp; try reflexivity. discriminate Hwf. }
  pose proof (groups_no_digit frac exp rest Hrest) as Hnd.
  unfold string_of_decimal. simpl d_neg. simpl d_int. simpl d_frac. simpl d_exp.
  rewrite !app_assoc_str. destruct neg; simpl sign_str.
  - change ("-" +:+ ?t) with (String "-" t).
    rewrite scan_number_negative, scan_groups_str, Hv by assumption. reflexivity.
  - rewrite app_empty_l, scan_number_unsigned, scan_groups_str, Hv by assumption.
    reflexivity.
Qed.

(** ** Unfolding the encoder and the decoder *)

Lemma dumps_VList (l : list value) :
  dumps (VList l) = do items <~ dumps_items l; Ok ("[" +:+ join ", " items +:+ "]").
Proof. reflexivity. Qed.

Lemma dumps_VDict (d : list (string * value)) :
  dumps (VDict d) = do members <~ dumps_members d; Ok ("{" +:+ join ", " members +:+ "}").
Proof. reflexivity. Qed.

Lemma wf_VDict (d : list (string * value)) :
  wf_value (VDict d) = bool_decide (NoDup (map fst d)) && wf_members d.
Proof. reflexivity. Qed.

Lemma join_one (sep s : string) : join sep [s] = s.
Proof. reflexivity. Qed.

Lemma join_more (sep s t : string) (ss : list string) :
  join sep (s :: t :: ss) = s +:+ sep +:+ join sep (t :: ss).
Proof. reflexivity. Qed.

Lemma scan_once_string (fuel : nat) (body : string) :
  scan_once (S fuel) (String dquote body) =
  match scanstring body with
  | Some (str, r) => Some (VStr str, r)
  | None => None
  end.
Proof. reflexivity. Qed.

Lemma scan_once_list (fuel : nat) (body : string) :
  scan_once (S fuel) (String "[" body) =
  match skip_ws body with
  | EmptyString => None
  | String c1 s2 =>
      if Ascii.eqb c1 "]" then Some (VList [], s2)
      else
        match parse_items fuel (skip_ws body) with
        | Some (vs, r) => Some (VList vs, r)
        | None => None
        end
  end.
Proof. simpl. destruct (skip_ws body); reflexivity. Qed.

Lemma scan_once_dict (fuel : nat) (body : string) :
  scan_once (S fuel) (String "{" body) =
  match skip_ws body with
  | EmptyString => None
  | String c1 s2 =>
      if Ascii.eqb c1 "}" then Some (VDict [], s2)
      else
        match parse_members fuel (skip_ws body) with
        | Some (pairs, r) => Some (VDict (dict_of_pairs pairs), r)
        | None => None
        end
  end.
Proof. simpl. destruct (skip_ws body); reflexivity. Qed.

Lemma parse_items_S (fuel : nat) (s : string) :
  parse_items (S fuel) s =
  match scan_once fuel s with
  | None => None
  | Some (v, r) =>
      match skip_ws r with
      | EmptyString => None
      | String c r1 =>
          if Ascii.eqb c "]" then Some ([v], r1)
          else if Ascii.eqb c "," then
            match parse_items fuel (skip_ws r1) with
            | Some (vs, r2) => Some (v :: vs, r2)
            | None => None
            end
          else None
      end
  end.
Proof. reflexivity. Qed.

Lemma parse_members_S (fuel : nat) (body : string) :
  parse_members (S fuel) (String dquote body) =
  match scanstring body with
  | None => None
  | Some (key, r) =>
      match skip_ws r with
      | EmptyString => None
      | String c r1 =>
          if Ascii.eqb c ":" then
            match scan_once fuel (skip_ws r1) with
            | None => None
            | Some (v, r2) =>
                match skip_ws r2 with
                | EmptyString => None
                | String c' r3 =>
                    if Ascii.eqb c' "}" then Some ([(key, v)], r3)
                    else if Ascii.eqb c' "," then
                      match parse_members fuel (skip_ws r3) with
                      | Some (ps, r4) => Some ((key, v) :: ps, r4)
                      | None => None
                      end
                    else None
                end
            end
          else None
      end
  end.
Proof. reflexivity. Qed.

Lemma digit_starts_value (c : ascii) (D : uint -> uint) :
  digit_cons c = Some D -> starts_value c.
Proof.
  destruct c as [[] [] [] [] [] [] [] []]; intros H; try discriminate H;
    repeat split; reflexivity.
Qed.

Lemma digit_or_minus_starts_value (c : ascii) : digit_or_minus c -> starts_value c.
Proof.
  intros [->|[D HD]]; [repeat split; reflexivity|].
  eapply digit_starts_value, HD.
Qed.

Lemma scan_once_number (fuel : nat) (c : ascii) (s : string) :
  digit_or_minus c ->
  scan_once (S fuel) (String c s) = scan_number (String c s).
Proof.
  intros [->|[D HD]]; [reflexivity|].
  destruct c as [[] [] [] [] [] [] [] []]; try discriminate HD; reflexivity.
Qed.

Lemma skip_ws_starts_value (c : ascii) (s : string) :
  starts_value c -> skip_ws (String c s) = String c s.
Proof. intros (Hws & _). simpl. rewrite Hws. reflexivity. Qed.

(** ** The first character of an encoding *)

Lemma dumps_head (v : value) (s : string) :
  dumps v = Ok s -> exists c s', s = String c s' /\ starts_value c.
Proof.
  destruct v as [|[]|z|x|str|l|d|t]; intros H.
  - inversion H. eexists _, _. split; [reflexivity|]. repeat split; reflexivity.
  - inversion H. eexists _, _. split; [reflexivity|]. repeat split; reflexivity.
  - inversion H. eexists _, _. split; [reflexivity|]. repeat split; reflexivity.
  - inversion H. destruct (string_of_Z_head z) as (c & s' & -> & Hc).
    eexists _, _. split; [reflexivity|]. apply digit_or_minus_starts_value, Hc.
  - inversion H. destruct (string_of_decimal_head x) as (c & s' & -> & Hc).
    eexists _, _. split; [reflexivity|]. apply digit_or_minus_starts_value, Hc.
  - inversion H. eexists _, _. split; [reflexivity|]. repeat split; reflexivity.
  - rewrite dumps_VList in H. destruct (dumps_items l); inversion H.
    eexists _, _. split; [reflexivity|]. repeat split; reflexivity.
  - rewrite dumps_VDict in H. destruct (dumps_members d); inversion H.
    eexists _, _. split; [reflexivity|]. repeat split; reflexivity.
  - discriminate H.
Qed.

Lemma join_items_head (x : value) (l : list value) (ss : list string) :
  dumps_items (x :: l) = Ok ss ->
  exists c t, join ", " ss = String c t /\ starts_value c.
Proof.
  simpl. destruct (dumps x) as [s|] eqn:Hx; [|discriminate].
  destruct (dumps_items l) as [ss'|]; [|discriminate].
  intros H. inversion H. subst ss.
  destruct (dumps_head _ _ Hx) as (c & s' & -> & Hc).
  destruct ss' as [|s2 ss'].
  - rewrite join_one. eauto.
  - rewrite join_more, app_cons. eauto.
Qed.

Lemma join_members_head (kv : string * value) (d : list (string * value)) (ss : list string) :
  dumps_members (kv :: d) = Ok ss ->
  exists t, join ", " ss = String dquote t.
Proof.
  destruct kv as [k x]. simpl. destruct (dumps x) as [s|]; [|discriminate].
  destruct (dumps_members d) as [ss'|]; [|discriminate].
  intros H. inversion H. subst ss.
  destruct ss' as [|s2 ss'].
  - rewrite join_one. unfold encode_string. rewrite app_cons. eauto.
  - rewrite join_more. unfold encode_string. rewrite app_cons. eauto.
Qed.

(** ** Rebuilding a dict from its own pairs *)

Lemma dict_set_fresh {A : Type} (d : list (string * A)) (k : string) (v : A) :
  k ∉ map fst d -> dict_set d k v = d ++ [(k, v)].
Proof.
  induction d as [|[k' v'] d IH]; intros Hk; [reflexivity|].
  simpl in *. apply not_elem_of_cons in Hk as [Hne Hk].
  destruct (String.eqb_spec k' k) as [->|_]; [contradiction|].
  rewrite IH by assumption. reflexivity.
Qed.

Lemma dict_of_pairs_from {A : Type} (d acc : list (string * A)) :
  NoDup (map fst (acc ++ d)) ->
  fold_left (fun a kv => dict_set a (fst kv) (snd kv)) d acc = acc ++ d.
Proof.
  revert acc. induction d as [|[k v] d IH]; intros acc Hnd; simpl.
  - rewrite app_nil_r. reflexivity.
  - rewrite dict_set_fresh.
    + rewrite IH; rewrite <- app_assoc; [reflexivity|exact Hnd].
    + rewrite map_app in Hnd. apply NoDup_app in Hnd as (_ & Hdis & _).
      intros Hin. apply (Hdis k Hin). simpl. apply elem_of_cons. left. reflexivity.
Qed.

Lemma dict_of_pairs_nodup {A : Type} (d : list (string * A)) :
  NoDup (map fst d) -> dict_of_pairs d = d.
Proof. intros Hnd. unfold dict_of_pairs. rewrite dict_of_pairs_from; auto. Qed.

(** ** Reading back *)

Lemma parse_items_dumps (l : list value) :
  Forall reads_back l ->
  forall ss, forallb wf_value l = true -> dumps_items l = Ok ss -> l <> [] ->
  forall fuel rest, need_items l <= fuel ->
    parse_items fuel (join ", " ss +:+ String "]" rest) = Some (l, rest).
Proof.
  induction 1 as [|x l Hx Hl IH]; intros ss Hwf Hd Hne fuel rest Hfuel; [contradiction|].
  simpl in Hwf. apply andb_true_iff in Hwf as [Hwfx Hwfl].
  pose proof Hd as Hd0. simpl in Hd.
  destruct (dumps x) as [s|] eqn:Hdx; [|discriminate].
  destruct (dumps_items l) as [ss'|] eqn:Hdl; [|discriminate].
  simpl in Hd. inversion Hd. subst ss. clear Hd.
  unfold need_items in Hfuel. simpl in Hfuel. fold (need_items l) in Hfuel.
  destruct fuel as [|fuel]; [lia|].
  rewrite parse_items_S.
  destruct l as [|y l].
  - simpl in Hdl. inversion Hdl. subst ss'. rewrite join_one.
    rewrite (Hx s Hwfx Hdx fuel (String "]" rest)); [reflexivity|lia|reflexivity].
  - destruct (join_items_head y l ss' Hdl) as (c & t & Hj & Hc).
    destruct ss' as [|s2 ss']; [discriminate Hj|].
    rewrite join_more, !app_assoc_str.
    rewrite (Hx s Hwfx Hdx fuel); [|lia|reflexivity].
    change (", " +:+ join ", " (s2 :: ss') +:+ String "]" rest)
      with (String "," (String " " (join ", " (s2 :: ss') +:+ String "]" rest))).
    change (skip_ws (String "," ?r)) with (String "," r).
    cbv iota. change (Ascii.eqb "," "]") with false. change (Ascii.eqb "," ",") with true.
    cbv iota.
    change (skip_ws (String " " ?r)) with (skip_ws r).
    rewrite Hj, app_cons, (skip_ws_starts_value c _ Hc), <- app_cons, <- Hj.
    rewrite (IH (s2 :: ss') Hwfl eq_refl); [reflexivity|discriminate|lia].
Qed.

Lemma parse_members_dumps (d : list (string * value)) :
  Forall (fun kv => reads_back (snd kv)) d ->
  forall ss, wf_members d = true -> dumps_members d = Ok ss -> d <> [] ->
  forall fuel rest, need_members d <= fuel ->
    parse_members fuel (join ", " ss +:+ String "}" rest) = Some (d, rest).
Proof.
  induction 1 as [|[k x] d Hx Hd IH]; intros ss Hwf Hdump Hne fuel rest Hfuel;
    [contradiction|].
  simpl in Hwf, Hx. apply andb_true_iff in Hwf as [Hwfx Hwfd].
  simpl in Hdump.
  destruct (dumps x) as [s|] eqn:Hdx; [|discriminate].
  destruct (dumps_members d) as [ss'|] eqn:Hdd; [|discriminate].
  simpl in Hdump. inversion Hdump. subst ss. clear Hdump.
  unfold need_members in Hfuel. simpl in Hfuel. fold (need_members d) in Hfuel.
  destruct fuel as [|fuel]; [lia|].
  destruct (dumps_head _ _ Hdx) as (c & s' & Hs & Hc).
  assert (Hval : forall tail, ends_number tail ->
            scan_once fuel (skip_ws (String " " (s +:+ tail))) = Some (x, tail)).
  { intros tail Htail. change (skip_ws (String " " ?r)) with (skip_ws r).
    rewrite Hs, app_cons, (skip_ws_starts_value c _ Hc), <- app_cons, <- Hs.
    apply Hx; [assumption|assumption|lia|assumption]. }
  destruct d as [|kv d].
  - simpl in Hdd. inversion Hdd. subst ss'. rewrite join_one, !app_assoc_str.
    destruct (scanstring_encode_string k (": " +:+ s +:+ String "}" rest))
      as (body & -> & Hbody).
    rewrite parse_members_S, Hbody.
    change (": " +:+ s +:+ String "}" rest)
      with (String ":" (String " " (s +:+ String "}" rest))).
    change (skip_ws (String ":" ?r)) with (String ":" r).
    cbv iota. change (Ascii.eqb ":" ":") with true. cbv iota.
    rewrite Hval by reflexivity. reflexivity.
  - destruct (join_members_head kv d ss' Hdd) as (t & Hj).
    destruct ss' as [|s2 ss']; [discriminate Hj|].
    rewrite join_more, !app_assoc_str.
    destruct (scanstring_encode_string k
                (": " +:+ s +:+ ", " +:+ join ", " (s2 :: ss') +:+ String "}" rest))
      as (body & -> & Hbody).
    rewrite parse_members_S, Hbody.
    change (": " +:+ s +:+ ", " +:+ join ", " (s2 :: ss') +:+ String "}" rest)
      with (String ":" (String " "
              (s +:+ String "," (String " " (join ", " (s2 :: ss') +:+ String "}" rest))))).
    change (skip_ws (String ":" ?r)) with (String ":" r).
    cbv iota. change (Ascii.eqb ":" ":") with true. cbv iota.
    rewrite Hval by reflexivity.
    change (skip_ws (String "," ?r)) with (String "," r).
    cbv iota. change (Ascii.eqb "," "}") with false. change (Ascii.eqb "," ",") with true.
    cbv iota.
    change (skip_ws (String " " ?r)) with (skip_ws r).
    rewrite Hj, app_cons. change (skip_ws (String dquote ?r)) with (String dquote r).
    rewrite <- app_cons, <- Hj.
    rewrite (IH (s2 :: ss') Hwfd eq_refl); [reflexivity|discriminate|lia].
Qed.

Lemma dumps_reads_back (v : value) : reads_back v.
Proof.
  induction v as [|b|z|x|str|l IH|d IH|t] using value_ind;
    intros s Hwf Hd fuel rest Hfuel Hrest.
  - inversion Hd. destruct fuel; [simpl in Hfuel; lia|reflexivity].
  - destruct b; inversion Hd; (destruct fuel; [simpl in Hfuel; lia|reflexivity]).
  - inversion Hd. destruct fuel; [simpl in Hfuel; lia|].
    destruct (string_of_Z_head z) as (c & s' & Hs & Hc).
    rewrite Hs, app_cons, scan_once_number, <- app_cons, <- Hs by assumption.
    apply scan_number_string_of_Z, Hrest.
  - inversion Hd. destruct fuel; [simpl in Hfuel; lia|].
    destruct (string_of_decimal_head x) as (c & s' & Hs & Hc).
    rewrite Hs, app_cons, scan_once_number, <- app_cons, <- Hs by assumption.
    apply scan_number_string_of_decimal; assumption.
  - inversion Hd. destruct fuel; [simpl in Hfuel; lia|].
    destruct (scanstring_encode_string str rest) as (body & -> & Hbody).
    rewrite scan_once_string, Hbody. reflexivity.
  - rewrite dumps_VList in Hd.
    destruct (dumps_items l) as [ss|] eqn:Hdl; [|discriminate]. inversion Hd.
    change (need (VList l)) with (S (need_items l)) in Hfuel.
    destruct fuel as [|fuel]; [lia|].
    rewrite !app_assoc_str.
    change ("[" +:+ ?y) with (String "[" y). rewrite scan_once_list.
    change ("]" +:+ rest) with (String "]" rest).
    destruct l as [|x l].
    + inversion Hdl. reflexivity.
    + destruct (join_items_head x l ss Hdl) as (c & tl & Hj & Hc).
      rewrite Hj, app_cons, (skip_ws_starts_value c _ Hc).
      destruct Hc as (_ & -> & _).
      rewrite <- app_cons, <- Hj.
      rewrite (parse_items_dumps (x :: l) IH ss Hwf Hdl); [reflexivity|discriminate|lia].
  - rewrite dumps_VDict in Hd.
    destruct (dumps_members d) as [ss|] eqn:Hdd; [|discriminate]. inversion Hd.
    rewrite wf_VDict in Hwf. apply andb_true_iff in Hwf as [Hnd Hwfd].
    apply bool_decide_eq_true in Hnd.
    change (need (VDict d)) with (S (need_members d)) in Hfuel.
    destruct fuel as [|fuel]; [lia|].
    rewrite !app_assoc_str.
    change ("{" +:+ ?y) with (String "{" y). rewrite scan_once_dict.
    change ("}" +:+ rest) with (String "}" rest).
    destruct d as [|kv d].
    + inversion Hdd. reflexivity.
    + destruct (join_members_head kv d ss Hdd) as (tl & Hj).
      rewrite Hj, app_cons. change (skip_ws (String dquote ?r)) with (String dquote r).
      cbv iota. change (Ascii.eqb dquote "}") with false. cbv iota.
      rewrite <- app_cons, <- Hj.
      rewrite (parse_members_dumps (kv :: d) IH ss Hwfd Hdd); [|discriminate|lia].
      rewrite dict_of_pairs_nodup by assumption. reflexivity.
  - discriminate Hd.
Qed.

(** ** The text is long enough to pay for its own decoding *)

Lemma need_items_fits (l : list value) :
  Forall fits l ->
  forall ss, dumps_items l = Ok ss -> need_items l <= String.length (join ", " ss) + 1.
Proof.
  induction 1 as [|x l Hx Hl IH]; intros ss Hd.
  - change (need_items []) with 0. lia.
  - simpl in Hd.
    destruct (dumps x) as [s|] eqn:Hdx; [|discriminate].
    destruct (dumps_items l) as [ss'|] eqn:Hdl; [|discriminate].
    simpl in Hd. inversion Hd. subst ss.
    specialize (Hx s Hdx). specialize (IH ss' eq_refl).
    change (need_items (x :: l)) with (S (need x + need_items l)).
    destruct ss' as [|s2 ss'].
    + destruct l; [|simpl in Hdl; destruct (dumps v); [destruct (dumps_items l)|]; discriminate].
      rewrite join_one. change (need_items []) with 0. lia.
    + rewrite join_more, !length_app_str. change (String.length ", ") with 2. lia.
Qed.

Lemma need_members_fits (d : list (string * value)) :
  Forall (fun kv => fits (snd kv)) d ->
  forall ss, dumps_members d = Ok ss -> need_members d <= String.length (join ", " ss) + 1.
Proof.
  induction 1 as [|[k x] d Hx Hd IH]; intros ss Hdump.
  - change (need_members []) with 0. lia.
  - simpl in Hdump, Hx.
    destruct (dumps x) as [s|] eqn:Hdx; [|discriminate].
    destruct (dumps_members d) as [ss'|] eqn:Hdd; [|discriminate].
    simpl in Hdump. inversion Hdump. subst ss.
    specialize (Hx s Hdx). specialize (IH ss' eq_refl).
    change (need_members ((k, x) :: d)) with (S (need x + need_members d)).
    destruct ss' as [|s2 ss'].
    + destruct d as [|[k' x'] d];
        [|simpl in Hdd; destruct (dumps x'); [destruct (dumps_members d)|]; discriminate].
      rewrite join_one, !length_app_str. change (need_members []) with 0.
      change (String.length ": ") with 2. lia.
    + rewrite join_more, !length_app_str. change (String.length ", ") with 2. lia.
Qed.

Lemma dumps_fits (v : value) : fits v.
Proof.
  induction v as [|b|z|x|str|l IH|d IH|t] using value_ind; intros s Hd;
    try (destruct (dumps_head _ _ Hd) as (c & s' & -> & _); simpl; lia).
  - rewrite dumps_VList in Hd.
    destruct (dumps_items l) as [ss|] eqn:Hdl; [|discriminate]. inversion Hd.
    pose proof (need_items_fits l IH ss Hdl) as Hle.
    change (need (VList l)) with (S (need_items l)).
    rewrite !length_app_str. change (String.length "[") with 1.
    change (String.length "]") with 1. lia.
  - rewrite dumps_VDict in Hd.
    destruct (dumps_members d) as [ss|] eqn:Hdd; [|discriminate]. inversion Hd.
    pose proof (need_members_fits d IH ss Hdd) as Hle.
    change (need (VDict d)) with (S (need_members d)).
    rewrite !length_app_str. change (String.length "{") with 1.
    change (String.length "}") with 1. lia.
Qed.

(** [json.loads(json.dumps(v)) == v] for every value that [json.dumps]
    accepts. *)
Theorem loads_dumps (v : value) (s : string) :
  wf_value v = true -> dumps v = Ok s -> loads s = Some v.
Proof.
  intros Hwf Hd. unfold loads.
  destruct (dumps_head _ _ Hd) as (c & s' & Hs & Hc).
  assert (Hskip : skip_ws s = s).
  { rewrite Hs. apply skip_ws_starts_value, Hc. }
  rewrite Hskip. rewrite <- (app_empty_r s) at 2.
  rewrite (dumps_reads_back v s Hwf Hd (String.length s) "" (dumps_fits v s Hd) I).
  reflexivity.
Qed.

End json_facts.

(* ===================================================================== *)
(** * The loop: shared facts *)
(* ===================================================================== *)

Module agent_facts.
Import agent.

Lemma wf_error_dict (exc : exn) : json.wf_value (error_dict exc) = true.
Proof.
  unfold error_dict. rewrite json_facts.wf_VDict. apply andb_true_iff. split.
  - apply bool_decide_eq_true. simpl. apply NoDup_singleton.
  - reflexivity.
Qed.

(** The handler of [except Exception] cannot raise in its turn: the error
    payload always serializes, and reads back as [{"error": str(exc)}]. *)
Lemma error_content_ok (exc : exn) :
  exists out, error_content exc = Ok out /\ json.loads out = Some (error_dict exc).
Proof.
  unfold error_content.
  destruct (json.dumps (error_dict exc)) as [out|e] eqn:Hd.
  - exists out. split; [reflexivity|].
    apply json_facts.loads_dumps; [apply wf_error_dict|exact Hd].
  - discriminate Hd.
Qed.

Lemma is_empty_true {A : Type} (l : list A) : is_empty l = true <-> l = [].
Proof. destruct l; simpl; split; intros H; congruence. Qed.

(** The two comprehensions of the loop keep the blocks of their type, in
    the order of the response. *)
Lemma tool_use_blocks_filter (content : list Block) :
  map block_of (tool_use_blocks content)
  = List.filter (fun b => String.eqb (block_type b) "tool_use") content.
Proof.
  induction content as [|[t|i n inp|t] content IH]; simpl; rewrite ?IH; reflexivity.
Qed.

Lemma text_blocks_filter (content : list Block) :
  map TextBlock (text_blocks content)
  = List.filter (fun b => String.eqb (block_type b) "text") content.
Proof.
  induction content as [|[t|i n inp|t] content IH]; simpl; rewrite ?IH; reflexivity.
Qed.

(** The registry holds the four tools and nothing else. *)
Lemma registered_names (name : string) :
  dict_get _TOOL_DISPATCH name = None
  <-> ~ In name ["search_restaurants"; "get_details"; "save_preference"; "get_preferences"].
Proof.
  unfold _TOOL_DISPATCH. cbn [dict_get In].
  repeat match goal with
         | |- context [String.eqb ?a name] => destruct (String.eqb_spec a name)
         end; split; intros H; try discriminate H; try reflexivity; try tauto.
Qed.

Section Loop.
Context {W : Type}.
Variable registry : list (string * (dict -> W -> result value * W)).
Variable client : Client.

Local Abbreviation _dispatch_tool := (_dispatch_tool registry).
Local Abbreviation execute := (execute registry).
Local Abbreviation for_tool_uses := (for_tool_uses registry).
Local Abbreviation served := (served registry).
Local Abbreviation answers := (answers registry).
Local Abbreviation audited := (audited registry).
Local Abbreviation cycle := (cycle registry client).
Local Abbreviation loop := (loop registry client).
Local Abbreviation cycles := (cycles registry client).

Lemma execute_raised (tu : ToolUse) (w w1 : W) (exc : exn) :
  _dispatch_tool (tu_name tu) (tu_input tu) w = (Raise exc, w1) ->
  exists out, execute tu w = (Ok (out, true), w1)
              /\ json.loads out = Some (error_dict exc).
Proof.
  intros Hd. destruct (error_content_ok exc) as (out & Hout & Hload).
  exists out. unfold agent.execute. rewrite Hd, Hout. split; [reflexivity|exact Hload].
Qed.

Lemma execute_returned (tu : ToolUse) (w w1 : W) (v : value) :
  _dispatch_tool (tu_name tu) (tu_input tu) w = (Ok v, w1) ->
  (exists out, json.dumps v = Ok out /\ execute tu w = (Ok (out, false), w1))
  \/ (exists exc out, json.dumps v = Raise exc /\ execute tu w = (Ok (out, true), w1)
                      /\ json.loads out = Some (error_dict exc)).
Proof.
  intros Hd. unfold agent.execute. rewrite Hd.
  destruct (json.dumps v) as [out|exc] eqn:Hv.
  - left. exists out. split; reflexivity.
  - right. destruct (error_content_ok exc) as (out & Hout & Hload).
    exists exc, out. rewrite Hout. repeat split; assumption.
Qed.

(** No tool call makes the loop body raise. *)
Lemma execute_total (tu : ToolUse) (w : W) :
  exists out flag, execute tu w = (Ok (out, flag), snd (_dispatch_tool (tu_name tu) (tu_input tu) w))
                   /\ answers w tu out flag.
Proof.
  unfold agent.answers.
  destruct (_dispatch_tool (tu_name tu) (tu_input tu) w) as [[v|exc] w1] eqn:Hd; simpl.
  - destruct (execute_returned tu w w1 v Hd) as [(out & Hv & He)|(e & out & Hv & He & Hl)];
      rewrite Hv.
    + exists out, false. split; [exact He|]. split; [reflexivity|].
      split; [reflexivity|].
      intros Hwf. apply json_facts.loads_dumps; assumption.
    + exists out, true. split; [exact He|]. split; [reflexivity|exact Hl].
  - destruct (execute_raised tu w w1 exc Hd) as (out & He & Hl).
    exists out, true. split; [exact He|]. split; [reflexivity|exact Hl].
Qed.

Lemma served_total (w : W) (tus : list ToolUse) :
  exists entries results w', served w tus entries results w'.
Proof.
  revert w. induction tus as [|tu tus IH]; intros w.
  - exists [], [], w. constructor.
  - destruct (execute_total tu w) as (out & flag & He & _).
    destruct (IH (snd (agent._dispatch_tool registry (tu_name tu) (tu_input tu) w)))
      as (entries & results & w' & Hs).
    eexists _, _, w'. econstructor; eassumption.
Qed.

Lemma served_app (w w1 w2 : W) (a b : list ToolUse)
    (ea eb : list LogEntry) (ra rb : list ToolResult) :
  served w a ea ra w1 -> served w1 b eb rb w2 ->
  served w (a ++ b) (ea ++ eb) (ra ++ rb) w2.
Proof.
  induction 1 as [|w tu out flag wm tus entries results wn He Hs IH]; intros Hb.
  - exact Hb.
  - simpl. econstructor; [exact He|]. apply IH, Hb.
Qed.

(** The [for] loop appends what [served] lists, and never raises. *)
Lemma for_tool_uses_served (w w' : W) (tus : list ToolUse)
    (entries : list LogEntry) (results : list ToolResult) :
  served w tus entries results w' ->
  forall log acc,
    for_tool_uses tus log acc w = (Ok (log ++ entries, acc ++ results), w').
Proof.
  induction 1 as [|w tu out flag wm tus entries results wn He Hs IH]; intros log acc.
  - simpl. rewrite !app_nil_r. reflexivity.
  - simpl. rewrite He, IH, <- !app_assoc. reflexivity.
Qed.

Lemma served_shape (w w' : W) (tus : list ToolUse)
    (entries : list LogEntry) (results : list ToolResult) :
  served w tus entries results w' ->
  map tool entries = map tu_name tus
  /\ map input entries = map tu_input tus
  /\ map tool_use_id results = map tu_id tus
  /\ map output entries = map content results
  /\ map error entries = map is_error results
  /\ length entries = length tus
  /\ length results = length tus.
Proof.
  induction 1 as [|w tu out flag wm tus entries results wn He Hs IH]; simpl.
  - repeat split.
  - destruct IH as (H1 & H2 & H3 & H4 & H5 & H6 & H7).
    rewrite H1, H2, H3, H4, H5, H6, H7. repeat split.
Qed.

Lemma served_audited (w w' : W) (tus : list ToolUse)
    (entries : list LogEntry) (results : list ToolResult) :
  served w tus entries results w' -> audited w tus entries results.
Proof.
  induction 1 as [|w tu out flag wm tus entries results wn He Hs IH]; simpl.
  - exact I.
  - destruct (execute_total tu w) as (out' & flag' & He' & Hans).
    rewrite He in He'. inversion He'. subst out' flag' wm.
    repeat split; assumption.
Qed.

Lemma cycle_return (st : State) (resp : Response) :
  messages_create client (messages st) = Ok resp ->
  stop_reason resp = "end_turn" \/ tool_use_blocks (response_content resp) = [] ->
  cycle st = Return (final_result resp (tool_calls_log st)).
Proof.
  intros Hc Hstop. unfold agent.cycle. rewrite Hc.
  destruct Hstop as [->| ->]; [reflexivity|].
  rewrite orb_true_r. reflexivity.
Qed.

Lemma cycle_next_served (st : State) (resp : Response)
    (entries : list LogEntry) (results : list ToolResult) (w' : W) :
  messages_create client (messages st) = Ok resp ->
  stop_reason resp <> "end_turn" ->
  tool_use_blocks (response_content resp) <> [] ->
  served (world st) (tool_use_blocks (response_content resp)) entries results w' ->
  cycle st =
    Next {| messages := (messages st ++ [assistant_turn resp]) ++ [tool_result_turn results];
            tool_calls_log := tool_calls_log st ++ entries;
            world := w' |}.
Proof.
  intros Hc Hstop Htus Hs.
  unfold agent.cycle. rewrite Hc.
  apply String.eqb_neq in Hstop. rewrite Hstop.
  destruct (is_empty (tool_use_blocks (response_content resp))) eqn:He.
  - apply is_empty_true in He. contradiction.
  - simpl. rewrite (for_tool_uses_served _ _ _ _ _ Hs). reflexivity.
Qed.

Lemma cycle_next (st : State) (resp : Response) :
  messages_create client (messages st) = Ok resp ->
  stop_reason resp <> "end_turn" ->
  tool_use_blocks (response_content resp) <> [] ->
  exists entries results w',
    served (world st) (tool_use_blocks (response_content resp)) entries results w'
    /\ cycle st =
        Next {| messages := (messages st ++ [assistant_turn resp]) ++ [tool_result_turn results];
                tool_calls_log := tool_calls_log st ++ entries;
                world := w' |}.
Proof.
  intros Hc Hstop Htus.
  destruct (served_total (world st) (tool_use_blocks (response_content resp)))
    as (entries & results & w' & Hs).
  exists entries, results, w'. split; [exact Hs|].
  apply cycle_next_served; assumption.
Qed.

(** The three ways out of one pass, read backwards. *)
Lemma cycle_inv (st : State) :
  match cycle st with
  | Return r =>
      exists resp, messages_create client (messages st) = Ok resp
        /\ (stop_reason resp = "end_turn" \/ tool_use_blocks (response_content resp) = [])
        /\ r = final_result resp (tool_calls_log st)
  | Next st' =>
      exists resp entries results,
        messages_create client (messages st) = Ok resp
        /\ stop_reason resp <> "end_turn"
        /\ tool_use_blocks (response_content resp) <> []
        /\ served (world st) (tool_use_blocks (response_content resp)) entries results (world st')
        /\ messages st' = (messages st ++ [assistant_turn resp]) ++ [tool_result_turn results]
        /\ tool_calls_log st' = tool_calls_log st ++ entries
  | Abort e w => messages_create client (messages st) = Raise e /\ w = world st
  end.
Proof.
  destruct (messages_create client (messages st)) as [resp|e] eqn:Hc.
  - destruct (String.eqb_spec (stop_reason resp) "end_turn") as [Hstop|Hstop].
    + rewrite (cycle_return st resp Hc (or_introl Hstop)). exists resp. auto.
    + destruct (tool_use_blocks (response_content resp)) as [|tu tus] eqn:Htus.
      * rewrite (cycle_return st resp Hc (or_intror Htus)). exists resp. auto.
      * destruct (cycle_next st resp Hc Hstop) as (entries & results & w' & Hs & ->).
        { rewrite Htus. discriminate. }
        exists resp, entries, results. simpl. rewrite Htus in *.
        repeat split; try assumption; try reflexivity. discriminate.
  - unfold agent.cycle. rewrite Hc. split; reflexivity.
Qed.

Lemma loop_S (fuel : nat) (st : State) :
  loop (S fuel) st =
  match cycle st with
  | Return r => (Returned r, world st)
  | Next st' => loop fuel st'
  | Abort e w => (Raised e, w)
  end.
Proof. reflexivity. Qed.

Lemma loop_cycles (n : nat) (st st' : State) (tus : list ToolUse) :
  cycles n st tus st' -> forall fuel, loop (n + fuel) st = loop fuel st'.
Proof.
  induction 1 as [st|n st resp st1 tus st2 Hc Hn Hcs IH]; intros fuel.
  - reflexivity.
  - change (S n + fuel) with (S (n + fuel)). rewrite loop_S, Hn. apply IH.
Qed.

(** Every outcome of the loop is reached through tool cycles that end in
    a returning or an aborting pass. *)
Lemma loop_inv (fuel : nat) (st : State) :
  match loop fuel st with
  | (Returned r, w') =>
      exists n tus st', n < fuel /\ cycles n st tus st'
                        /\ cycle st' = Return r /\ w' = world st'
  | (Raised e, w') =>
      exists n tus st', n < fuel /\ cycles n st tus st' /\ cycle st' = Abort e w'
  | (OutOfFuel, w') =>
      exists tus st', cycles fuel st tus st' /\ w' = world st'
  end.
Proof.
  revert st. induction fuel as [|fuel IH]; intros st.
  - simpl. exists [], st. split; [constructor|reflexivity].
  - rewrite loop_S. pose proof (cycle_inv st) as Hinv.
    destruct (agent.cycle registry client st) as [r|st1|e w] eqn:Hcy.
    + exists 0, [], st. repeat split; [lia|constructor|exact Hcy].
    + destruct Hinv as (resp & entries & results & Hc & _).
      specialize (IH st1).
      destruct (agent.loop registry client fuel st1) as [[r|e|] w'].
      * destruct IH as (n & tus & st' & Hn & Hcs & Hret & Hw).
        exists (S n), (tool_use_blocks (response_content resp) ++ tus), st'.
        repeat split; [lia|econstructor; eassumption|exact Hret|exact Hw].
      * destruct IH as (n & tus & st' & Hn & Hcs & Hab).
        exists (S n), (tool_use_blocks (response_content resp) ++ tus), st'.
        repeat split; [lia|econstructor; eassumption|exact Hab].
      * destruct IH as (tus & st' & Hcs & Hw).
        exists (tool_use_blocks (response_content resp) ++ tus), st'.
        split; [econstructor; eassumption|exact Hw].
    + exists 0, [], st. repeat split; [lia|constructor|exact Hcy].
Qed.

(** Across any number of cycles the requests are served in order, each
    adding its entry to the log and its result block to the transcript. *)
Lemma cycles_served (n : nat) (st st' : State) (tus : list ToolUse) :
  cycles n st tus st' ->
  exists entries results,
    served (world st) tus entries results (world st')
    /\ tool_calls_log st' = tool_calls_log st ++ entries
    /\ flat_map results_of (messages st') = flat_map results_of (messages st) ++ results
    /\ flat_map requests_of (messages st') = flat_map requests_of (messages st) ++ tus
    /\ length (messages st') = length (messages st) + 2 * n.
Proof.
  induction 1 as [st|n st resp st1 tus st2 Hc Hn Hcs IH].
  - exists [], []. rewrite !app_nil_r. repeat split; [constructor|lia].
  - pose proof (cycle_inv st) as Hinv. rewrite Hn in Hinv.
    destruct Hinv as (resp' & e1 & r1 & Hc' & _ & _ & Hs1 & Hm & Hl).
    rewrite Hc in Hc'. inversion Hc'. subst resp'.
    destruct IH as (e2 & r2 & Hs2 & Hl2 & Hres & Hreq & Hlen).
    exists (e1 ++ e2), (r1 ++ r2). split; [eapply served_app; eassumption|].
    rewrite Hl2, Hl, Hres, Hreq, Hlen, Hm, !flat_map_app, !length_app. simpl.
    rewrite !app_nil_r, <- !app_assoc. repeat split. lia.
Qed.

(** A request whose call raises, anywhere in the batch: the exception is
    turned into an error-flagged entry and result block, the remaining
    requests are served, and the loop goes on to its next inference call. *)
Lemma raise_contained (st : State) (resp : Response)
    (before after : list ToolUse) (tu : ToolUse)
    (entries0 : list LogEntry) (results0 : list ToolResult) (w w1 : W) (exc : exn) :
  messages_create client (messages st) = Ok resp ->
  stop_reason resp <> "end_turn" ->
  tool_use_blocks (response_content resp) = before ++ tu :: after ->
  served (world st) before entries0 results0 w ->
  _dispatch_tool (tu_name tu) (tu_input tu) w = (Raise exc, w1) ->
  exists out entries1 results1 st',
    json.loads out = Some (error_dict exc)
    /\ execute tu w = (Ok (out, true), w1)
    /\ cycle st = Next st'
    /\ tool_calls_log st' =
         tool_calls_log st ++ entries0 ++
           {| tool := tu_name tu; input := tu_input tu; output := out; error := true |}
           :: entries1
    /\ messages st' =
         (messages st ++ [assistant_turn resp]) ++
           [tool_result_turn
              (results0 ++
                 {| type := "tool_result"; tool_use_id := tu_id tu;
                    content := out; is_error := true |} :: results1)]
    /\ forall fuel, loop (S fuel) st = loop fuel st'.
Proof.
  intros Hc Hstop Htus Hbefore Hd.
  destruct (execute_raised tu w w1 exc Hd) as (out & He & Hl).
  destruct (served_total w1 after) as (entries1 & results1 & w2 & Hafter).
  pose proof (served_app _ _ _ _ _ _ _ _ _ Hbefore
                (served_cons registry _ _ _ _ _ _ _ _ _ He Hafter)) as Hall.
  rewrite <- Htus in Hall.
  pose proof (cycle_next_served st resp _ _ _ Hc Hstop
                ltac:(rewrite Htus; destruct before; discriminate) Hall) as Hcy.
  eexists out, entries1, results1, _.
  split; [exact Hl|]. split; [exact He|]. split; [exact Hcy|].
  split; [reflexivity|]. split; [reflexivity|].
  intros fuel. rewrite loop_S, Hcy. reflexivity.
Qed.

End Loop.

End agent_facts.

(* ===================================================================== *)
(** * The statements of the specification: the loop *)
(* ===================================================================== *)

Import agent agent_facts.

(** C1, as the code has it: the loop returns a result only on a response
    that signals end-of-turn or holds no tool request; and a response that
    does not signal end-of-turn and holds tool requests has every one of
    them served, in order, each leaving its log entry and its result block,
    before the next inference call. *)
Theorem C1_exit_and_execution {W : Type}
    (registry : list (string * (dict -> W -> result value * W))) (client : Client) :
  (forall fuel (st : State) r w',
      loop registry client fuel st = (Returned r, w') ->
      exists n tus st' resp,
        cycles registry client n st tus st'
        /\ messages_create client (messages st') = Ok resp
        /\ (stop_reason resp = "end_turn"
            \/ tool_use_blocks (response_content resp) = [])
        /\ r = final_result resp (tool_calls_log st')
        /\ w' = world st')
  /\ (forall (st : State) resp,
        messages_create client (messages st) = Ok resp ->
        stop_reason resp <> "end_turn" ->
        tool_use_blocks (response_content resp) <> [] ->
        exists entries results st',
          cycle registry client st = Next st'
          /\ served registry (world st) (tool_use_blocks (response_content resp))
                entries results (world st')
          /\ length entries = length (tool_use_blocks (response_content resp))
          /\ length results = length (tool_use_blocks (response_content resp))
          /\ tool_calls_log st' = tool_calls_log st ++ entries
          /\ messages st' =
               (messages st ++ [assistant_turn resp]) ++ [tool_result_turn results]
          /\ forall fuel, loop registry client (S fuel) st = loop registry client fuel st').
Proof.
  split.
  - intros fuel st r w' Hloop.
    pose proof (loop_inv registry client fuel st) as Hinv. rewrite Hloop in Hinv.
    destruct Hinv as (n & tus & st' & _ & Hcs & Hret & Hw).
    pose proof (cycle_inv registry client st') as Hci. rewrite Hret in Hci.
    destruct Hci as (resp & Hc & Hstop & Hr).
    exists n, tus, st', resp. auto.
  - intros st resp Hc Hstop Htus.
    destruct (cycle_next registry client st resp Hc Hstop Htus)
      as (entries & results & w' & Hs & Hcy).
    destruct (served_shape registry _ _ _ _ _ Hs) as (_ & _ & _ & _ & _ & Hle & Hlr).
    eexists entries, results, _. split; [exact Hcy|].
    cbn [world tool_calls_log messages].
    repeat split; try assumption.
    intros fuel. rewrite loop_S, Hcy. reflexivity.
Qed.

(** C1 as stated fails: a response that signals end-of-turn and still
    holds a tool request makes the loop return, the request unserved (the
    log is empty and the database untouched); and a response cut short
    ([max_tokens]) without tool requests makes it return as well. *)
Lemma C1_counterexample :
  let resp :=
    {| stop_reason := "end_turn";
       response_content := [TextBlock "Saved."; scenario.ask_save] |} in
  let cut := {| stop_reason := "max_tokens"; response_content := [TextBlock "Here are"] |} in
  (tool_use_blocks (response_content resp) <> []
   /\ run _TOOL_DISPATCH (scenario.scripted [Ok resp]) 1 scenario.w0
        "u1" "I like Thai food" "San Francisco, CA"
      = (Returned {| response := "Saved."; tool_calls := [] |}, scenario.w0))
  /\ (stop_reason cut <> "end_turn"
      /\ run _TOOL_DISPATCH (scenario.scripted [Ok cut]) 1 scenario.w0
           "u1" "Find me ramen" "San Francisco, CA"
         = (Returned {| response := "Here are"; tool_calls := [] |}, scenario.w0)).
Proof.
  repeat split; try discriminate; vm_compute; reflexivity.
Qed.

Lemma C1_witness :
  let client :=
    scenario.scripted [Ok (scenario.asks [scenario.ask_save]); Ok (scenario.final "Saved.")] in
  (exists n tus st' resp,
      cycles _TOOL_DISPATCH client n (scenario.start scenario.w0) tus st'
      /\ messages_create client (messages st') = Ok resp
      /\ (stop_reason resp = "end_turn" \/ tool_use_blocks (response_content resp) = [])
      /\ fst (run _TOOL_DISPATCH client 2 scenario.w0 "u1" "Find me ramen" "San Francisco, CA")
         = Returned (final_result resp (tool_calls_log st')))
  /\ (exists (entries : list LogEntry) (results : list ToolResult) st',
        cycle _TOOL_DISPATCH client (scenario.start scenario.w0) = Next st'
        /\ length entries = 1 /\ length results = 1
        /\ tool_calls_log st' = entries).
Proof.
  intros client. split.
  - assert (H : exists r w',
               loop _TOOL_DISPATCH client 2 (scenario.start scenario.w0) = (Returned r, w')).
    { eexists _, _. vm_compute. reflexivity. }
    destruct H as (r & w' & H).
    destruct (proj1 (C1_exit_and_execution _TOOL_DISPATCH client) 2 _ r w' H)
      as (n & tus & st' & resp & H1 & H2 & H3 & H4 & H5).
    exists n, tus, st', resp. repeat split; try assumption.
    rewrite <- H4. change (fst (loop _TOOL_DISPATCH client 2 (scenario.start scenario.w0))
                           = Returned r).
    rewrite H. reflexivity.
  - destruct (proj2 (C1_exit_and_execution _TOOL_DISPATCH client)
                (scenario.start scenario.w0) (scenario.asks [scenario.ask_save])
                eq_refl ltac:(discriminate) ltac:(discriminate))
      as (entries & results & st' & H1 & _ & H3 & H4 & H5 & _).
    exists entries, results, st'. repeat split; assumption.
Defined.

(** C8: when the first response holds no tool request, the loop returns
    with an empty tool-call log and, as response text, the text blocks of
    that response in their order, joined by newlines. *)
Theorem C8_no_tool_round_trip {W : Type}
    (registry : list (string * (dict -> W -> result value * W))) (client : Client)
    (fuel : nat) (w : W) (user_id message location : string) (resp : Response) :
  messages_create client [seed user_id message location] = Ok resp ->
  tool_use_blocks (response_content resp) = [] ->
  run registry client (S fuel) w user_id message location
  = (Returned {| response := join nl (text_blocks (response_content resp));
                 tool_calls := [] |}, w).
Proof.
  intros Hc Htus. unfold run. rewrite loop_S.
  rewrite (cycle_return registry client (initial w user_id message location) resp Hc
             (or_intror Htus)).
  reflexivity.
Qed.

Lemma C8_witness :
  let resp :=
    {| stop_reason := "end_turn";
       response_content :=
         [TextBlock "Here are 3 great ramen spots"; ThinkingBlock "rank them";
          TextBlock "in San Francisco!"] |} in
  let client := scenario.scripted [Ok resp] in
  messages_create client [seed "u1" "Find me ramen" "San Francisco, CA"] = Ok resp
  /\ tool_use_blocks (response_content resp) = []
  /\ run _TOOL_DISPATCH client 1 scenario.w0 "u1" "Find me ramen" "San Francisco, CA"
     = (Returned {| response := "Here are 3 great ramen spots" +:+ nl +:+ "in San Francisco!";
                    tool_calls := [] |}, scenario.w0).
Proof.
  intros resp client. split; [reflexivity|]. split; [reflexivity|].
  exact (C8_no_tool_round_trip _TOOL_DISPATCH client 0 scenario.w0
           "u1" "Find me ramen" "San Francisco, CA" resp eq_refl eq_refl).
Defined.

(** C7: when an inference call fails, after any number of tool cycles,
    the loop ends with that exception and no run result, and the endpoint
    answers with status 500 and the exception's message: neither a partial
    answer nor the log gathered so far reaches the caller. *)
Theorem C7_inference_failure_is_fatal {W : Type}
    (registry : list (string * (dict -> W -> result value * W))) (client : Client)
    (w : W) (req : server.RunRequest) (n fuel : nat) (tus : list ToolUse)
    (st' : State) (e : exn) :
  cycles registry client n
    (initial w (server.user_id req) (server.message req) (server.location req)) tus st' ->
  messages_create client (messages st') = Raise e ->
  n < fuel ->
  run registry client fuel w (server.user_id req) (server.message req) (server.location req)
  = (Raised e, world st')
  /\ server.run registry client fuel w req
     = (Some (server.HTTPException 500 (str_exc e)), world st').
Proof.
  intros Hcs Hfail Hfuel.
  assert (Hrun : run registry client fuel w (server.user_id req) (server.message req)
                   (server.location req) = (Raised e, world st')).
  { unfold run. replace fuel with (n + S (fuel - S n)) by lia.
    rewrite (loop_cycles registry client n _ _ _ Hcs), loop_S.
    unfold cycle. rewrite Hfail. reflexivity. }
  split; [exact Hrun|]. unfold server.run. rewrite Hrun. reflexivity.
Qed.

Lemma C7_witness :
  let client := scenario.scripted [Ok (scenario.asks [scenario.ask_save])] in
  exists st' : State,
    cycles _TOOL_DISPATCH client 1 (scenario.start scenario.w0)
      (tool_use_blocks [scenario.ask_save]) st'
    /\ length (tool_calls_log st') = 1
    /\ messages_create client (messages st')
       = Raise (Exc "APIConnectionError" "Connection error.")
    /\ 1 < 2
    /\ run _TOOL_DISPATCH client 2 scenario.w0 "u1" "Find me ramen" "San Francisco, CA"
       = (Raised (Exc "APIConnectionError" "Connection error."), world st')
    /\ server.run _TOOL_DISPATCH client 2 scenario.w0 scenario.request
       = (Some (server.HTTPException 500 "Connection error."), world st').
Proof.
  intros client.
  assert (Hnext : exists st', cycle _TOOL_DISPATCH client (scenario.start scenario.w0) = Next st').
  { eexists. vm_compute. reflexivity. }
  destruct Hnext as (st' & Hnext).
  assert (Hcs : cycles _TOOL_DISPATCH client 1 (scenario.start scenario.w0)
                  (tool_use_blocks [scenario.ask_save]) st').
  { rewrite <- (app_nil_r (tool_use_blocks _)).
    exact (cycles_more _TOOL_DISPATCH client 0 (scenario.start scenario.w0)
             (scenario.asks [scenario.ask_save]) st' [] st' eq_refl Hnext
             (cycles_here _ _ st')). }
  assert (Hst : st' = match cycle _TOOL_DISPATCH client (scenario.start scenario.w0) with
                      | Next s => s
                      | _ => st'
                      end) by (rewrite Hnext; reflexivity).
  assert (Hlen : length (tool_calls_log st') = 1).
  { rewrite Hst. vm_compute. reflexivity. }
  assert (Hfail : messages_create client (messages st')
                  = Raise (Exc "APIConnectionError" "Connection error.")).
  { rewrite Hst. vm_compute. reflexivity. }
  exists st'. split; [exact Hcs|]. split; [exact Hlen|]. split; [exact Hfail|].
  split; [lia|].
  exact (C7_inference_failure_is_fatal _TOOL_DISPATCH client scenario.w0 scenario.request
           1 2 _ st' _ Hcs Hfail ltac:(lia)).
Defined.

(** C2: a tool request whose call raises does not raise out of the loop
    body: its log entry and its result block carry the error flag and a
    payload that reads back as [{"error": str(exc)}], the other requests of
    the batch are served around it, and the loop goes on to its next
    inference call. *)
Theorem C2_tool_failure_is_contained {W : Type}
    (registry : list (string * (dict -> W -> result value * W))) (client : Client)
    (st : State) (resp : Response) (before after : list ToolUse) (tu : ToolUse)
    (entries0 : list LogEntry) (results0 : list ToolResult) (w w1 : W) (exc : exn) :
  messages_create client (messages st) = Ok resp ->
  stop_reason resp <> "end_turn" ->
  tool_use_blocks (response_content resp) = before ++ tu :: after ->
  served registry (world st) before entries0 results0 w ->
  _dispatch_tool registry (tu_name tu) (tu_input tu) w = (Raise exc, w1) ->
  exists out entries1 results1 st',
    json.loads out = Some (VDict [("error", VStr (str_exc exc))])
    /\ execute registry tu w = (Ok (out, true), w1)
    /\ cycle registry client st = Next st'
    /\ tool_calls_log st' =
         tool_calls_log st ++ entries0 ++
           {| tool := tu_name tu; input := tu_input tu; output := out; error := true |}
           :: entries1
    /\ messages st' =
         (messages st ++ [assistant_turn resp]) ++
           [tool_result_turn
              (results0 ++
                 {| type := "tool_result"; tool_use_id := tu_id tu;
                    content := out; is_error := true |} :: results1)]
    /\ forall fuel, loop registry client (S fuel) st = loop registry client fuel st'.
Proof.
  intros Hc Hstop Htus Hbefore Hd.
  exact (raise_contained registry client st resp before after tu entries0 results0
           w w1 exc Hc Hstop Htus Hbefore Hd).
Qed.

Lemma C2_witness :
  let resp := scenario.asks [scenario.ask_prefs; scenario.ask_search; scenario.ask_save] in
  let client := scenario.scripted [Ok resp; Ok (scenario.final "Sorry.")] in
  let st := scenario.start scenario.w0 in
  exists (entries0 : list LogEntry) (results0 : list ToolResult),
    messages_create client (messages st) = Ok resp
    /\ stop_reason resp <> "end_turn"
    /\ tool_use_blocks (response_content resp)
       = [scenario.prefs_request] ++ scenario.search_request :: [scenario.save_request]
    /\ served _TOOL_DISPATCH (world st) [scenario.prefs_request] entries0 results0 scenario.w0
    /\ _dispatch_tool _TOOL_DISPATCH "search_restaurants"
         (tu_input scenario.search_request) scenario.w0
       = (Raise scenario.no_api_key, scenario.w0)
    /\ exists out entries1 results1 st',
         json.loads out = Some (VDict [("error", VStr (str_exc scenario.no_api_key))])
         /\ execute _TOOL_DISPATCH scenario.search_request scenario.w0
            = (Ok (out, true), scenario.w0)
         /\ cycle _TOOL_DISPATCH client st = Next st'
         /\ tool_calls_log st' =
              tool_calls_log st ++ entries0 ++
                {| tool := "search_restaurants"; input := tu_input scenario.search_request;
                   output := out; error := true |} :: entries1
         /\ messages st' =
              (messages st ++ [assistant_turn resp]) ++
                [tool_result_turn
                   (results0 ++
                      {| type := "tool_result"; tool_use_id := "toolu_3";
                         content := out; is_error := true |} :: results1)]
         /\ forall fuel,
              loop _TOOL_DISPATCH client (S fuel) st = loop _TOOL_DISPATCH client fuel st'.
Proof.
  intros resp client st.
  assert (Hserved : exists out flag,
             execute _TOOL_DISPATCH scenario.prefs_request scenario.w0
             = (Ok (out, flag), scenario.w0)).
  { eexists _, _. vm_compute. reflexivity. }
  destruct Hserved as (out0 & flag0 & He0).
  pose proof (served_cons _TOOL_DISPATCH _ _ _ _ _ _ _ _ _ He0
                (served_nil _TOOL_DISPATCH scenario.w0)) as Hbefore.
  eexists _, _.
  split; [reflexivity|]. split; [discriminate|]. split; [reflexivity|].
  split; [exact Hbefore|]. split; [reflexivity|].
  exact (C2_tool_failure_is_contained _TOOL_DISPATCH client st resp
           [scenario.prefs_request] [scenario.save_request] scenario.search_request
           _ _ scenario.w0 scenario.w0 scenario.no_api_key
           eq_refl ltac:(discriminate) eq_refl Hbefore eq_refl).
Defined.

(** C5: a tool name that the registry does not hold makes the dispatch
    raise [ValueError("Unknown tool: <name>")], whatever the arguments and
    without touching the state of the tools; in the loop this exception is
    contained like that of any tool: an error-flagged entry and result
    block with the message, and the next inference call follows. *)
Theorem C5_unknown_tool_fails_loudly {W : Type}
    (registry : list (string * (dict -> W -> result value * W))) (client : Client)
    (st : State) (resp : Response) (before after : list ToolUse) (tu : ToolUse)
    (entries0 : list LogEntry) (results0 : list ToolResult) (w : W) :
  dict_get registry (tu_name tu) = None ->
  messages_create client (messages st) = Ok resp ->
  stop_reason resp <> "end_turn" ->
  tool_use_blocks (response_content resp) = before ++ tu :: after ->
  served registry (world st) before entries0 results0 w ->
  _dispatch_tool registry (tu_name tu) (tu_input tu) w
  = (Raise (Exc "ValueError" ("Unknown tool: " +:+ tu_name tu)), w)
  /\ exists out entries1 results1 st',
       json.loads out = Some (VDict [("error", VStr ("Unknown tool: " +:+ tu_name tu))])
       /\ execute registry tu w = (Ok (out, true), w)
       /\ cycle registry client st = Next st'
       /\ tool_calls_log st' =
            tool_calls_log st ++ entries0 ++
              {| tool := tu_name tu; input := tu_input tu; output := out; error := true |}
              :: entries1
       /\ messages st' =
            (messages st ++ [assistant_turn resp]) ++
              [tool_result_turn
                 (results0 ++
                    {| type := "tool_result"; tool_use_id := tu_id tu;
                       content := out; is_error := true |} :: results1)]
       /\ forall fuel, loop registry client (S fuel) st = loop registry client fuel st'.
Proof.
  intros Hnone Hc Hstop Htus Hbefore.
  assert (Hd : _dispatch_tool registry (tu_name tu) (tu_input tu) w
               = (Raise (Exc "ValueError" ("Unknown tool: " +:+ tu_name tu)), w)).
  { unfold _dispatch_tool. rewrite Hnone. reflexivity. }
  split; [exact Hd|].
  exact (raise_contained registry client st resp before after tu entries0 results0
           w w _ Hc Hstop Htus Hbefore Hd).
Qed.

Lemma C5_witness :
  let resp := scenario.asks [scenario.ask_booking; scenario.ask_prefs] in
  let client := scenario.scripted [Ok resp; Ok (scenario.final "I cannot book tables.")] in
  let st := scenario.start scenario.w0 in
  dict_get _TOOL_DISPATCH "book_table" = None
  /\ messages_create client (messages st) = Ok resp
  /\ stop_reason resp <> "end_turn"
  /\ tool_use_blocks (response_content resp)
     = [] ++ scenario.booking_request :: [scenario.prefs_request]
  /\ served _TOOL_DISPATCH (world st) [] [] [] scenario.w0
  /\ _dispatch_tool _TOOL_DISPATCH "book_table" (tu_input scenario.booking_request) scenario.w0
     = (Raise (Exc "ValueError" "Unknown tool: book_table"), scenario.w0)
  /\ exists out entries1 results1 st',
       json.loads out = Some (VDict [("error", VStr "Unknown tool: book_table")])
       /\ execute _TOOL_DISPATCH scenario.booking_request scenario.w0
          = (Ok (out, true), scenario.w0)
       /\ cycle _TOOL_DISPATCH client st = Next st'
       /\ tool_calls_log st' =
            {| tool := "book_table"; input := tu_input scenario.booking_request;
               output := out; error := true |} :: entries1
       /\ messages st' =
            (messages st ++ [assistant_turn resp]) ++
              [tool_result_turn
                 ({| type := "tool_result"; tool_use_id := "toolu_4";
                     content := out; is_error := true |} :: results1)]
       /\ forall fuel,
            loop _TOOL_DISPATCH client (S fuel) st = loop _TOOL_DISPATCH client fuel st'.
Proof.
  intros resp client st.
  split; [reflexivity|]. split; [reflexivity|]. split; [discriminate|].
  split; [reflexivity|]. split; [constructor|].
  exact (C5_unknown_tool_fails_loudly _TOOL_DISPATCH client st resp
           [] [scenario.prefs_request] scenario.booking_request [] [] scenario.w0
           eq_refl eq_refl ltac:(discriminate) eq_refl (served_nil _ _)).
Defined.

(** C3: in a tool cycle the result blocks appended to the transcript
    follow the order of the requests of the response, each carrying the
    identifier of its request, and the log grows by one entry per request
    in that order; the log that the loop returns is the log it started
    with followed by one entry per request of every cycle, cycle after
    cycle, none dropped, merged or moved. *)
Theorem C3_results_and_log_in_request_order {W : Type}
    (registry : list (string * (dict -> W -> result value * W))) (client : Client) :
  (forall st st' : State,
      cycle registry client st = Next st' ->
      exists resp entries results,
        messages_create client (messages st) = Ok resp
        /\ messages st' =
             (messages st ++ [assistant_turn resp]) ++ [tool_result_turn results]
        /\ map tool_use_id results = map tu_id (tool_use_blocks (response_content resp))
        /\ tool_calls_log st' = tool_calls_log st ++ entries
        /\ map tool entries = map tu_name (tool_use_blocks (response_content resp))
        /\ map input entries = map tu_input (tool_use_blocks (response_content resp)))
  /\ (forall fuel (st : State) r w',
        loop registry client fuel st = (Returned r, w') ->
        exists n tus st' entries results,
          cycles registry client n st tus st'
          /\ tool_calls r = tool_calls_log st ++ entries
          /\ map tool entries = map tu_name tus
          /\ map input entries = map tu_input tus
          /\ flat_map requests_of (messages st')
             = flat_map requests_of (messages st) ++ tus
          /\ flat_map results_of (messages st')
             = flat_map results_of (messages st) ++ results
          /\ map tool_use_id results = map tu_id tus).
Proof.
  split.
  - intros st st' Hnext.
    pose proof (cycle_inv registry client st) as Hinv. rewrite Hnext in Hinv.
    destruct Hinv as (resp & entries & results & Hc & _ & _ & Hs & Hm & Hl).
    destruct (served_shape registry _ _ _ _ _ Hs) as (H1 & H2 & H3 & _).
    exists resp, entries, results. auto 10.
  - intros fuel st r w' Hloop.
    pose proof (loop_inv registry client fuel st) as Hinv. rewrite Hloop in Hinv.
    destruct Hinv as (n & tus & st' & _ & Hcs & Hret & _).
    pose proof (cycle_inv registry client st') as Hci. rewrite Hret in Hci.
    destruct Hci as (resp & _ & _ & ->).
    destruct (cycles_served registry client n st st' tus Hcs)
      as (entries & results & Hs & Hl & Hres & Hreq & _).
    destruct (served_shape registry _ _ _ _ _ Hs) as (H1 & H2 & H3 & _).
    exists n, tus, st', entries, results. simpl. auto 10.
Qed.

Lemma C3_witness :
  let first := scenario.asks [scenario.ask_search; scenario.ask_booking; scenario.ask_prefs] in
  let second := scenario.asks [scenario.ask_save; scenario.ask_prefs] in
  let client :=
    scenario.scripted [Ok first; Ok second; Ok (scenario.final "Try Ramen House.")] in
  let st := scenario.start scenario.w_mock in
  (exists (st' : State) (results : list ToolResult),
      cycle _TOOL_DISPATCH client st = Next st'
      /\ messages st' = (messages st ++ [assistant_turn first]) ++ [tool_result_turn results]
      /\ map tool_use_id results = ["toolu_3"; "toolu_4"; "toolu_1"]
      /\ map tool (tool_calls_log st') = ["search_restaurants"; "book_table"; "get_preferences"])
  /\ (exists r w',
        loop _TOOL_DISPATCH client 3 st = (Returned r, w')
        /\ map tool (tool_calls r)
           = ["search_restaurants"; "book_table"; "get_preferences";
              "save_preference"; "get_preferences"]).
Proof.
  intros first second client st. split.
  - assert (Hnext : exists st', cycle _TOOL_DISPATCH client st = Next st').
    { eexists. vm_compute. reflexivity. }
    destruct Hnext as (st' & Hnext).
    destruct (proj1 (C3_results_and_log_in_request_order _TOOL_DISPATCH client) st st' Hnext)
      as (resp & entries & results & Hc & Hm & Hid & Hl & Ht & _).
    assert (resp = first) as ->.
    { change (Ok first = Ok resp) in Hc. inversion Hc. reflexivity. }
    exists st', results. split; [exact Hnext|]. split; [exact Hm|].
    split; [exact Hid|]. rewrite Hl. exact Ht.
  - assert (Hloop : exists r w', loop _TOOL_DISPATCH client 3 st = (Returned r, w')).
    { eexists _, _. vm_compute. reflexivity. }
    destruct Hloop as (r & w' & Hloop).
    destruct (proj2 (C3_results_and_log_in_request_order _TOOL_DISPATCH client) 3 st r w' Hloop)
      as (n & tus & st' & entries & results & _ & Hl & _).
    exists r, w'. split; [exact Hloop|].
    assert (Hr : fst (loop _TOOL_DISPATCH client 3 st) = Returned r)
      by (rewrite Hloop; reflexivity).
    vm_compute in Hr. inversion Hr. reflexivity.
Defined.

(** C10: every request of a tool cycle leaves exactly one log entry and
    exactly one result block, in the order of the requests; the two carry
    the same output string and the same error flag; and the output reads
    back, through [json.loads], as the value the tool returned, or as the
    error payload when the call or the serialization raised. *)
Theorem C10_one_entry_one_result {W : Type}
    (registry : list (string * (dict -> W -> result value * W))) (client : Client)
    (st st' : State) :
  cycle registry client st = Next st' ->
  exists resp entries results,
    messages_create client (messages st) = Ok resp
    /\ tool_calls_log st' = tool_calls_log st ++ entries
    /\ messages st' = (messages st ++ [assistant_turn resp]) ++ [tool_result_turn results]
    /\ length entries = length (tool_use_blocks (response_content resp))
    /\ length results = length (tool_use_blocks (response_content resp))
    /\ map output entries = map content results
    /\ map error entries = map is_error results
    /\ audited registry (world st) (tool_use_blocks (response_content resp)) entries results.
Proof.
  intros Hnext.
  pose proof (cycle_inv registry client st) as Hinv. rewrite Hnext in Hinv.
  destruct Hinv as (resp & entries & results & Hc & _ & _ & Hs & Hm & Hl).
  destruct (served_shape registry _ _ _ _ _ Hs) as (_ & _ & _ & H4 & H5 & H6 & H7).
  exists resp, entries, results.
  repeat split; try assumption.
  apply (served_audited registry _ _ _ _ _ Hs).
Qed.

Lemma C10_witness :
  let first := scenario.asks [scenario.ask_search; scenario.ask_booking; scenario.ask_prefs] in
  let client := scenario.scripted [Ok first; Ok (scenario.final "Try Ramen House.")] in
  let st := scenario.start scenario.w_mock in
  exists st' : State,
    cycle _TOOL_DISPATCH client st = Next st'
    /\ exists resp entries results,
         messages_create client (messages st) = Ok resp
         /\ tool_calls_log st' = tool_calls_log st ++ entries
         /\ messages st' =
              (messages st ++ [assistant_turn resp]) ++ [tool_result_turn results]
         /\ length entries = length (tool_use_blocks (response_content resp))
         /\ length results = length (tool_use_blocks (response_content resp))
         /\ map output entries = map content results
         /\ map error entries = map is_error results
         /\ audited _TOOL_DISPATCH (world st) (tool_use_blocks (response_content resp))
              entries results.
Proof.
  intros first client st.
  assert (Hnext : exists st', cycle _TOOL_DISPATCH client st = Next st').
  { eexists. vm_compute. reflexivity. }
  destruct Hnext as (st' & Hnext).
  exists st'. split; [exact Hnext|].
  exact (C10_one_entry_one_result _TOOL_DISPATCH client st st' Hnext).
Defined.

(** The same cycle, evaluated: the outputs logged for a search that finds
    the two mocked places, for a tool that does not exist and for the
    preferences of a new user read back as the values below, with the
    flags [false], [true], [false]. *)
Example logged_outputs_read_back :
  let first := scenario.asks [scenario.ask_search; scenario.ask_booking; scenario.ask_prefs] in
  let client := scenario.scripted [Ok first; Ok (scenario.final "Try Ramen House.")] in
  match run _TOOL_DISPATCH client 2 scenario.w_mock "u1" "Find me ramen" "San Francisco, CA" with
  | (Returned r, _) =>
      map (fun e => (json.loads (output e), error e)) (tool_calls r)
      = [(match places.search_restaurants_with scenario.mock_places
                  "ramen" "San Francisco, CA" 5000 with
          | Ok v => Some v
          | Raise _ => None
          end, false);
         (Some (VDict [("error", VStr "Unknown tool: book_table")]), true);
         (Some (prefs.get_preferences store.empty_db "u1"), false)]
      /\ response r = "Try Ramen House."
  | _ => False
  end.
Proof. vm_compute. split; reflexivity. Qed.

(** The end-to-end scenario of the specification: one search, then the
    final answer. *)
Example end_to_end :
  let client :=
    scenario.scripted [Ok (scenario.asks [scenario.ask_search]);
                       Ok (scenario.final "Try Ramen House.")] in
  match run _TOOL_DISPATCH client 2 scenario.w_mock "u1" "Find me ramen" "San Francisco, CA" with
  | (Returned r, _) =>
      map tool (tool_calls r) = ["search_restaurants"]
      /\ map error (tool_calls r) = [false]
      /\ response r = "Try Ramen House."
  | _ => False
  end.
Proof. vm_compute. repeat split; reflexivity. Qed.

(** The loop has no bound of its own: a model that asks for a tool at
    every call keeps it running, whatever the fuel. *)
Lemma asking_forever {W : Type}
    (registry : list (string * (dict -> W -> result value * W)))
    (resp : Response) (fuel : nat) (st : State) :
  stop_reason resp <> "end_turn" ->
  tool_use_blocks (response_content resp) <> [] ->
  fst (loop registry {| messages_create := fun _ => Ok resp |} fuel st) = OutOfFuel.
Proof.
  intros Hstop Htus. revert st. induction fuel as [|fuel IH]; intros st; [reflexivity|].
  destruct (cycle_next registry {| messages_create := fun _ => Ok resp |} st resp
              eq_refl Hstop Htus) as (entries & results & w' & _ & Hcy).
  rewrite loop_S, Hcy. apply IH.
Qed.

(* ===================================================================== *)
(** * The preference store *)
(* ===================================================================== *)

Module prefs_facts.
Import store prefs.

Lemma find_user_id (rows : list Preference) (uid : string) (p : Preference) :
  find (fun q => String.eqb (user_id q) uid) rows = Some p -> user_id p = uid.
Proof.
  intros H. apply find_some in H as [_ H]. apply String.eqb_eq, H.
Qed.

Lemma find_update (rows : list Preference) (uid : string) (p p' : Preference) :
  find (fun q => String.eqb (user_id q) uid) rows = Some p ->
  user_id p' = uid ->
  find (fun q => String.eqb (user_id q) uid) (update_Preference rows p') = Some p'.
Proof.
  intros Hfind Huid. induction rows as [|q rows IH]; [discriminate|].
  simpl in *. rewrite Huid.
  destruct (String.eqb (user_id q) uid) eqn:Hq.
  - simpl. rewrite Huid, String.eqb_refl. reflexivity.
  - simpl. rewrite Hq. apply IH, Hfind.
Qed.

Lemma find_insert (rows : list Preference) (uid : string) (p : Preference) :
  find (fun q => String.eqb (user_id q) uid) rows = None ->
  user_id p = uid ->
  exists k, find (fun q => String.eqb (user_id q) uid) (insert_Preference rows p)
            = Some {| pk := Some k; user_id := uid;
                      cuisines_liked := column_default (cuisines_liked p);
                      cuisines_disliked := column_default (cuisines_disliked p);
                      dietary_restrictions := column_default (dietary_restrictions p);
                      price_range := price_range p;
                      liked_place_ids := column_default (liked_place_ids p);
                      disliked_place_ids := column_default (disliked_place_ids p) |}.
Proof.
  intros Hnone Huid. exists (next_pk rows). unfold insert_Preference.
  generalize (next_pk rows). intros k.
  induction rows as [|q rows IH]; simpl in *.
  - rewrite Huid, String.eqb_refl. reflexivity.
  - destruct (String.eqb (user_id q) uid); [discriminate|]. apply IH, Hnone.
Qed.

Lemma or_empty_merge (stored arg : option (list string)) :
  or_empty (merge stored arg) = upsert_list (or_empty stored) arg.
Proof. destruct arg; reflexivity. Qed.

Lemma or_empty_default_merge (arg : option (list string)) :
  or_empty (column_default (merge None arg)) = upsert_list [] arg.
Proof. destruct arg; reflexivity. Qed.

(** The row of the user after [save_preference], through what
    [get_preferences] reads of it. *)
Lemma save_preference_fetched (db : DB) (uid : string)
    (cl cd dr : option (list string)) (pr : option string) (lp dp : option (list string)) :
  let db' := snd (save_preference db uid cl cd dr pr lp dp) in
  fetched db' uid cuisines_liked = upsert_list (fetched db uid cuisines_liked) cl
  /\ fetched db' uid cuisines_disliked = upsert_list (fetched db uid cuisines_disliked) cd
  /\ fetched db' uid dietary_restrictions
     = upsert_list (fetched db uid dietary_restrictions) dr
  /\ fetched db' uid liked_place_ids = upsert_list (fetched db uid liked_place_ids) lp
  /\ fetched db' uid disliked_place_ids = upsert_list (fetched db uid disliked_place_ids) dp
  /\ fetched_price db' uid = match pr with
                             | Some r => Some r
                             | None => fetched_price db uid
                             end.
Proof.
  unfold fetched, fetched_price, save_preference, first_Preference.
  destruct (find (fun p => String.eqb (user_id p) uid) (preferences db)) as [p|] eqn:Hfind;
    cbn [snd preferences].
  - erewrite find_update; [|exact Hfind|exact (find_user_id _ _ _ Hfind)].
    cbn [cuisines_liked cuisines_disliked dietary_restrictions price_range
         liked_place_ids disliked_place_ids].
    rewrite !or_empty_merge. repeat split.
  - edestruct find_insert as (k & ->); [exact Hfind|reflexivity|].
    cbn [cuisines_liked cuisines_disliked dietary_restrictions price_range
         liked_place_ids disliked_place_ids new_Preference].
    rewrite !or_empty_default_merge. repeat split; destruct pr; reflexivity.
Qed.

Lemma get_preferences_report (db : DB) (uid : string) :
  get_preferences db uid
  = report uid (fetched db uid cuisines_liked) (fetched db uid cuisines_disliked)
      (fetched db uid dietary_restrictions) (fetched_price db uid)
      (fetched db uid liked_place_ids) (fetched db uid disliked_place_ids).
Proof.
  unfold get_preferences, fetched, fetched_price.
  destruct (first_Preference db uid); reflexivity.
Qed.

Lemma elem_of_union_list (old new : list string) (x : string) :
  x ∈ union_list old new <-> x ∈ old \/ x ∈ new.
Proof.
  unfold union_list. rewrite elem_of_elements, elem_of_union, !elem_of_list_to_set.
  reflexivity.
Qed.

Lemma NoDup_union_list (old new : list string) : NoDup (union_list old new).
Proof. apply NoDup_elements. Qed.

Lemma upsert_list_merged (old : list string) (arg : option (list string)) :
  merged old arg (upsert_list old arg).
Proof.
  destruct arg as [l|]; simpl; [|reflexivity].
  split; [apply NoDup_union_list|]. intros x. apply elem_of_union_list.
Qed.

(** Passing the same field again changes nothing but, possibly, the
    order. *)
Lemma upsert_list_again (old : list string) (arg : option (list string)) :
  upsert_list (upsert_list old arg) arg ≡ₚ upsert_list old arg.
Proof.
  destruct arg as [l|]; simpl; [|reflexivity].
  apply NoDup_Permutation; try apply NoDup_union_list.
  intros x. rewrite !elem_of_union_list. tauto.
Qed.

(** The two tools return dicts with each key once, so what the loop logs
    for them reads back exactly. *)
Lemma wf_str_list (l : list string) : json.wf_value (str_list l) = true.
Proof.
  unfold str_list. simpl. induction l as [|x l IH]; [reflexivity|exact IH].
Qed.

Lemma wf_get_preferences (db : DB) (uid : string) :
  json.wf_value (get_preferences db uid) = true.
Proof.
  rewrite get_preferences_report. unfold report. rewrite json_facts.wf_VDict.
  apply andb_true_iff. split; [reflexivity|].
  cbn [json.wf_members]. rewrite !wf_str_list.
  destruct (fetched_price db uid); reflexivity.
Qed.

Lemma wf_save_preference (db : DB) (uid : string)
    (cl cd dr : option (list string)) (pr : option string) (lp dp : option (list string)) :
  json.wf_value (fst (save_preference db uid cl cd dr pr lp dp)) = true.
Proof. reflexivity. Qed.

End prefs_facts.

Import prefs_facts.

(** C4: after [save_preference], what [get_preferences] reports for the
    user is, for each list field that was passed, the union of the list
    reported before and the list passed, each element once (in whatever
    order); for the price range, the value passed if one was; and for
    every field passed as [None] or left out, what was reported before.
    Saving the same fields a second time leaves every list with the same
    elements, the same number of times.  ([before], [after] and [again]
    are the lists that [get_preferences] reports, as the middle part
    says.) *)
Theorem C4_upsert_merges (db : store.DB) (user_id : string)
    (cuisines_liked cuisines_disliked dietary_restrictions : option (list string))
    (price_range : option string)
    (liked_place_ids disliked_place_ids : option (list string)) :
  let save := fun d =>
    snd (prefs.save_preference d user_id cuisines_liked cuisines_disliked
           dietary_restrictions price_range liked_place_ids disliked_place_ids) in
  let before := prefs.fetched db user_id in
  let after := prefs.fetched (save db) user_id in
  let again := prefs.fetched (save (save db)) user_id in
  (prefs.merged (before store.cuisines_liked) cuisines_liked (after store.cuisines_liked)
   /\ prefs.merged (before store.cuisines_disliked) cuisines_disliked
        (after store.cuisines_disliked)
   /\ prefs.merged (before store.dietary_restrictions) dietary_restrictions
        (after store.dietary_restrictions)
   /\ prefs.merged (before store.liked_place_ids) liked_place_ids
        (after store.liked_place_ids)
   /\ prefs.merged (before store.disliked_place_ids) disliked_place_ids
        (after store.disliked_place_ids)
   /\ prefs.overwritten (prefs.fetched_price db user_id) price_range
        (prefs.fetched_price (save db) user_id))
  /\ (prefs.get_preferences db user_id
      = prefs.report user_id (before store.cuisines_liked) (before store.cuisines_disliked)
          (before store.dietary_restrictions) (prefs.fetched_price db user_id)
          (before store.liked_place_ids) (before store.disliked_place_ids)
      /\ prefs.get_preferences (save db) user_id
         = prefs.report user_id (after store.cuisines_liked) (after store.cuisines_disliked)
             (after store.dietary_restrictions) (prefs.fetched_price (save db) user_id)
             (after store.liked_place_ids) (after store.disliked_place_ids))
  /\ (again store.cuisines_liked ≡ₚ after store.cuisines_liked
      /\ again store.cuisines_disliked ≡ₚ after store.cuisines_disliked
      /\ again store.dietary_restrictions ≡ₚ after store.dietary_restrictions
      /\ again store.liked_place_ids ≡ₚ after store.liked_place_ids
      /\ again store.disliked_place_ids ≡ₚ after store.disliked_place_ids
      /\ prefs.fetched_price (save (save db)) user_id = prefs.fetched_price (save db) user_id).
Proof.
  intros save before after again.
  destruct (save_preference_fetched db user_id cuisines_liked cuisines_disliked
              dietary_restrictions price_range liked_place_ids disliked_place_ids)
    as (H1 & H2 & H3 & H4 & H5 & H6).
  destruct (save_preference_fetched (save db) user_id cuisines_liked cuisines_disliked
              dietary_restrictions price_range liked_place_ids disliked_place_ids)
    as (K1 & K2 & K3 & K4 & K5 & K6).
  subst before after again. fold (save db) in H1, H2, H3, H4, H5, H6.
  fold (save (save db)) in K1, K2, K3, K4, K5, K6.
  split; [|split].
  - rewrite H1, H2, H3, H4, H5, H6.
    repeat split; try apply upsert_list_merged. destruct price_range; reflexivity.
  - split; apply get_preferences_report.
  - rewrite K1, K2, K3, K4, K5, K6, H1, H2, H3, H4, H5, H6.
    repeat split; try apply upsert_list_again. destruct price_range; reflexivity.
Qed.

(** The scenario of the specification: liking Thai, then setting only the
    price range, leaves the liked cuisines as they were; saving the same
    list twice stores it once. *)
Example upsert_scenario :
  let save1 := snd (prefs.save_preference store.empty_db "user3"
                      (Some ["Thai"]) None None None None None) in
  let save2 := snd (prefs.save_preference save1 "user3" None None None (Some "$$") None None) in
  let save3 := snd (prefs.save_preference save2 "user3"
                      (Some ["Thai"]) None None None None None) in
  prefs.get_preferences save2 "user3"
  = prefs.report "user3" ["Thai"] [] [] (Some "$$") [] []
  /\ prefs.get_preferences save3 "user3" = prefs.get_preferences save2 "user3".
Proof. vm_compute. split; reflexivity. Qed.

(** An upsert for one user leaves the rows of the others alone. *)
Lemma save_preference_other_user (db : store.DB) (uid other : string)
    (cl cd dr : option (list string)) (pr : option string) (lp dp : option (list string)) :
  other <> uid ->
  store.first_Preference (snd (prefs.save_preference db uid cl cd dr pr lp dp)) other
  = store.first_Preference db other.
Proof.
  intros Hne. unfold prefs.save_preference, store.first_Preference.
  destruct (find (fun p => String.eqb (store.user_id p) uid) (store.preferences db))
    as [p|] eqn:Hfind; cbn [snd store.preferences].
  - pose proof (find_user_id _ _ _ Hfind) as Hp. subst uid.
    clear Hfind. induction (store.preferences db) as [|q rows IH]; [reflexivity|].
    cbn [store.update_Preference store.user_id].
    destruct (String.eqb_spec (store.user_id q) (store.user_id p)) as [Hq|Hq].
    + cbn [find store.user_id]. rewrite Hq.
      apply String.eqb_neq in Hne. rewrite String.eqb_sym in Hne.
      rewrite Hne. reflexivity.
    + cbn [find]. rewrite IH. reflexivity.
  - unfold store.insert_Preference. generalize (store.next_pk (store.preferences db)).
    intros k. clear Hfind.
    apply String.eqb_neq in Hne. rewrite String.eqb_sym in Hne.
    induction (store.preferences db) as [|q rows IH]; simpl.
    + rewrite Hne. reflexivity.
    + destruct (String.eqb (store.user_id q) other); [reflexivity|exact IH].
Qed.

(** C6, as the code has it: for a user without a stored record, the tool
    [get_preferences] returns (and does not raise) the dict that holds the
    user's identifier under [user_id] and, after it, the six all-empty
    defaults. *)
Theorem C6_unknown_user_default (w : World) (user_id : string) :
  store.first_Preference (db w) user_id = None ->
  let defaults :=
    VDict [("user_id", VStr user_id);
           ("cuisines_liked", VList []);
           ("cuisines_disliked", VList []);
           ("dietary_restrictions", VList []);
           ("price_range", VNone);
           ("liked_place_ids", VList []);
           ("disliked_place_ids", VList [])] in
  prefs.get_preferences (db w) user_id = defaults
  /\ _dispatch_tool _TOOL_DISPATCH "get_preferences" [("user_id", VStr user_id)] w
     = (Ok defaults, w).
Proof.
  intros Hnone defaults.
  assert (Hget : prefs.get_preferences (db w) user_id = defaults).
  { unfold prefs.get_preferences. rewrite Hnone. reflexivity. }
  split; [exact Hget|].
  unfold _dispatch_tool. simpl dict_get. unfold call_get_preferences.
  assert (Hargs : (do _ <~ check_keywords "get_preferences" ["user_id"] ["user_id"]
                             [("user_id", VStr user_id)];
                   required_arg as_str [("user_id", VStr user_id)] "user_id")
                  = Ok user_id) by reflexivity.
  rewrite Hargs, Hget. reflexivity.
Qed.

(** C6 as stated fails: the dict returned for a new user is not the
    six-field record, it starts with the [user_id] entry. *)
Lemma C6_counterexample :
  store.first_Preference store.empty_db "user_new" = None
  /\ prefs.get_preferences store.empty_db "user_new"
     <> VDict [("cuisines_liked", VList []);
               ("cuisines_disliked", VList []);
               ("dietary_restrictions", VList []);
               ("price_range", VNone);
               ("liked_place_ids", VList []);
               ("disliked_place_ids", VList [])]
  /\ dict_get
       (match prefs.get_preferences store.empty_db "user_new" with
        | VDict d => d
        | _ => []
        end) "user_id" = Some (VStr "user_new").
Proof.
  split; [reflexivity|]. split; [|reflexivity].
  vm_compute. intros H. discriminate H.
Qed.

Lemma C6_witness :
  store.first_Preference (db scenario.w0) "user_new" = None
  /\ prefs.get_preferences (db scenario.w0) "user_new"
     = prefs.report "user_new" [] [] [] None [] []
  /\ _dispatch_tool _TOOL_DISPATCH "get_preferences" [("user_id", VStr "user_new")] scenario.w0
     = (Ok (prefs.report "user_new" [] [] [] None [] []), scenario.w0).
Proof.
  split; [reflexivity|].
  exact (C6_unknown_user_default scenario.w0 "user_new" eq_refl).
Defined.

(* ===================================================================== *)
(** * The places search *)
(* ===================================================================== *)

Module places_facts.
Import places.

Lemma for_places_length (todo places found : list value) :
  for_places todo places = Ok found -> length found = length places + length todo.
Proof.
  revert places. induction todo as [|place todo IH]; intros places H; simpl in *.
  - inversion H. lia.
  - destruct (place_record place) as [r|e]; [|discriminate].
    simpl in H. apply IH in H. rewrite length_app in H. simpl in H. lia.
Qed.

Lemma search_restaurants_with_bound (client : Client) (query location : string)
    (radius : Z) (v : value) :
  search_restaurants_with client query location radius = Ok v ->
  exists records, v = VList records /\ length records <= 10.
Proof.
  unfold search_restaurants_with.
  destruct (geocode client location) as [[|first rest]|e]; simpl; try discriminate.
  - intros H. inversion H. exists []. split; [reflexivity|simpl; lia].
  - destruct (getitem first "geometry") as [geometry|e]; simpl; [|discriminate].
    destruct (getitem geometry "location") as [latlng|e]; simpl; [|discriminate].
    destruct (places_search client _ latlng radius "restaurant") as [results|e]; simpl;
      [|discriminate].
    destruct (dict_get_default results "results" (VList [])) as [| | | | |found| |];
      try discriminate.
    destruct (for_places (firstn 10 found) []) as [records|e] eqn:Hfor; simpl;
      [|discriminate].
    intros H. inversion H. exists records. split; [reflexivity|].
    apply for_places_length in Hfor. rewrite Hfor, length_firstn.
    change (length (@nil value)) with 0. lia.
Qed.

End places_facts.

(** C9: whenever [search_restaurants] returns, it returns a list of at
    most ten records; and once a client is at hand, a location that the
    geocoder does not know makes it return the empty list. *)
Theorem C9_search_results_bounded (env : places.Env) (_client : option places.Client)
    (query location : string) (radius : Z) :
  (forall v g,
      places.search_restaurants env _client query location radius = (Ok v, g) ->
      exists records, v = VList records /\ length records <= 10)
  /\ (forall client g,
        places._get_client env _client = (Ok client, g) ->
        places.geocode client location = Ok [] ->
        places.search_restaurants env _client query location radius = (Ok (VList []), g)).
Proof.
  split.
  - intros v g H. unfold places.search_restaurants in H.
    destruct (places._get_client env _client) as [[client|e] g'] eqn:Hc; [|discriminate].
    inversion H as [[Hv Hg]].
    eapply places_facts.search_restaurants_with_bound, Hv.
  - intros client g Hc Hgeo. unfold places.search_restaurants. rewrite Hc.
    unfold places.search_restaurants_with. rewrite Hgeo. reflexivity.
Qed.

Lemma C9_witness :
  (exists records,
      places.search_restaurants scenario.no_key (Some scenario.crowded)
        "ramen" "San Francisco, CA" 5000 = (Ok (VList records), Some scenario.crowded)
      /\ length records = 10)
  /\ places._get_client scenario.no_key (Some scenario.nowhere)
     = (Ok scenario.nowhere, Some scenario.nowhere)
  /\ places.geocode scenario.nowhere "Atlantis" = Ok []
  /\ places.search_restaurants scenario.no_key (Some scenario.nowhere) "ramen" "Atlantis" 5000
     = (Ok (VList []), Some scenario.nowhere).
Proof.
  split.
  - assert (H : exists v, places.search_restaurants scenario.no_key (Some scenario.crowded)
                            "ramen" "San Francisco, CA" 5000 = (Ok v, Some scenario.crowded)).
    { eexists. vm_compute. reflexivity. }
    destruct H as (v & H).
    destruct (proj1 (C9_search_results_bounded scenario.no_key (Some scenario.crowded)
                       "ramen" "San Francisco, CA" 5000) v _ H) as (records & -> & Hle).
    exists records. split; [exact H|].
    assert (Hv : fst (places.search_restaurants scenario.no_key (Some scenario.crowded)
                        "ramen" "San Francisco, CA" 5000) = Ok (VList records))
      by (rewrite H; reflexivity).
    vm_compute in Hv. inversion Hv. reflexivity.
  - split; [reflexivity|]. split; [reflexivity|].
    exact (proj2 (C9_search_results_bounded scenario.no_key (Some scenario.nowhere)
                    "ramen" "Atlantis" 5000) scenario.nowhere _ eq_refl eq_refl).
Defined.

(* ===================================================================== *)
(** * Further properties of the places tools *)
(* ===================================================================== *)

(** X1: A places client obtained once is the client of every later call of
    either tool: the global holds it, and neither the environment nor the
    constructor is consulted again. *)
Theorem X1_places_client_cached (env : places.Env) (g g' : option places.Client)
    (c : places.Client) :
  places._get_client env g = (Ok c, g') ->
  g' = Some c
  /\ forall env' query location radius place_id,
       places.search_restaurants env' g' query location radius
       = (places.search_restaurants_with c query location radius, g')
       /\ places.get_details env' g' place_id
          = (do r <~ places.place c place_id places.fields;
             Ok (dict_get_default r "result" (VDict [])), g').
Proof.
  unfold places._get_client. intros H.
  assert (Hg : g' = Some c).
  { destruct g as [c0|]; [inversion H; reflexivity|].
    destruct (places.GOOGLE_PLACES_API_KEY env) as [[|a k]|]; try discriminate H.
    destruct (places.googlemaps_Client env (String a k)) as [c0|e]; inversion H.
    reflexivity. }
  subst g'. split; [reflexivity|]. intros. split; reflexivity.
Qed.

Lemma X1_places_client_cached_witness :
  places._get_client scenario.with_key None
  = (Ok scenario.mock_places, Some scenario.mock_places)
  /\ places.search_restaurants scenario.no_key (Some scenario.mock_places) "ramen"
       "San Francisco, CA" 5000
     = (places.search_restaurants_with scenario.mock_places "ramen" "San Francisco, CA" 5000,
        Some scenario.mock_places).
Proof.
  split; [reflexivity|].
  destruct (X1_places_client_cached scenario.with_key None _ _ eq_refl) as [_ H].
  exact (proj1 (H scenario.no_key "ramen" "San Francisco, CA" 5000%Z "ChIJtest1")).
Defined.

(** X2: Without a cached client and with the API key unset or empty, both
    places tools raise the [RuntimeError] of [_get_client]; the constructor
    is not called and the global stays unset. *)
Theorem X2_places_tools_need_key (env : places.Env) (query location place_id : string)
    (radius : Z) :
  places.GOOGLE_PLACES_API_KEY env = None \/ places.GOOGLE_PLACES_API_KEY env = Some "" ->
  let missing :=
    Exc "RuntimeError" "GOOGLE_PLACES_API_KEY environment variable is not set" in
  places.search_restaurants env None query location radius = (Raise missing, None)
  /\ places.get_details env None place_id = (Raise missing, None).
Proof.
  intros Hkey missing.
  assert (Hc : places._get_client env None = (Raise missing, None)).
  { unfold places._get_client. destruct Hkey as [-> | ->]; reflexivity. }
  unfold places.search_restaurants, places.get_details. rewrite Hc. split; reflexivity.
Qed.

Lemma X2_places_tools_need_key_witness :
  (places.GOOGLE_PLACES_API_KEY scenario.empty_key = None
   \/ places.GOOGLE_PLACES_API_KEY scenario.empty_key = Some "")
  /\ places.search_restaurants scenario.empty_key None "ramen" "San Francisco, CA" 5000
     = (Raise scenario.no_api_key, None)
  /\ places.get_details scenario.empty_key None "ChIJtest1"
     = (Raise scenario.no_api_key, None).
Proof.
  split; [right; reflexivity|].
  exact (X2_places_tools_need_key scenario.empty_key "ramen" "San Francisco, CA" "ChIJtest1"
           5000 (or_intror eq_refl)).
Defined.

Module places_more.
Import places.

Lemma place_record_keys (place r : value) :
  place_record place = Ok r -> exists d, r = VDict d /\ map fst d = record_keys.
Proof.
  unfold place_record. destruct place as [| | | | | |p|]; try discriminate.
  destruct (dict_get_default p "geometry" (VDict [])) as [| | | | | |g|]; try discriminate.
  intros H. inversion H. eexists. split; reflexivity.
Qed.

Lemma for_places_records (todo places out : list value) :
  for_places todo places = Ok out ->
  exists new, out = places ++ new
              /\ Forall2 (fun place r => place_record place = Ok r) todo new.
Proof.
  revert places. induction todo as [|place todo IH]; intros places H; simpl in H.
  - inversion H. exists []. split; [symmetry; apply app_nil_r | constructor].
  - destruct (place_record place) as [r|e] eqn:Hr; [|discriminate].
    simpl in H. destruct (IH _ H) as (new & -> & Hnew).
    exists (r :: new). split; [rewrite <- app_assoc; reflexivity|].
    constructor; assumption.
Qed.

End places_more.



(* ===================================================================== *)
(** * Further properties of the preference store *)
(* ===================================================================== *)

Module prefs_more.
Import store prefs.

Lemma find_none_not_in {A : Type} (key : A -> string) (rows : list A) (uid : string) :
  find (fun r => String.eqb (key r) uid) rows = None -> ~ In uid (map key rows).
Proof.
  induction rows as [|r rows IH]; simpl; [tauto|].
  destruct (String.eqb (key r) uid) eqn:E; [discriminate|].
  intros H [Hin|Hin]; [|exact (IH H Hin)].
  apply String.eqb_neq in E. contradiction.
Qed.

Lemma find_some_found {A : Type} (key : A -> string) (rows : list A) (uid : string) :
  In uid (map key rows) -> find (fun r => String.eqb (key r) uid) rows <> None.
Proof.
  intros Hin Hnone. exact (find_none_not_in key rows uid Hnone Hin).
Qed.

Lemma find_app_left {A : Type} (f : A -> bool) (l k : list A) (x : A) :
  find f l = Some x -> find f (l ++ k) = Some x.
Proof.
  induction l as [|y l IH]; simpl; [discriminate|].
  destruct (f y); [trivial|exact IH].
Qed.

Lemma update_user_ids (rows : list Preference) (p : Preference) :
  map user_id (update_Preference rows p) = map user_id rows
  \/ ~ In (user_id p) (map user_id rows) /\ update_Preference rows p = rows.
Proof.
  induction rows as [|q rows IH]; simpl.
  - right. split; [tauto|reflexivity].
  - destruct (String.eqb (user_id q) (user_id p)) eqn:E.
    + apply String.eqb_eq in E. left. simpl. rewrite E. reflexivity.
    + apply String.eqb_neq in E. destruct IH as [IH|[Hn IH]].
      * left. simpl. rewrite IH. reflexivity.
      * right. split; [intros [H|H]; tauto|rewrite IH; reflexivity].
Qed.

Lemma update_keeps_user_ids (rows : list Preference) (p : Preference) :
  map user_id (update_Preference rows p) = map user_id rows.
Proof.
  destruct (update_user_ids rows p) as [H|[_ H]]; [exact H|rewrite H; reflexivity].
Qed.

Lemma NoDup_snoc (l : list string) (x : string) :
  NoDup l -> ~ In x l -> NoDup (l ++ [x]).
Proof.
  intros Hl Hx. apply NoDup_app. split; [exact Hl|]. split.
  - intros y Hy Hy'. apply list_elem_of_singleton in Hy'. subst y.
    apply Hx, list_elem_of_In, Hy.
  - apply NoDup_singleton.
Qed.

(** The rows of both tables after one call. *)
Lemma save_preference_users (db : DB) (uid : string)
    (cl cd dr : option (list string)) (pr : option string) (lp dp : option (list string)) :
  users (snd (save_preference db uid cl cd dr pr lp dp))
  = match get_User db uid with
    | Some _ => users db
    | None => users db ++ [ {| id := uid |} ]
    end.
Proof. reflexivity. Qed.

Lemma save_preference_user_ids (db : DB) (uid : string)
    (cl cd dr : option (list string)) (pr : option string) (lp dp : option (list string)) :
  map user_id (preferences (snd (save_preference db uid cl cd dr pr lp dp)))
  = match first_Preference db uid with
    | Some _ => map user_id (preferences db)
    | None => map user_id (preferences db) ++ [uid]
    end.
Proof.
  unfold save_preference. cbn [snd preferences].
  destruct (first_Preference db uid) as [p|] eqn:Hp.
  - apply update_keeps_user_ids.
  - unfold insert_Preference. rewrite map_app. reflexivity.
Qed.

Lemma save_preference_one_row (db : DB) (uid : string)
    (cl cd dr : option (list string)) (pr : option string) (lp dp : option (list string)) :
  one_row_per_user db ->
  one_row_per_user (snd (save_preference db uid cl cd dr pr lp dp)).
Proof.
  intros [Hu Hp]. split.
  - rewrite save_preference_users. destruct (get_User db uid) as [u|] eqn:Hg; [exact Hu|].
    rewrite map_app. apply NoDup_snoc; [exact Hu|].
    exact (find_none_not_in id (users db) uid Hg).
  - rewrite save_preference_user_ids.
    destruct (first_Preference db uid) as [p|] eqn:Hf; [exact Hp|].
    apply NoDup_snoc; [exact Hp|].
    exact (find_none_not_in user_id (preferences db) uid Hf).
Qed.

Lemma save_preference_keeps_users (db : DB) (uid other : string)
    (cl cd dr : option (list string)) (pr : option string) (lp dp : option (list string)) :
  get_User db other <> None ->
  get_User (snd (save_preference db uid cl cd dr pr lp dp)) other <> None.
Proof.
  intros H. unfold get_User. rewrite save_preference_users.
  destruct (get_User db uid); [exact H|].
  unfold get_User in H.
  destruct (find (fun u => String.eqb (id u) other) (users db)) as [u|] eqn:Hu;
    [|contradiction].
  rewrite (find_app_left _ _ _ _ Hu). discriminate.
Qed.

Lemma save_preference_registers (db : DB) (uid : string)
    (cl cd dr : option (list string)) (pr : option string) (lp dp : option (list string)) :
  let db' := snd (save_preference db uid cl cd dr pr lp dp) in
  get_User db' uid <> None /\ first_Preference db' uid <> None.
Proof.
  intros db'. split.
  - apply (find_some_found id). subst db'. rewrite save_preference_users.
    destruct (get_User db uid) as [u|] eqn:Hg.
    + unfold get_User in Hg. apply find_some in Hg. destruct Hg as [Hin He].
      apply String.eqb_eq in He. rewrite <- He. apply in_map, Hin.
    + rewrite map_app. apply in_or_app. right. left. reflexivity.
  - apply (find_some_found user_id). subst db'. rewrite save_preference_user_ids.
    destruct (first_Preference db uid) as [p|] eqn:Hf.
    + unfold first_Preference in Hf. apply find_some in Hf. destruct Hf as [Hin He].
      apply String.eqb_eq in He. rewrite <- He. apply in_map, Hin.
    + apply in_or_app. right. left. reflexivity.
Qed.

Lemma fetched_other_user (db : DB) (uid other : string)
    (cl cd dr : option (list string)) (pr : option string) (lp dp : option (list string))
    (field : Preference -> option (list string)) :
  other <> uid ->
  fetched (snd (save_preference db uid cl cd dr pr lp dp)) other field
  = fetched db other field.
Proof.
  intros Hne. unfold fetched. rewrite save_preference_other_user by exact Hne. reflexivity.
Qed.

Lemma elem_of_upsert_list (old : list string) (arg : option (list string)) (x : string) :
  x ∈ upsert_list old arg <-> x ∈ old \/ exists l, arg = Some l /\ x ∈ l.
Proof.
  destruct arg as [l|]; simpl.
  - rewrite elem_of_union_list. split.
    + intros [H|H]; [left; exact H|right; exists l; split; [reflexivity|exact H]].
    + intros [H|(l' & Hl & H)]; [left; exact H|right; inversion Hl; subst; exact H].
  - split; [intros H; left; exact H|].
    intros [H|(l' & Hl & _)]; [exact H|discriminate].
Qed.

Lemma save_fetched (db : DB) (uid : string) (a : Args)
    (field : Preference -> option (list string)) (arg : Args -> option (list string)) :
  fed_by field arg ->
  fetched (save db uid a) uid field = upsert_list (fetched db uid field) (arg a).
Proof.
  intros Hfed. unfold save.
  destruct (save_preference_fetched db uid (arg_cuisines_liked a) (arg_cuisines_disliked a)
              (arg_dietary_restrictions a) (arg_price_range a) (arg_liked_place_ids a)
              (arg_disliked_place_ids a)) as (H1 & H2 & H3 & H4 & H5 & _).
  destruct Hfed; assumption.
Qed.

Lemma save_all_fetched (uid : string)
    (field : Preference -> option (list string)) (arg : Args -> option (list string)) :
  fed_by field arg ->
  forall (history : list Args) (db : DB) (x : string),
    x ∈ fetched (save_all db uid history) uid field
    <-> x ∈ fetched db uid field
        \/ exists a l, In a history /\ arg a = Some l /\ x ∈ l.
Proof.
  intros Hfed. induction history as [|a history IH]; intros db x.
  - change (save_all db uid []) with db.
    split; [intros H; left; exact H|].
    intros [H|(a & l & [] & _)]. exact H.
  - change (save_all db uid (a :: history)) with (save_all (save db uid a) uid history).
    rewrite IH, (save_fetched db uid a field arg Hfed), elem_of_upsert_list.
    split.
    + intros [[H|(l & Hl & H)]|(b & l & Hb & Hl & H)].
      * left. exact H.
      * right. exists a, l. repeat split; [left; reflexivity|exact Hl|exact H].
      * right. exists b, l. repeat split; [right; exact Hb|exact Hl|exact H].
    + intros [H|(b & l & [Hb|Hb] & Hl & H)].
      * left. left. exact H.
      * subst b. left. right. exists l. split; assumption.
      * right. exists b, l. repeat split; assumption.
Qed.

Lemma save_all_price (uid : string) (history : list Args) (db : DB) :
  fetched_price (save_all db uid history) uid = last_price (fetched_price db uid) history.
Proof.
  revert db. induction history as [|a history IH]; intros db; [reflexivity|].
  change (save_all db uid (a :: history)) with (save_all (save db uid a) uid history).
  rewrite IH. unfold last_price. simpl. f_equal.
  unfold save.
  destruct (save_preference_fetched db uid (arg_cuisines_liked a) (arg_cuisines_disliked a)
              (arg_dietary_restrictions a) (arg_price_range a) (arg_liked_place_ids a)
              (arg_disliked_place_ids a)) as (_ & _ & _ & _ & _ & H).
  exact H.
Qed.

End prefs_more.

(** X4: One call of [save_preference] leaves the user registered in both
    tables, and never a second row for any user: a store with one row per
    user stays so. *)
Theorem X4_save_preference_one_row_per_user (db : store.DB) (user_id : string)
    (cuisines_liked cuisines_disliked dietary_restrictions : option (list string))
    (price_range : option string)
    (liked_place_ids disliked_place_ids : option (list string)) :
  let db' := snd (prefs.save_preference db user_id cuisines_liked cuisines_disliked
                    dietary_restrictions price_range liked_place_ids disliked_place_ids) in
  store.get_User db' user_id <> None
  /\ store.first_Preference db' user_id <> None
  /\ (store.one_row_per_user db -> store.one_row_per_user db').
Proof.
  intros db'.
  destruct (prefs_more.save_preference_registers db user_id cuisines_liked cuisines_disliked
              dietary_restrictions price_range liked_place_ids disliked_place_ids)
    as [Hu Hp].
  split; [exact Hu|]. split; [exact Hp|].
  apply prefs_more.save_preference_one_row.
Qed.

Lemma X4_save_preference_one_row_per_user_witness :
  let db1 := prefs.save scenario.w0.(db) "u1"
               {| prefs.arg_cuisines_liked := Some ["thai"];
                  prefs.arg_cuisines_disliked := None;
                  prefs.arg_dietary_restrictions := None;
                  prefs.arg_price_range := Some "$$";
                  prefs.arg_liked_place_ids := None;
                  prefs.arg_disliked_place_ids := None |} in
  store.one_row_per_user db1
  /\ store.one_row_per_user
       (snd (prefs.save_preference db1 "u1" None (Some ["sushi"]) None None None None)).
Proof.
  intros db1.
  assert (H1 : store.one_row_per_user db1).
  { split; vm_compute; apply NoDup_singleton. }
  split; [exact H1|].
  exact (proj2 (proj2 (X4_save_preference_one_row_per_user db1 "u1" None (Some ["sushi"]) None
                         None None None)) H1).
Defined.

(** X5: A call of [save_preference] for one user changes nothing of what
    [get_preferences] reports for any other user. *)
Theorem X5_save_preference_leaves_others (db : store.DB) (user_id other : string)
    (cuisines_liked cuisines_disliked dietary_restrictions : option (list string))
    (price_range : option string)
    (liked_place_ids disliked_place_ids : option (list string)) :
  other <> user_id ->
  prefs.get_preferences
    (snd (prefs.save_preference db user_id cuisines_liked cuisines_disliked
            dietary_restrictions price_range liked_place_ids disliked_place_ids)) other
  = prefs.get_preferences db other.
Proof.
  intros Hne. unfold prefs.get_preferences.
  rewrite save_preference_other_user by exact Hne. reflexivity.
Qed.

Lemma X5_save_preference_leaves_others_witness :
  "u2" <> "u1"
  /\ prefs.get_preferences
       (snd (prefs.save_preference store.empty_db "u1" (Some ["thai"]) None None (Some "$$")
               None None)) "u2"
     = prefs.get_preferences store.empty_db "u2".
Proof.
  assert (Hne : "u2" <> "u1") by discriminate.
  split; [exact Hne|].
  exact (X5_save_preference_leaves_others store.empty_db "u1" "u2" (Some ["thai"]) None None
           (Some "$$") None None Hne).
Defined.

(** X6: After any history of calls for one user, each reported list holds the
    elements it held before and those of every list passed for it, and
    nothing else, whatever the order of the calls; the price range is that
    of the last call that passed one. *)
Theorem X6_saved_lists_accumulate (db : store.DB) (user_id : string)
    (history : list prefs.Args) (x : string) :
  let db' := prefs.save_all db user_id history in
  let passed (arg : prefs.Args -> option (list string)) :=
    exists a l, In a history /\ arg a = Some l /\ x ∈ l in
  (x ∈ prefs.fetched db' user_id store.cuisines_liked
   <-> x ∈ prefs.fetched db user_id store.cuisines_liked
       \/ passed prefs.arg_cuisines_liked)
  /\ (x ∈ prefs.fetched db' user_id store.cuisines_disliked
      <-> x ∈ prefs.fetched db user_id store.cuisines_disliked
          \/ passed prefs.arg_cuisines_disliked)
  /\ (x ∈ prefs.fetched db' user_id store.dietary_restrictions
      <-> x ∈ prefs.fetched db user_id store.dietary_restrictions
          \/ passed prefs.arg_dietary_restrictions)
  /\ (x ∈ prefs.fetched db' user_id store.liked_place_ids
      <-> x ∈ prefs.fetched db user_id store.liked_place_ids
          \/ passed prefs.arg_liked_place_ids)
  /\ (x ∈ prefs.fetched db' user_id store.disliked_place_ids
      <-> x ∈ prefs.fetched db user_id store.disliked_place_ids
          \/ passed prefs.arg_disliked_place_ids)
  /\ prefs.fetched_price db' user_id
     = prefs.last_price (prefs.fetched_price db user_id) history.
Proof.
  intros db' passed.
  pose proof (fun field arg H =>
                prefs_more.save_all_fetched user_id field arg H history db x) as Hacc.
  split; [apply Hacc; constructor|].
  split; [apply Hacc; constructor|].
  split; [apply Hacc; constructor|].
  split; [apply Hacc; constructor|].
  split; [apply Hacc; constructor|].
  apply prefs_more.save_all_price.
Qed.

Lemma X6_saved_lists_accumulate_witness :
  let history :=
    [ {| prefs.arg_cuisines_liked := Some ["thai"]; prefs.arg_cuisines_disliked := None;
         prefs.arg_dietary_restrictions := None; prefs.arg_price_range := Some "$";
         prefs.arg_liked_place_ids := None; prefs.arg_disliked_place_ids := None |};
      {| prefs.arg_cuisines_liked := Some ["ramen"; "thai"];
         prefs.arg_cuisines_disliked := None;
         prefs.arg_dietary_restrictions := None; prefs.arg_price_range := None;
         prefs.arg_liked_place_ids := None; prefs.arg_disliked_place_ids := None |} ] in
  "ramen" ∈ prefs.fetched (prefs.save_all store.empty_db "u1" history) "u1"
            store.cuisines_liked
  /\ prefs.fetched_price (prefs.save_all store.empty_db "u1" history) "u1" = Some "$".
Proof.
  intros history.
  destruct (X6_saved_lists_accumulate store.empty_db "u1" history "ramen")
    as (Hcl & _ & _ & _ & _ & Hprice).
  split; [|exact Hprice].
  apply Hcl. right. eexists _, ["ramen"; "thai"].
  split; [right; left; reflexivity|]. split; [reflexivity|].
  apply list_elem_of_here.
Defined.

(* ===================================================================== *)
(** * Further properties of the registered tools *)
(* ===================================================================== *)

Module tools_more.
Import agent.

Lemma unexpected_keyword_found (params : list string) (inputs : dict) (k : string) :
  In k (map fst inputs) -> ~ In k params ->
  exists k', unexpected_keyword params inputs = Some k'.
Proof.
  intros Hin Hout. unfold unexpected_keyword.
  destruct (find _ (map fst inputs)) as [k'|] eqn:Hf; [exists k'; reflexivity|].
  exfalso. pose proof (List.find_none _ _ Hf k Hin) as Hk. simpl in Hk.
  apply negb_false_iff, List.existsb_exists in Hk. destruct Hk as (p & Hp & He).
  apply String.eqb_eq in He. subst p. exact (Hout Hp).
Qed.

Lemma missing_arguments_found (required : list string) (inputs : dict) (k : string) :
  In k required -> ~ In k (map fst inputs) -> missing_arguments required inputs <> [].
Proof.
  intros Hin Hout Hnil.
  assert (Hk : In k (missing_arguments required inputs)).
  { unfold missing_arguments. apply List.filter_In. split; [exact Hin|].
    apply negb_true_iff. destruct (existsb (String.eqb k) (map fst inputs)) eqn:E;
      [|reflexivity].
    apply List.existsb_exists in E. destruct E as (p & Hp & He).
    apply String.eqb_eq in He. subst p. contradiction. }
  rewrite Hnil in Hk. exact Hk.
Qed.

(** Binding fails with a [TypeError] as soon as a keyword is no parameter
    or a required parameter has no keyword. *)
Lemma check_keywords_raises (fname : string) (params required : list string)
    (inputs : dict) :
  (exists k, In k (map fst inputs) /\ ~ In k params)
  \/ (exists k, In k required /\ ~ In k (map fst inputs)) ->
  exists msg, check_keywords fname params required inputs = Raise (Exc "TypeError" msg).
Proof.
  intros Hbad. unfold check_keywords.
  destruct (unexpected_keyword params inputs) as [k'|] eqn:Hu; [eexists; reflexivity|].
  destruct Hbad as [(k & Hin & Hout)|(k & Hin & Hout)].
  - destruct (unexpected_keyword_found params inputs k Hin Hout) as [k' Hk'].
    rewrite Hk' in Hu. discriminate.
  - pose proof (missing_arguments_found required inputs k Hin Hout) as Hm.
    destruct (missing_arguments required inputs) as [|a [|b l]];
      [contradiction|eexists; reflexivity|eexists; reflexivity].
Qed.

(** The four entries of the table, by name. *)
Lemma registered (name : string) (fn : dict -> World -> result value * World) :
  dict_get _TOOL_DISPATCH name = Some fn ->
  name = "search_restaurants" /\ fn = call_search_restaurants
  \/ name = "get_details" /\ fn = call_get_details
  \/ name = "save_preference" /\ fn = call_save_preference
  \/ name = "get_preferences" /\ fn = call_get_preferences.
Proof.
  unfold _TOOL_DISPATCH. cbn [dict_get].
  destruct (String.eqb "search_restaurants" name) eqn:E1;
    [apply String.eqb_eq in E1; intros H; inversion H; subst; intuition reflexivity|].
  destruct (String.eqb "get_details" name) eqn:E2;
    [apply String.eqb_eq in E2; intros H; inversion H; subst; intuition reflexivity|].
  destruct (String.eqb "save_preference" name) eqn:E3;
    [apply String.eqb_eq in E3; intros H; inversion H; subst; intuition reflexivity|].
  destruct (String.eqb "get_preferences" name) eqn:E4;
    [apply String.eqb_eq in E4; intros H; inversion H; subst; intuition reflexivity|].
  discriminate.
Qed.

Lemma signed (name : string) (params required : list string) :
  dict_get signatures name = Some (params, required) ->
  exists fn, dict_get _TOOL_DISPATCH name = Some fn
    /\ forall inputs w e,
         check_keywords name params required inputs = Raise e ->
         fn inputs w = (Raise e, w).
Proof.
  unfold signatures, _TOOL_DISPATCH. cbn [dict_get].
  destruct (String.eqb "search_restaurants" name) eqn:E1.
  { apply String.eqb_eq in E1. subst name. intros H. inversion H. subst.
    eexists. split; [reflexivity|]. intros inputs w e He.
    unfold call_search_restaurants. rewrite He. reflexivity. }
  destruct (String.eqb "get_details" name) eqn:E2.
  { apply String.eqb_eq in E2. subst name. intros H. inversion H. subst.
    eexists. split; [reflexivity|]. intros inputs w e He.
    unfold call_get_details. rewrite He. reflexivity. }
  destruct (String.eqb "save_preference" name) eqn:E3.
  { apply String.eqb_eq in E3. subst name. intros H. inversion H. subst.
    eexists. split; [reflexivity|]. intros inputs w e He.
    unfold call_save_preference. rewrite He. reflexivity. }
  destruct (String.eqb "get_preferences" name) eqn:E4.
  { apply String.eqb_eq in E4. subst name. intros H. inversion H. subst.
    eexists. split; [reflexivity|]. intros inputs w e He.
    unfold call_get_preferences. rewrite He. reflexivity. }
  discriminate.
Qed.

Lemma with_client_same (w : World) : with_client w (places_client w) = w.
Proof. destruct w. reflexivity. Qed.

End tools_more.

(** X7: A request for a registered tool whose arguments do not bind, because a
    keyword is no parameter of the callable or a required parameter is
    missing, raises [TypeError] before the tool runs: the state of the
    tools is untouched, and the loop records the request as failed. *)
Theorem X7_unbound_arguments_are_type_errors (name : string) (params required : list string)
    (id : string) (inputs : dict) (w : World) :
  dict_get signatures name = Some (params, required) ->
  (exists k, In k (map fst inputs) /\ ~ In k params)
  \/ (exists k, In k required /\ ~ In k (map fst inputs)) ->
  exists msg out,
    _dispatch_tool _TOOL_DISPATCH name inputs w = (Raise (Exc "TypeError" msg), w)
    /\ execute _TOOL_DISPATCH {| tu_id := id; tu_name := name; tu_input := inputs |} w
       = (Ok (out, true), w)
    /\ json.loads out = Some (VDict [("error", VStr msg)]).
Proof.
  intros Hsig Hbad.
  destruct (tools_more.signed name params required Hsig) as (fn & Hfn & Hraise).
  destruct (tools_more.check_keywords_raises name params required inputs Hbad)
    as [msg Hmsg].
  assert (Hd : _dispatch_tool _TOOL_DISPATCH name inputs w = (Raise (Exc "TypeError" msg), w)).
  { unfold _dispatch_tool. rewrite Hfn. apply Hraise, Hmsg. }
  destruct (execute_raised _TOOL_DISPATCH
              {| tu_id := id; tu_name := name; tu_input := inputs |} w w _ Hd)
    as (out & He & Hl).
  exists msg, out. repeat split; assumption.
Qed.

Lemma X7_unbound_arguments_are_type_errors_witness :
  exists msg out,
    _dispatch_tool _TOOL_DISPATCH "get_details" [("place", VStr "ChIJtest1")] scenario.w_mock
    = (Raise (Exc "TypeError" msg), scenario.w_mock)
    /\ execute _TOOL_DISPATCH
         {| tu_id := "toolu_01"; tu_name := "get_details";
            tu_input := [("place", VStr "ChIJtest1")] |} scenario.w_mock
       = (Ok (out, true), scenario.w_mock)
    /\ json.loads out = Some (VDict [("error", VStr msg)]).
Proof.
  apply (X7_unbound_arguments_are_type_errors "get_details" ["place_id"] ["place_id"]
           "toolu_01" [("place", VStr "ChIJtest1")] scenario.w_mock eq_refl).
  left. exists "place". split; [left; reflexivity|].
  intros [H|[]]. discriminate H.
Defined.

Module calls.
Import agent.

(** The two places tools called with well-formed arguments. *)
Lemma call_search_restaurants_bound (query location : string) (w : World) :
  call_search_restaurants [("query", VStr query); ("location", VStr location)] w
  = (let '(r, g) := places.search_restaurants (env w) (places_client w) query location 5000 in
     (r, with_client w g)).
Proof. reflexivity. Qed.

Lemma call_get_details_bound (place_id : string) (w : World) :
  call_get_details [("place_id", VStr place_id)] w
  = (let '(r, g) := places.get_details (env w) (places_client w) place_id in
     (r, with_client w g)).
Proof. reflexivity. Qed.

Lemma dict_get_snoc {A : Type} (d : list (string * A)) (k0 : string) (v : A) (k : string) :
  dict_get (d ++ [(k0, v)]) k
  = match dict_get d k with
    | Some x => Some x
    | None => if String.eqb k0 k then Some v else None
    end.
Proof.
  induction d as [|[k' v'] d IH]; simpl; [reflexivity|].
  destruct (String.eqb k' k); [reflexivity|exact IH].
Qed.

Lemma unexpected_keyword_snoc (params : list string) (inputs : dict) (k0 : string)
    (v : value) :
  existsb (String.eqb k0) params = true ->
  unexpected_keyword params (inputs ++ [(k0, v)]) = unexpected_keyword params inputs.
Proof.
  intros Hk. unfold unexpected_keyword. induction inputs as [|[k' v'] inputs IH]; simpl.
  - rewrite Hk. reflexivity.
  - destruct (negb (existsb (String.eqb k') params)); [reflexivity|exact IH].
Qed.

Lemma keys_snoc (inputs : dict) (k0 k : string) (v : value) :
  String.eqb k k0 = false ->
  existsb (String.eqb k) (map fst (inputs ++ [(k0, v)]))
  = existsb (String.eqb k) (map fst inputs).
Proof.
  intros Hk. rewrite map_app, existsb_app. simpl. rewrite Hk. rewrite !orb_false_r.
  reflexivity.
Qed.

Lemma check_keywords_radius (inputs : dict) (v : value) :
  check_keywords "search_restaurants" ["query"; "location"; "radius"] ["query"; "location"]
    (inputs ++ [("radius", v)])
  = check_keywords "search_restaurants" ["query"; "location"; "radius"]
      ["query"; "location"] inputs.
Proof.
  unfold check_keywords. rewrite unexpected_keyword_snoc by reflexivity.
  unfold missing_arguments. cbn [List.filter].
  rewrite !keys_snoc by reflexivity. reflexivity.
Qed.

Lemma required_arg_snoc {A : Type} (decode : value -> option A) (inputs : dict)
    (k0 k : string) (v : value) :
  String.eqb k0 k = false ->
  required_arg decode (inputs ++ [(k0, v)]) k = required_arg decode inputs k.
Proof.
  intros Hk. unfold required_arg. rewrite dict_get_snoc, Hk.
  destruct (dict_get inputs k); reflexivity.
Qed.

Lemma places_client_kept (e : places.Env) (c : places.Client) :
  places._get_client e (Some c) = (Ok c, Some c).
Proof. reflexivity. Qed.

Lemma search_restaurants_global (e : places.Env) (g : option places.Client)
    (query location : string) (radius : Z) (c : places.Client) :
  g = Some c ->
  snd (places.search_restaurants e g query location radius) = Some c.
Proof. intros ->. reflexivity. Qed.

Lemma get_details_global (e : places.Env) (g : option places.Client)
    (place_id : string) (c : places.Client) :
  g = Some c -> snd (places.get_details e g place_id) = Some c.
Proof. intros ->. reflexivity. Qed.

(** What each callable may change. *)
Lemma call_search_restaurants_frame (inputs : dict) (w : World) :
  let w' := snd (call_search_restaurants inputs w) in
  env w' = env w /\ db w' = db w
  /\ forall c, places_client w = Some c -> places_client w' = Some c.
Proof.
  unfold call_search_restaurants. cbv zeta.
  match goal with
  | |- context [match ?a with Ok _ => _ | Raise _ => _ end] =>
      destruct a as [[[query location] radius]|e]
  end; [|simpl; auto].
  pose proof (search_restaurants_global (env w) (places_client w) query location radius)
    as Hg.
  destruct (places.search_restaurants (env w) (places_client w) query location radius)
    as [r g].
  simpl in *. auto.
Qed.

Lemma call_get_details_frame (inputs : dict) (w : World) :
  let w' := snd (call_get_details inputs w) in
  env w' = env w /\ db w' = db w
  /\ forall c, places_client w = Some c -> places_client w' = Some c.
Proof.
  unfold call_get_details. cbv zeta.
  match goal with
  | |- context [match ?a with Ok _ => _ | Raise _ => _ end] =>
      destruct a as [place_id|e]
  end; [|simpl; auto].
  pose proof (get_details_global (env w) (places_client w) place_id) as Hg.
  destruct (places.get_details (env w) (places_client w) place_id) as [r g].
  simpl in *. auto.
Qed.

Lemma call_save_preference_frame (inputs : dict) (w : World) :
  let w' := snd (call_save_preference inputs w) in
  env w' = env w /\ places_client w' = places_client w
  /\ (db w' = db w
      \/ exists uid cl cd dr pr lp dp,
           db w' = snd (prefs.save_preference (db w) uid cl cd dr pr lp dp)).
Proof.
  unfold call_save_preference. cbv zeta.
  match goal with
  | |- context [match ?a with Ok _ => _ | Raise _ => _ end] =>
      destruct a as [[[[[[[uid cl] cd] dr] pr] lp] dp]|e]
  end; [|simpl; auto].
  destruct (prefs.save_preference (db w) uid cl cd dr pr lp dp) as [r d] eqn:Hs.
  split; [reflexivity|]. split; [reflexivity|].
  right. exists uid, cl, cd, dr, pr, lp, dp. rewrite Hs. reflexivity.
Qed.

Lemma call_get_preferences_frame (inputs : dict) (w : World) :
  snd (call_get_preferences inputs w) = w.
Proof.
  unfold call_get_preferences. cbv zeta.
  match goal with
  | |- context [match ?a with Ok _ => _ | Raise _ => _ end] => destruct a
  end; reflexivity.
Qed.

Lemma keeps_refl (w : World) : keeps w w.
Proof.
  unfold keeps. split; [reflexivity|]. split; [auto|]. split; [auto|]. split; auto.
Qed.

Lemma keeps_trans (a b c : World) : keeps a b -> keeps b c -> keeps a c.
Proof.
  unfold keeps. intros (E1 & C1 & U1 & R1 & F1) (E2 & C2 & U2 & R2 & F2).
  split; [congruence|]. split; [auto|]. split; [auto|]. split; [auto|].
  intros uid field x Hf Hx. eauto.
Qed.

Lemma keeps_same_db (a b : World) :
  env b = env a -> db b = db a ->
  (forall c, places_client a = Some c -> places_client b = Some c) ->
  keeps a b.
Proof.
  intros He Hd Hc. unfold keeps. rewrite Hd.
  split; [exact He|]. split; [exact Hc|]. split; [auto|]. split; auto.
Qed.

Lemma save_preference_grows (d : store.DB) (uid : string)
    (cl cd dr : option (list string)) (pr : option string) (lp dp : option (list string))
    (other : string) (field : store.Preference -> option (list string)) (x : string) :
  In field [store.cuisines_liked; store.cuisines_disliked; store.dietary_restrictions;
            store.liked_place_ids; store.disliked_place_ids] ->
  x ∈ prefs.fetched d other field ->
  x ∈ prefs.fetched (snd (prefs.save_preference d uid cl cd dr pr lp dp)) other field.
Proof.
  intros Hf Hx. destruct (String.eqb other uid) eqn:E.
  - apply String.eqb_eq in E. subst other.
    destruct (save_preference_fetched d uid cl cd dr pr lp dp)
      as (H1 & H2 & H3 & H4 & H5 & _).
    simpl in Hf.
    destruct Hf as [<-|[<-|[<-|[<-|[<-|[]]]]]];
      [rewrite H1|rewrite H2|rewrite H3|rewrite H4|rewrite H5];
      apply prefs_more.elem_of_upsert_list; left; exact Hx.
  - apply String.eqb_neq in E. rewrite prefs_more.fetched_other_user by exact E. exact Hx.
Qed.

Lemma save_preference_keeps (w w' : World) (uid : string)
    (cl cd dr : option (list string)) (pr : option string) (lp dp : option (list string)) :
  env w' = env w -> places_client w' = places_client w ->
  db w' = snd (prefs.save_preference (db w) uid cl cd dr pr lp dp) ->
  keeps w w'.
Proof.
  intros He Hc Hd. unfold keeps. rewrite Hd, Hc.
  split; [exact He|]. split; [auto|]. split; [|split].
  - intros other. apply prefs_more.save_preference_keeps_users.
  - apply prefs_more.save_preference_one_row.
  - intros other field x. apply save_preference_grows.
Qed.

(** Every registered callable keeps what [keeps] lists. *)
Lemma registered_keeps (name : string) (fn : dict -> World -> result value * World)
    (inputs : dict) (w : World) :
  dict_get _TOOL_DISPATCH name = Some fn -> keeps w (snd (fn inputs w)).
Proof.
  intros Hfn.
  destruct (tools_more.registered name fn Hfn)
    as [[_ ->]|[[_ ->]|[[_ ->]|[_ ->]]]].
  - destruct (call_search_restaurants_frame inputs w) as (He & Hd & Hc).
    apply keeps_same_db; assumption.
  - destruct (call_get_details_frame inputs w) as (He & Hd & Hc).
    apply keeps_same_db; assumption.
  - destruct (call_save_preference_frame inputs w)
      as (He & Hc & [Hd|(uid & cl & cd & dr & pr & lp & dp & Hd)]).
    + apply keeps_same_db; [assumption|assumption|]. rewrite Hc. auto.
    + exact (save_preference_keeps _ _ uid cl cd dr pr lp dp He Hc Hd).
  - rewrite call_get_preferences_frame. apply keeps_refl.
Qed.

End calls.

(** X8: Finding nothing is no error.  A location that geocoding does not know
    gives the empty list without any search, and a place that the provider
    answers without a "result" gives the empty dict; the loop serializes
    both and records the request as served. *)
Theorem X8_nothing_found_is_no_error (w : World) (c : places.Client)
    (g : option places.Client) (id query location place_id : string) :
  places._get_client (env w) (places_client w) = (Ok c, g) ->
  (places.geocode c location = Ok [] ->
   execute _TOOL_DISPATCH
     {| tu_id := id; tu_name := "search_restaurants";
        tu_input := [("query", VStr query); ("location", VStr location)] |} w
   = (Ok ("[]", false), with_client w g))
  /\ (forall r, places.place c place_id places.fields = Ok r ->
                dict_get r "result" = None ->
                execute _TOOL_DISPATCH
                  {| tu_id := id; tu_name := "get_details";
                     tu_input := [("place_id", VStr place_id)] |} w
                = (Ok ("{}", false), with_client w g)).
Proof.
  intros Hc. split.
  - intros Hgeo.
    assert (Hd : _dispatch_tool _TOOL_DISPATCH "search_restaurants"
                   [("query", VStr query); ("location", VStr location)] w
                 = (Ok (VList []), with_client w g)).
    { unfold _dispatch_tool.
      change (dict_get _TOOL_DISPATCH "search_restaurants")
        with (Some call_search_restaurants).
      cbv beta iota. rewrite calls.call_search_restaurants_bound.
      unfold places.search_restaurants. rewrite Hc.
      unfold places.search_restaurants_with. rewrite Hgeo. reflexivity. }
    unfold execute. cbn [tu_name tu_input]. rewrite Hd. reflexivity.
  - intros r Hr Hnone.
    assert (Hd : _dispatch_tool _TOOL_DISPATCH "get_details" [("place_id", VStr place_id)] w
                 = (Ok (VDict []), with_client w g)).
    { unfold _dispatch_tool.
      change (dict_get _TOOL_DISPATCH "get_details") with (Some call_get_details).
      cbv beta iota. rewrite calls.call_get_details_bound.
      unfold places.get_details. rewrite Hc, Hr.
      cbv beta iota delta [bind dict_get_default]. rewrite Hnone. reflexivity. }
    unfold execute. cbn [tu_name tu_input]. rewrite Hd. reflexivity.
Qed.

Lemma X8_nothing_found_is_no_error_witness :
  let w := {| db := store.empty_db; env := scenario.no_key;
              places_client := Some scenario.nowhere |} in
  execute _TOOL_DISPATCH
    {| tu_id := "toolu_01"; tu_name := "search_restaurants";
       tu_input := [("query", VStr "ramen"); ("location", VStr "Atlantis")] |} w
  = (Ok ("[]", false), w)
  /\ execute _TOOL_DISPATCH
       {| tu_id := "toolu_01"; tu_name := "get_details";
          tu_input := [("place_id", VStr "ChIJnone")] |} w
     = (Ok ("{}", false), w).
Proof.
  intros w.
  destruct (X8_nothing_found_is_no_error w scenario.nowhere (Some scenario.nowhere)
              "toolu_01" "ramen" "Atlantis" "ChIJnone" eq_refl) as [Hs Hd].
  split; [exact (Hs eq_refl)|exact (Hd [] eq_refl eq_refl)].
Defined.

(** X9: A search request without [radius] is the request with [radius] 5000,
    whatever else it carries. *)
Theorem X9_radius_defaults_to_5000 (inputs : dict) (w : World) :
  dict_get inputs "radius" = None ->
  _dispatch_tool _TOOL_DISPATCH "search_restaurants" inputs w
  = _dispatch_tool _TOOL_DISPATCH "search_restaurants" (inputs ++ [("radius", VInt 5000)]) w.
Proof.
  intros Hr. unfold _dispatch_tool.
  change (dict_get _TOOL_DISPATCH "search_restaurants") with (Some call_search_restaurants).
  cbv beta iota. unfold call_search_restaurants.
  rewrite calls.check_keywords_radius, !calls.required_arg_snoc by reflexivity.
  rewrite Hr.
  replace (dict_get (inputs ++ [("radius", VInt 5000)]) "radius") with (Some (VInt 5000))
    by (rewrite calls.dict_get_snoc, Hr; reflexivity).
  unfold required_arg at 5.
  rewrite calls.dict_get_snoc, Hr. reflexivity.
Qed.

Lemma X9_radius_defaults_to_5000_witness :
  _dispatch_tool _TOOL_DISPATCH "search_restaurants"
    [("query", VStr "ramen"); ("location", VStr "San Francisco, CA")] scenario.w_mock
  = _dispatch_tool _TOOL_DISPATCH "search_restaurants"
      ([("query", VStr "ramen"); ("location", VStr "San Francisco, CA")]
         ++ [("radius", VInt 5000)]) scenario.w_mock.
Proof.
  exact (X9_radius_defaults_to_5000
           [("query", VStr "ramen"); ("location", VStr "San Francisco, CA")]
           scenario.w_mock eq_refl).
Defined.

(** X10: Each tool touches its own part of the state only: none changes the
    environment, only [save_preference] writes to the database, only the
    two places tools set the cached places client, and none replaces a
    client that is cached. *)
Theorem X10_tools_touch_their_own_state (name : string) (inputs : dict) (w : World) :
  let w' := snd (_dispatch_tool _TOOL_DISPATCH name inputs w) in
  env w' = env w
  /\ (name <> "save_preference" -> db w' = db w)
  /\ (name <> "search_restaurants" -> name <> "get_details" ->
      places_client w' = places_client w)
  /\ (forall c, places_client w = Some c -> places_client w' = Some c).
Proof.
  unfold _dispatch_tool.
  destruct (dict_get _TOOL_DISPATCH name) as [fn|] eqn:Hfn; [|simpl; auto].
  destruct (tools_more.registered name fn Hfn)
    as [[-> ->]|[[-> ->]|[[-> ->]|[-> ->]]]]; cbv zeta.
  - destruct (calls.call_search_restaurants_frame inputs w) as (He & Hd & Hc).
    repeat split; auto. intros H; contradiction.
  - destruct (calls.call_get_details_frame inputs w) as (He & Hd & Hc).
    repeat split; auto. intros _ H; contradiction.
  - destruct (calls.call_save_preference_frame inputs w) as (He & Hc & _).
    repeat split; auto; [intros H; contradiction|]. rewrite Hc. auto.
  - rewrite calls.call_get_preferences_frame. repeat split; auto.
Qed.

Lemma X10_tools_touch_their_own_state_witness :
  let w' := snd (_dispatch_tool _TOOL_DISPATCH "get_preferences" [("user_id", VStr "u1")]
                   scenario.w_mock) in
  db w' = db scenario.w_mock /\ places_client w' = places_client scenario.w_mock.
Proof.
  intros w'.
  destruct (X10_tools_touch_their_own_state "get_preferences" [("user_id", VStr "u1")]
              scenario.w_mock) as (_ & Hd & Hc & _).
  split; [apply Hd; discriminate|apply Hc; discriminate].
Defined.

(* ===================================================================== *)
(** * Further properties of the loop *)
(* ===================================================================== *)

Module loop_more.
Import agent.

Section Preserved.
Context {W : Type}.
Variable registry : list (string * (dict -> W -> result value * W)).
Variable client : Client.
Variable R : W -> W -> Prop.
Hypothesis R_refl : forall w, R w w.
Hypothesis R_trans : forall a b c, R a b -> R b c -> R a c.
Hypothesis R_tools :
  forall name fn inputs w, dict_get registry name = Some fn -> R w (snd (fn inputs w)).

Lemma dispatch_preserves (name : string) (inputs : dict) (w : W) :
  R w (snd (_dispatch_tool registry name inputs w)).
Proof.
  unfold _dispatch_tool. destruct (dict_get registry name) as [fn|] eqn:Hfn.
  - exact (R_tools name fn inputs w Hfn).
  - apply R_refl.
Qed.

Lemma served_preserves (w w' : W) (tus : list ToolUse) (entries : list LogEntry)
    (results : list ToolResult) :
  served registry w tus entries results w' -> R w w'.
Proof.
  induction 1 as [w|w tu out flag w1 tus entries results w2 He _ IH]; [apply R_refl|].
  apply (R_trans _ w1); [|exact IH].
  destruct (execute_total registry tu w) as (out' & flag' & He' & _).
  rewrite He' in He. inversion He. subst. apply dispatch_preserves.
Qed.

Lemma loop_preserves (fuel : nat) (st : State) :
  R (world st) (snd (loop registry client fuel st)).
Proof.
  revert st. induction fuel as [|fuel IH]; intros st; [apply R_refl|].
  rewrite loop_S. pose proof (cycle_inv registry client st) as Hc.
  destruct (cycle registry client st) as [r|st'|e w].
  - apply R_refl.
  - destruct Hc as (resp & entries & results & _ & _ & _ & Hs & _).
    apply (R_trans _ (world st')); [exact (served_preserves _ _ _ _ _ Hs)|apply IH].
  - destruct Hc as [_ ->]. apply R_refl.
Qed.

End Preserved.

(** The transcript across tool cycles. *)
Lemma cycles_transcript {W : Type}
    (registry : list (string * (dict -> W -> result value * W))) (client : Client)
    (n : nat) (st st' : State) (tus : list ToolUse) :
  cycles registry client n st tus st' ->
  exists turns, messages st' = messages st ++ turns
                /\ length turns = 2 * n /\ paired turns.
Proof.
  induction 1 as [st|n st resp st1 tus st2 Hresp Hcycle _ IH].
  - exists []. split; [symmetry; apply app_nil_r|]. split; [reflexivity|exact I].
  - destruct IH as (turns & Hm & Hlen & Hp).
    pose proof (cycle_inv registry client st) as Hc. rewrite Hcycle in Hc.
    destruct Hc as (resp' & entries & results & Hresp' & _ & Hne & Hs & Hm1 & _).
    rewrite Hresp in Hresp'. inversion Hresp'. subst resp'.
    exists (assistant_turn resp :: tool_result_turn results :: turns).
    split; [|split].
    + rewrite Hm, Hm1, <- !app_assoc. reflexivity.
    + simpl. rewrite Hlen. lia.
    + cbn [paired]. split; [reflexivity|]. split; [reflexivity|].
      split; [exact Hne|]. split; [|exact Hp].
      apply served_shape in Hs. destruct Hs as (_ & _ & Hids & _). exact Hids.
Qed.

End loop_more.

(** X11: Whatever relation between the states of the tools is reflexive,
    transitive and kept by every call of a registered callable relates the
    state before a run to the state after it, however the run ends: the loop
    changes the state of the tools through registered calls only. *)
Theorem X11_run_changes_state_through_tools_only {W : Type}
    (registry : list (string * (dict -> W -> result value * W))) (client : Client)
    (R : W -> W -> Prop) (fuel : nat) (w : W) (user_id message location : string) :
  (forall w, R w w) ->
  (forall a b c, R a b -> R b c -> R a c) ->
  (forall name fn inputs w, dict_get registry name = Some fn -> R w (snd (fn inputs w))) ->
  R w (snd (run registry client fuel w user_id message location)).
Proof.
  intros Hrefl Htrans Htools. unfold run.
  exact (loop_more.loop_preserves registry client R Hrefl Htrans Htools fuel
           (initial w user_id message location)).
Qed.

Lemma X11_run_changes_state_through_tools_only_witness :
  env (snd (run _TOOL_DISPATCH (scenario.scripted [Ok (scenario.asks [scenario.ask_save])]) 2
              scenario.w0 "u1" "Find me ramen" "San Francisco, CA"))
  = env scenario.w0.
Proof.
  apply (X11_run_changes_state_through_tools_only _TOOL_DISPATCH
           (scenario.scripted [Ok (scenario.asks [scenario.ask_save])])
           (fun a b => env b = env a) 2 scenario.w0 "u1" "Find me ramen"
           "San Francisco, CA").
  - reflexivity.
  - intros a b c Hab Hbc. rewrite Hbc. exact Hab.
  - intros name fn inputs w Hfn.
    exact (proj1 (calls.registered_keeps name fn inputs w Hfn)).
Defined.


(** X13: With the inference client in hand, the endpoint answers with an HTTP
    error only when an inference call raised: the status is 500, the detail
    is the text of that exception, and until then the loop went through
    tool cycles only. *)
Theorem X13_http_error_is_inference_failure {W : Type}
    (registry : list (string * (dict -> W -> result value * W))) (client : Client)
    (fuel : nat) (w w' : W) (req : server.RunRequest) (status : Z) (detail : string) :
  server.run registry client fuel w req = (Some (server.HTTPException status detail), w') ->
  status = 500%Z
  /\ exists n tus st' e,
       n < fuel
       /\ cycles registry client n
            (initial w (server.user_id req) (server.message req) (server.location req))
            tus st'
       /\ messages_create client (messages st') = Raise e
       /\ detail = str_exc e
       /\ w' = world st'.
Proof.
  unfold server.run, run.
  pose proof (loop_inv registry client fuel
                (initial w (server.user_id req) (server.message req) (server.location req)))
    as Hinv.
  destruct (loop registry client fuel _) as [[r|e|] w1]; intros H; inversion H; subst.
  split; [reflexivity|].
  destruct Hinv as (n & tus & st' & Hn & Hcs & Hab).
  pose proof (cycle_inv registry client st') as Hc. rewrite Hab in Hc.
  destruct Hc as [Hfail ->].
  exists n, tus, st', e. repeat split; assumption.
Qed.

Lemma X13_http_error_is_inference_failure_witness :
  let client := scenario.scripted [Ok (scenario.asks [scenario.ask_save])] in
  exists w' n tus st' e,
    server.run _TOOL_DISPATCH client 2 scenario.w0 scenario.request
    = (Some (server.HTTPException 500 "Connection error."), w')
    /\ n < 2
    /\ cycles _TOOL_DISPATCH client n (scenario.start scenario.w0) tus st'
    /\ messages_create client (messages st') = Raise e
    /\ "Connection error." = str_exc e.
Proof.
  intros client.
  assert (Hrun : exists w', server.run _TOOL_DISPATCH client 2 scenario.w0 scenario.request
                            = (Some (server.HTTPException 500 "Connection error."), w'))
    by (eexists; vm_compute; reflexivity).
  destruct Hrun as [w' Hrun].
  destruct (X13_http_error_is_inference_failure _TOOL_DISPATCH client 2 scenario.w0 w'
              scenario.request 500 "Connection error." Hrun)
    as (_ & n & tus & st' & e & Hn & Hcs & Hfail & Hd & _).
  exists w', n, tus, st', e. repeat split; assumption.
Defined.

(** X14: The transcript that tool cycles build is what the Messages API
    expects: it only grows, by two turns per cycle, an assistant turn with
    at least one tool request and then a user turn whose result blocks carry
    the ids of those requests, one for one and in order; after the seed
    message of a run the roles alternate. *)
Theorem X14_transcript_pairs_requests_with_results {W : Type}
    (registry : list (string * (dict -> W -> result value * W))) (client : Client)
    (n : nat) (w : W) (user_id message location : string) (tus : list ToolUse)
    (st' : State) :
  cycles registry client n (initial w user_id message location) tus st' ->
  exists turns,
    messages st' = seed user_id message location :: turns
    /\ length turns = 2 * n
    /\ paired turns.
Proof.
  intros Hcs.
  destruct (loop_more.cycles_transcript registry client n _ _ _ Hcs)
    as (turns & Hm & Hlen & Hp).
  exists turns. split; [exact Hm|]. split; assumption.
Qed.

Lemma X14_transcript_pairs_requests_with_results_witness :
  let client := scenario.scripted [Ok (scenario.asks [scenario.ask_save])] in
  exists (st' : State) turns,
    cycles _TOOL_DISPATCH client 1 (scenario.start scenario.w0)
      (tool_use_blocks (response_content (scenario.asks [scenario.ask_save])) ++ []) st'
    /\ messages st' = seed "u1" "Find me ramen" "San Francisco, CA" :: turns
    /\ length turns = 2
    /\ paired turns.
Proof.
  intros client.
  destruct (cycle_next _TOOL_DISPATCH client (scenario.start scenario.w0)
              (scenario.asks [scenario.ask_save]) eq_refl)
    as (entries & results & w1 & _ & Hcycle).
  - discriminate.
  - discriminate.
  - pose proof (cycles_more _TOOL_DISPATCH client 0 (scenario.start scenario.w0) _ _ [] _
                  eq_refl Hcycle (cycles_here _ _ _)) as Hcs.
    destruct (X14_transcript_pairs_requests_with_results _TOOL_DISPATCH client 1 scenario.w0
                "u1" "Find me ramen" "San Francisco, CA" _ _ Hcs)
      as (turns & Hm & Hlen & Hp).
    eexists _, turns. split; [exact Hcs|]. split; [exact Hm|]. split; assumption.
Defined.

(** X15: The inference client is created once.  A run that obtains a client
    leaves it in the module global, and every later run uses that client
    without consulting the environment or the constructor; a run whose
    client cannot be constructed raises before any inference or tool call,
    leaves the state of the tools as it was and the global unset. *)
Theorem X15_inference_client_is_created_once {W : Type}
    (registry : list (string * (dict -> W -> result value * W)))
    (e : Env) (g : option Client) (fuel : nat) (w : W)
    (user_id message location : string) :
  (forall c g', _get_client e g = (Ok c, g') ->
     run_global registry e g fuel w user_id message location
     = (run registry c fuel w user_id message location, Some c)
     /\ forall e' fuel' w' user_id' message' location',
          run_global registry e' (Some c) fuel' w' user_id' message' location'
          = (run registry c fuel' w' user_id' message' location', Some c))
  /\ (forall exc g', _get_client e g = (Raise exc, g') ->
        g = None
        /\ run_global registry e g fuel w user_id message location = ((Raised exc, w), None)).
Proof.
  split.
  - intros c g' Hc.
    assert (Hg : g' = Some c).
    { unfold _get_client in Hc. destruct g as [c0|]; [inversion Hc; reflexivity|].
      destruct (anthropic_Anthropic e (ANTHROPIC_API_KEY e)); inversion Hc; reflexivity. }
    subst g'. split; [unfold run_global; rewrite Hc; reflexivity|].
    intros. reflexivity.
  - intros exc g' Hc. unfold _get_client in Hc. destruct g as [c0|]; [discriminate Hc|].
    split; [reflexivity|].
    unfold run_global, _get_client.
    destruct (anthropic_Anthropic e (ANTHROPIC_API_KEY e)) as [c|exc']; inversion Hc.
    reflexivity.
Qed.

Lemma X15_inference_client_is_created_once_witness :
  let c := scenario.scripted [Ok (scenario.final "Hello")] in
  run_global _TOOL_DISPATCH (scenario.anthropic_env c) None 1 scenario.w0 "u1"
    "Find me ramen" "San Francisco, CA"
  = (run _TOOL_DISPATCH c 1 scenario.w0 "u1" "Find me ramen" "San Francisco, CA", Some c)
  /\ run_global _TOOL_DISPATCH scenario.anthropic_down (Some c) 1 scenario.w0 "u2"
       "And sushi?" "Oakland, CA"
     = (run _TOOL_DISPATCH c 1 scenario.w0 "u2" "And sushi?" "Oakland, CA", Some c)
  /\ run_global _TOOL_DISPATCH scenario.anthropic_down None 1 scenario.w0 "u1"
       "Find me ramen" "San Francisco, CA"
     = ((Raised (Exc "AnthropicError" "no API key"), scenario.w0), None).
Proof.
  intros c.
  destruct (X15_inference_client_is_created_once _TOOL_DISPATCH (scenario.anthropic_env c) None 1
              scenario.w0 "u1" "Find me ramen" "San Francisco, CA") as [Hok _].
  destruct (Hok c (Some c) eq_refl) as [Hfirst Hlater].
  destruct (X15_inference_client_is_created_once _TOOL_DISPATCH scenario.anthropic_down None 1
              scenario.w0 "u1" "Find me ramen" "San Francisco, CA") as [_ Hdown].
  split; [exact Hfirst|]. split; [apply Hlater|].
  exact (proj2 (Hdown _ None eq_refl)).
Defined.

(* ===================================================================== *)
(** * The schemas offered to the model and the registered callables *)
(* ===================================================================== *)

Module binding.
Import agent.

Lemma dict_get_In {A : Type} (d : list (string * A)) (k : string) (v : A) :
  dict_get d k = Some v -> In (k, v) d.
Proof.
  induction d as [|[k' v'] d IH]; simpl; [discriminate|].
  destruct (String.eqb k' k) eqn:E.
  - apply String.eqb_eq in E. subst k'. intros H. inversion H. left. reflexivity.
  - intros H. right. exact (IH H).
Qed.

Lemma dict_get_of_key {A : Type} (d : list (string * A)) (k : string) :
  existsb (String.eqb k) (map fst d) = true -> exists v, dict_get d k = Some v.
Proof.
  induction d as [|[k' v'] d IH]; simpl; [discriminate|].
  rewrite (String.eqb_sym k k').
  destruct (String.eqb k' k); [intros _; exists v'; reflexivity|exact IH].
Qed.

Lemma key_of_dict_get {A : Type} (d : list (string * A)) (k : string) (v : A) :
  dict_get d k = Some v -> existsb (String.eqb k) (map fst d) = true.
Proof.
  induction d as [|[k' v'] d IH]; simpl; [discriminate|].
  rewrite (String.eqb_sym k k').
  destruct (String.eqb k' k); [reflexivity|exact IH].
Qed.

Section Valid.
Variable t : schema.Tool.
Variable inputs : dict.
Hypothesis Hvalid : schema.valid t inputs = true.

Lemma valid_entry (k : string) (v : value) :
  dict_get inputs k = Some v ->
  exists ty, dict_get (schema.properties t) k = Some ty /\ schema.conforms ty v = true.
Proof.
  intros Hk. pose proof Hvalid as Hv. unfold schema.valid in Hv. apply andb_true_iff in Hv.
  destruct Hv as [Hall _].
  pose proof (proj1 (forallb_forall _ _) Hall (k, v) (dict_get_In _ _ _ Hk)) as H.
  simpl in H. destruct (dict_get (schema.properties t) k) as [ty|]; [|discriminate].
  exists ty. split; [reflexivity|exact H].
Qed.

Lemma valid_required (k : string) :
  In k (schema.required t) -> exists v, dict_get inputs k = Some v.
Proof.
  intros Hk. pose proof Hvalid as Hv. unfold schema.valid in Hv. apply andb_true_iff in Hv.
  destruct Hv as [_ Hreq].
  apply dict_get_of_key. exact (proj1 (forallb_forall _ _) Hreq k Hk).
Qed.

Lemma valid_keywords :
  unexpected_keyword (map fst (schema.properties t)) inputs = None.
Proof.
  pose proof Hvalid as Hv. unfold schema.valid in Hv. apply andb_true_iff in Hv.
  destruct Hv as [Hall _]. unfold unexpected_keyword. clear Hvalid.
  induction inputs as [|[k v] rest IH]; [reflexivity|].
  simpl in Hall. apply andb_true_iff in Hall. destruct Hall as [Hk Hrest].
  simpl. destruct (dict_get (schema.properties t) k) as [ty|] eqn:Hty; [|discriminate].
  rewrite (key_of_dict_get _ _ _ Hty). simpl. exact (IH Hrest).
Qed.

Lemma valid_arguments : missing_arguments (schema.required t) inputs = [].
Proof.
  pose proof Hvalid as Hv. unfold schema.valid in Hv. apply andb_true_iff in Hv.
  destruct Hv as [_ Hreq]. unfold missing_arguments.
  induction (schema.required t) as [|k required IH]; [reflexivity|].
  simpl in Hreq. apply andb_true_iff in Hreq. destruct Hreq as [Hk Hrest].
  simpl. rewrite Hk. simpl. exact (IH Hrest).
Qed.

Lemma valid_check (fname : string) :
  check_keywords fname (map fst (schema.properties t)) (schema.required t) inputs = Ok tt.
Proof.
  unfold check_keywords. rewrite valid_keywords, valid_arguments. reflexivity.
Qed.

Lemma required_string (k : string) :
  In k (schema.required t) ->
  dict_get (schema.properties t) k = Some schema.TString ->
  exists s, argument as_str inputs k = Some s /\ required_arg as_str inputs k = Ok s.
Proof.
  intros Hreq Hty. destruct (valid_required k Hreq) as [v Hv].
  destruct (valid_entry k v Hv) as (ty & Hty' & Hc).
  rewrite Hty in Hty'. inversion Hty'. subst ty.
  destruct v; try discriminate Hc.
  eexists. unfold argument, required_arg. rewrite Hv. split; reflexivity.
Qed.

Lemma strings_conform (l : list value) :
  forallb (schema.conforms schema.TString) l = true ->
  exists ss, as_str_list_items l = Some ss.
Proof.
  induction l as [|v l IH]; simpl; [intros _; exists []; reflexivity|].
  intros H. apply andb_true_iff in H. destruct H as [Hv Hl].
  destruct v; try discriminate Hv. destruct (IH Hl) as [ss Hss].
  rewrite Hss. eexists. reflexivity.
Qed.

Lemma optional_strings (k : string) :
  dict_get (schema.properties t) k = Some (schema.TArray schema.TString) ->
  optional_arg as_str_list inputs k = Ok (argument as_str_list inputs k).
Proof.
  intros Hty. unfold optional_arg, argument.
  destruct (dict_get inputs k) as [v|] eqn:Hv; [|reflexivity].
  destruct (valid_entry k v Hv) as (ty & Hty' & Hc).
  rewrite Hty in Hty'. inversion Hty'. subst ty.
  destruct v; try discriminate Hc. simpl in Hc.
  destruct (strings_conform _ Hc) as [ss Hss]. simpl. rewrite Hss. reflexivity.
Qed.

Lemma optional_choice (k : string) (values : list string) :
  dict_get (schema.properties t) k = Some (schema.TEnum values) ->
  optional_arg as_str inputs k = Ok (argument as_str inputs k).
Proof.
  intros Hty. unfold optional_arg, argument.
  destruct (dict_get inputs k) as [v|] eqn:Hv; [|reflexivity].
  destruct (valid_entry k v Hv) as (ty & Hty' & Hc).
  rewrite Hty in Hty'. inversion Hty'. subst ty.
  destruct v; try discriminate Hc. reflexivity.
Qed.

Lemma defaulted_integer (k : string) (z : Z) :
  dict_get (schema.properties t) k = Some schema.TInteger ->
  match dict_get inputs k with
  | None => Ok z
  | Some _ => required_arg as_int inputs k
  end = Ok (default z (argument as_int inputs k)).
Proof.
  intros Hty. unfold required_arg, argument.
  destruct (dict_get inputs k) as [v|] eqn:Hv; [|reflexivity].
  destruct (valid_entry k v Hv) as (ty & Hty' & Hc).
  rewrite Hty in Hty'. inversion Hty'. subst ty.
  destruct v; try discriminate Hc. reflexivity.
Qed.

End Valid.

End binding.



Module unbounded.
Import agent.

(** Against a model that gives one answer to every call, the requests
    served over [n] cycles are those of the answer, [n] times. *)
Lemma cycles_constant {W : Type}
    (registry : list (string * (dict -> W -> result value * W))) (resp : Response)
    (n : nat) (st st' : State) (tus : list ToolUse) :
  cycles registry {| messages_create := fun _ => Ok resp |} n st tus st' ->
  tus = concat (repeat (tool_use_blocks (response_content resp)) n).
Proof.
  induction 1 as [st|n st resp0 st1 tus st2 Hresp _ _ IH]; [reflexivity|].
  simpl in Hresp. inversion Hresp. subst resp0. simpl. rewrite IH. reflexivity.
Qed.

Lemma length_concat_repeat {A : Type} (l : list A) (n : nat) :
  length (concat (repeat l n)) = n * length l.
Proof.
  induction n as [|n IH]; [reflexivity|]. simpl. rewrite length_app, IH. reflexivity.
Qed.

End unbounded.

(** X17: The loop has no bound on its passes.  Against a model that asks for
    tools at every call, a run never returns and the endpoint never
    replies: after any number of passes the loop is about to call the model
    again, having served and logged every request of every answer. *)
Theorem X17_run_has_no_iteration_bound {W : Type}
    (registry : list (string * (dict -> W -> result value * W))) (resp : Response)
    (fuel : nat) (w : W) (req : server.RunRequest) :
  stop_reason resp <> "end_turn" ->
  tool_use_blocks (response_content resp) <> [] ->
  let client := {| messages_create := fun _ => Ok resp |} in
  let st := initial w (server.user_id req) (server.message req) (server.location req) in
  fst (run registry client fuel w (server.user_id req) (server.message req)
         (server.location req)) = OutOfFuel
  /\ fst (server.run registry client fuel w req) = None
  /\ exists st',
       cycles registry client fuel st
         (concat (repeat (tool_use_blocks (response_content resp)) fuel)) st'
       /\ length (tool_calls_log st')
          = fuel * length (tool_use_blocks (response_content resp)).
Proof.
  intros Hstop Htus client st.
  pose proof (asking_forever registry resp fuel st Hstop Htus) as Hout.
  fold client in Hout.
  assert (Hrun : fst (run registry client fuel w (server.user_id req) (server.message req)
                        (server.location req)) = OutOfFuel) by exact Hout.
  split; [exact Hrun|]. split.
  - unfold server.run.
    destruct (run registry client fuel w (server.user_id req) (server.message req)
                (server.location req)) as [[r|e|] w1]; try discriminate Hrun.
    reflexivity.
  - pose proof (loop_inv registry client fuel st) as Hinv.
    destruct (loop registry client fuel st) as [[r|e|] w1]; try discriminate Hout.
    destruct Hinv as (tus & st' & Hcs & _).
    pose proof (unbounded.cycles_constant registry resp fuel st st' tus Hcs) as Htus'.
    subst tus. exists st'. split; [exact Hcs|].
    destruct (cycles_served registry client fuel st st' _ Hcs)
      as (entries & results & Hs & Hlog & _).
    apply served_shape in Hs. destruct Hs as (_ & _ & _ & _ & _ & Hlen & _).
    rewrite Hlog, length_app, Hlen, unbounded.length_concat_repeat. reflexivity.
Qed.

Lemma X17_run_has_no_iteration_bound_witness :
  let client := {| messages_create := fun _ => Ok (scenario.asks [scenario.ask_prefs]) |} in
  fst (run _TOOL_DISPATCH client 50 scenario.w0 "u1" "Find me ramen" "San Francisco, CA")
  = OutOfFuel
  /\ fst (server.run _TOOL_DISPATCH client 50 scenario.w0 scenario.request) = None.
Proof.
  intros client.
  destruct (X17_run_has_no_iteration_bound _TOOL_DISPATCH (scenario.asks [scenario.ask_prefs]) 50
              scenario.w0 scenario.request) as (Hrun & Hreply & _).
  - discriminate.
  - discriminate.
  - split; [exact Hrun|exact Hreply].
Defined.
